(** * CrypTalker: session handshake, message pipeline and offline queue

    A shallow embedding of the protocol core of the repository
    (lib/crypto, lib/session, lib/message-pipeline, lib/offline-queue)
    together with the properties of its behaviour.

    Conventions of the embedding.
    - A JavaScript string is the list of its UTF-16 code units.
    - Integer-valued JavaScript numbers (counters, attempt numbers, clock
      readings of [Date.now()]) are in [Z]; numbers that carry a fraction
      (retry delays, draws of [Math.random()]) are exact rationals in [Q].
    - An [async] function is a function into [Promise], which either
      resolves with a value or rejects with the error that was thrown.
      A call runs to its end: no other task is interleaved at an [await].
    - Mutable objects are passed explicitly: a function that writes to an
      argument or to a module-level map returns the object as it leaves it.
    - [Date.now()] and [Math.random()] are inputs of the functions that
      call them. *)

From Stdlib Require Import ZArith QArith Qpower Qminmax Lqa Lia List Sorted String Ascii.
From Stdlib Require Import DecimalString.
From stdpp Require Import gmap list.
Import ListNotations.
Open Scope Z_scope.

(* ================================================================== *)
(** * Part I: definitions                                              *)
(* ================================================================== *)

(** ** The JavaScript runtime: strings, [Buffer], promises *)

Abbreviation JsString := (list Z).

(** A string literal of the source, for literals made of ASCII characters. *)
Definition js (s : string) : JsString :=
  map (fun a => Z.of_N (N_of_ascii a)) (list_ascii_of_string s).

Definition in_range (lo hi x : Z) : bool := (lo <=? x) && (x <=? hi).

Definition is_code_unit (u : Z) : bool := in_range 0 0xFFFF u.
Definition is_high_surrogate (u : Z) : bool := in_range 0xD800 0xDBFF u.
Definition is_low_surrogate (u : Z) : bool := in_range 0xDC00 0xDFFF u.

(** A string is well formed when every surrogate code unit is half of a
    pair (high then low): the strings that have a UTF-8 encoding. *)
Fixpoint well_formed (s : JsString) : bool :=
  match s with
  | [] => true
  | u :: t =>
      if is_high_surrogate u then
        match t with
        | l :: t' => is_low_surrogate l && well_formed t'
        | [] => false
        end
      else is_code_unit u && negb (is_low_surrogate u) && well_formed t
  end.

(** Code unit order, the order of [<] on strings and of the default
    [Array.prototype.sort]. *)
Fixpoint js_ltb (a b : JsString) : bool :=
  match a, b with
  | [], [] => false
  | [], _ :: _ => true
  | _ :: _, [] => false
  | x :: a', y :: b' => (x <? y) || ((x =? y) && js_ltb a' b')
  end.

(** [[a, b].sort()] *)
Definition sort2 (a b : JsString) : list JsString :=
  if js_ltb b a then [b; a] else [a; b].

(** [xs.join(sep)] *)
Fixpoint join (sep : JsString) (xs : list JsString) : JsString :=
  match xs with
  | [] => []
  | [x] => x
  | x :: rest => x ++ sep ++ join sep rest
  end.

Module Buffer.

(** The code points of a string as [Buffer.from(s)] reads them: a
    surrogate pair is one supplementary code point, a surrogate outside
    a pair is replaced by U+FFFD. *)
Fixpoint code_points (s : JsString) : list Z :=
  match s with
  | [] => []
  | u :: t =>
      if is_high_surrogate u then
        match t with
        | l :: t' =>
            if is_low_surrogate l
            then (0x10000 + (u - 0xD800) * 0x400 + (l - 0xDC00)) :: code_points t'
            else 0xFFFD :: code_points t
        | [] => [0xFFFD]
        end
      else if is_low_surrogate u then 0xFFFD :: code_points t
      else u :: code_points t
  end.

Definition utf8_encode_cp (cp : Z) : list Z :=
  if cp <? 0x80 then [cp]
  else if cp <? 0x800 then [0xC0 + cp / 64; 0x80 + cp mod 64]
  else if cp <? 0x10000 then
    [0xE0 + cp / 4096; 0x80 + (cp / 64) mod 64; 0x80 + cp mod 64]
  else
    [0xF0 + cp / 262144; 0x80 + (cp / 4096) mod 64;
     0x80 + (cp / 64) mod 64; 0x80 + cp mod 64].

Definition utf8_encode (cps : list Z) : list Z := flat_map utf8_encode_cp cps.

(** UTF-8 decoding with replacement: an ill-formed sequence yields one
    U+FFFD for its longest prefix that starts a well-formed sequence,
    and decoding resumes at the byte that broke it. *)
Fixpoint utf8_decode (bs : list Z) : list Z :=
  match bs with
  | [] => []
  | b1 :: r1 =>
      if in_range 0 0x7F b1 then b1 :: utf8_decode r1
      else if in_range 0xC2 0xDF b1 then
        match r1 with
        | b2 :: r2 =>
            if in_range 0x80 0xBF b2
            then ((b1 - 0xC0) * 64 + (b2 - 0x80)) :: utf8_decode r2
            else 0xFFFD :: utf8_decode r1
        | [] => [0xFFFD]
        end
      else if in_range 0xE0 0xEF b1 then
        match r1 with
        | b2 :: r2 =>
            if in_range (if b1 =? 0xE0 then 0xA0 else 0x80)
                        (if b1 =? 0xED then 0x9F else 0xBF) b2
            then
              match r2 with
              | b3 :: r3 =>
                  if in_range 0x80 0xBF b3
                  then ((b1 - 0xE0) * 4096 + (b2 - 0x80) * 64 + (b3 - 0x80))
                         :: utf8_decode r3
                  else 0xFFFD :: utf8_decode r2
              | [] => [0xFFFD]
              end
            else 0xFFFD :: utf8_decode r1
        | [] => [0xFFFD]
        end
      else if in_range 0xF0 0xF4 b1 then
        match r1 with
        | b2 :: r2 =>
            if in_range (if b1 =? 0xF0 then 0x90 else 0x80)
                        (if b1 =? 0xF4 then 0x8F else 0xBF) b2
            then
              match r2 with
              | b3 :: r3 =>
                  if in_range 0x80 0xBF b3
                  then
                    match r3 with
                    | b4 :: r4 =>
                        if in_range 0x80 0xBF b4
                        then ((b1 - 0xF0) * 262144 + (b2 - 0x80) * 4096
                              + (b3 - 0x80) * 64 + (b4 - 0x80))
                               :: utf8_decode r4
                        else 0xFFFD :: utf8_decode r3
                    | [] => [0xFFFD]
                    end
                  else 0xFFFD :: utf8_decode r2
              | [] => [0xFFFD]
              end
            else 0xFFFD :: utf8_decode r1
        | [] => [0xFFFD]
        end
      else 0xFFFD :: utf8_decode r1
  end.

Definition utf16_encode_cp (cp : Z) : list Z :=
  if cp <? 0x10000 then [cp]
  else [0xD800 + (cp - 0x10000) / 0x400; 0xDC00 + (cp - 0x10000) mod 0x400].

Definition utf16_encode (cps : list Z) : JsString := flat_map utf16_encode_cp cps.

(** The base64 alphabet: the character of a six-bit value. *)
Definition b64_char (v : Z) : Z :=
  if v <? 26 then 65 + v          (* A-Z *)
  else if v <? 52 then 71 + v     (* a-z *)
  else if v <? 62 then v - 4      (* 0-9 *)
  else if v =? 62 then 43         (* + *)
  else 47.                        (* / *)

(** The six-bit value of a character; the decoder also reads the URL
    alphabet ([-] and [_]). *)
Definition b64_value (c : Z) : option Z :=
  if in_range 65 90 c then Some (c - 65)
  else if in_range 97 122 c then Some (c - 71)
  else if in_range 48 57 c then Some (c + 4)
  else if (c =? 43) || (c =? 45) then Some 62
  else if (c =? 47) || (c =? 95) then Some 63
  else None.

Fixpoint b64_encode (bs : list Z) : JsString :=
  match bs with
  | [] => []
  | [b1] => [b64_char (b1 / 4); b64_char ((b1 mod 4) * 16); 61; 61]
  | [b1; b2] =>
      [b64_char (b1 / 4); b64_char ((b1 mod 4) * 16 + b2 / 16);
       b64_char ((b2 mod 16) * 4); 61]
  | b1 :: b2 :: b3 :: rest =>
      [b64_char (b1 / 4); b64_char ((b1 mod 4) * 16 + b2 / 16);
       b64_char ((b2 mod 16) * 4 + b3 / 64); b64_char (b3 mod 64)]
        ++ b64_encode rest
  end.

(** The six-bit values the decoder reads: characters outside the
    alphabet are skipped, and the first [=] ends the input. *)
Fixpoint b64_sextets (cs : JsString) : list Z :=
  match cs with
  | [] => []
  | c :: rest =>
      if c =? 61 then []
      else match b64_value c with
           | Some v => v :: b64_sextets rest
           | None => b64_sextets rest
           end
  end.

Fixpoint b64_bytes (vs : list Z) : list Z :=
  match vs with
  | v1 :: v2 :: v3 :: v4 :: rest =>
      [v1 * 4 + v2 / 16; (v2 mod 16) * 16 + v3 / 4; (v3 mod 4) * 64 + v4]
        ++ b64_bytes rest
  | [v1; v2; v3] => [v1 * 4 + v2 / 16; (v2 mod 16) * 16 + v3 / 4]
  | [v1; v2] => [v1 * 4 + v2 / 16]
  | _ => []
  end.

Definition b64_decode (cs : JsString) : list Z := b64_bytes (b64_sextets cs).

(** [Buffer.from(s)] : the UTF-8 bytes of [s]. *)
Definition from (s : JsString) : list Z := utf8_encode (code_points s).
(** [Buffer.from(s, "base64")] *)
Definition from_base64 (s : JsString) : list Z := b64_decode s.
(** [buf.toString("base64")] *)
Definition toString_base64 (buf : list Z) : JsString := b64_encode buf.
(** [buf.toString()] *)
Definition toString (buf : list Z) : JsString := utf16_encode (utf8_decode buf).

End Buffer.

(** [Buffer.from(s).toString("base64")], the idiom of the source. *)
Definition base64 (s : JsString) : JsString :=
  Buffer.toString_base64 (Buffer.from s).


(** Errors that the code throws or that the runtime raises. *)
Inductive JsError :=
  | TypeError
  | SyntaxError
  | Error (message : JsString).

(** The outcome of an [async] function (or of a [try] body). *)
Inductive Promise (A : Type) :=
  | Resolved (value : A)
  | Rejected (reason : JsError).
Arguments Resolved {A} value.
Arguments Rejected {A} reason.

#[export] Instance promise_ret : MRet Promise := fun A a => Resolved a.
#[export] Instance promise_bind : MBind Promise := fun A B f p =>
  match p with
  | Resolved a => f a
  | Rejected e => Rejected e
  end.

(** A value in a template literal: [undefined] prints as its name. *)
Definition template (o : option JsString) : JsString :=
  match o with
  | Some s => s
  | None => js "undefined"
  end.

(** [String(n)] for an integer [n] (below 1e21 in absolute value, where
    the text has no exponent): its decimal digits, after a sign when it
    is negative. *)
Definition decimal (n : Z) : JsString :=
  js (NilZero.string_of_int (Z.to_int n)).

(** [s.toUpperCase()] for text in ASCII, as base64 text is: the letters
    a-z become A-Z. *)
Definition toUpperCase (s : JsString) : JsString :=
  map (fun c => if in_range 97 122 c then c - 32 else c) s.

(** The values [JSON.parse] produces, and [undefined] for a property that
    is not there. *)
#[local] Set Warnings "-register-all".
Inductive JsValue :=
  | JUndefined
  | JNull
  | JBool (b : bool)
  | JNumber (q : Q)
  | JString (s : JsString)
  | JArray (items : list JsValue)
  | JObject (fields : list (JsString * JsValue)).
#[local] Set Warnings "+register-all".

Fixpoint assoc_get {V : Type} (k : JsString) (l : list (JsString * V)) : option V :=
  match l with
  | [] => None
  | (k', v) :: rest => if bool_decide (k' = k) then Some v else assoc_get k rest
  end.

(** [v.name], for a name that no prototype defines: reading a property of
    [null] or [undefined] throws, a missing property is [undefined]. *)
Definition get_property (v : JsValue) (name : JsString) : Promise JsValue :=
  match v with
  | JUndefined | JNull => Rejected TypeError
  | JObject fields =>
      Resolved (match assoc_get name fields with Some x => x | None => JUndefined end)
  | _ => Resolved JUndefined
  end.

(** ** lib/crypto: key material and the simulated primitives *)

Module KeyPair.
Record t := mk { publicKey : JsString; secretKey : JsString }.
End KeyPair.

Module PreKey.
Record t := mk {
  keyId : Z;
  publicKey : JsString;
  signature : JsString;
  createdAt : Z
}.
End PreKey.

Module OneTimeKey.
Record t := mk { keyId : Z; publicKey : JsString }.
End OneTimeKey.

Module DeviceKeys.
Record t := mk {
  deviceId : JsString;
  signingKeys : KeyPair.t;
  agreementKeys : KeyPair.t;
  preKeys : list PreKey.t;
  oneTimeKeys : list OneTimeKey.t
}.
End DeviceKeys.

Module SessionKey.
Record t := mk {
  sharedSecret : JsString;
  headerSecret : JsString;
  chainKey : JsString;
  messageCounter : Z
}.
Definition set_messageCounter (k : t) (c : Z) : t :=
  mk (sharedSecret k) (headerSecret k) (chainKey k) c.
Definition set_chainKey (k : t) (c : JsString) : t :=
  mk (sharedSecret k) (headerSecret k) c (messageCounter k).
End SessionKey.

Module EncryptedMessage.
Record t := mk {
  ciphertext : JsString;
  nonce : JsString;
  senderDeviceId : JsString;
  recipientDeviceId : JsString;
  timestamp : Z;
  messageCounter : Z;
  headerSecret : JsString
}.
End EncryptedMessage.

Module cryptoUtils.

(** [deriveSharedSecret]; [rndHeader] and [rndChain] are the texts of
    the two [Math.random().toString()] it draws. *)
Definition deriveSharedSecret
    (theirSignedPreKey : JsString) (theirOneTimeKey : option JsString)
    (ourAgreementSecretKey : JsString)
    (rndHeader rndChain : JsString) : Promise SessionKey.t :=
  let sharedSecret :=
    base64 (theirSignedPreKey ++ template theirOneTimeKey ++ ourAgreementSecretKey) in
  let headerSecret := base64 rndHeader in
  let chainKey := base64 rndChain in
  Resolved (SessionKey.mk sharedSecret headerSecret chainKey 0).

(** [encryptMessage]; [now] is the reading of [Date.now()], [rndNonce]
    the text of the random draw of the nonce. *)
Definition encryptMessage
    (plaintext : JsString) (sessionKey : SessionKey.t)
    (senderId recipientId senderDeviceId recipientDeviceId : JsString)
    (now : Z) (rndNonce : JsString) : Promise EncryptedMessage.t :=
  let timestamp := now in
  let messageCounter := SessionKey.messageCounter sessionKey + 1 in
  let nonce := base64 rndNonce in
  let ciphertext := base64 plaintext in
  Resolved (EncryptedMessage.mk ciphertext nonce senderDeviceId recipientDeviceId
              timestamp messageCounter (SessionKey.headerSecret sessionKey)).

Definition decryptMessage
    (message : EncryptedMessage.t) (sessionKey : SessionKey.t) : Promise JsString :=
  Resolved (Buffer.toString (Buffer.from_base64 (EncryptedMessage.ciphertext message))).

Definition verifySignature (message signature publicKey : JsString) : Promise bool :=
  Resolved true.

Definition signData (data secretKey : JsString) : Promise JsString :=
  Resolved (base64 (data ++ js ":signed:" ++ secretKey)).


(** Double-ratchet style key evolution; [now] is the reading of
    [Date.now()]. *)
Definition evolveChainKey (chainKey : JsString) (now : Z) : Promise JsString :=
  Resolved (base64 (chainKey ++ js ":evolved:" ++ decimal now)).

End cryptoUtils.

(** ** lib/session: the handshake and the session store *)

Module X3DHBundle.
Record t := mk {
  identityKey : JsString;
  signedPreKey : JsString;
  signedPreKeySignature : JsString;
  oneTimePreKeys : list JsString;
  timestamp : Z
}.
End X3DHBundle.

Inductive SessionLifecycle := initiated | established | rekeying.

#[export] Instance SessionLifecycle_eq_dec : EqDecision SessionLifecycle.
Proof. solve_decision. Defined.

Module X3dhData.
Record t := mk { sharedSecret : JsString; messageCounter : Z }.
End X3dhData.

Module SessionState.
Record t := mk {
  sessionId : JsString;
  userId1 : JsString;
  userId2 : JsString;
  deviceId1 : JsString;
  deviceId2 : JsString;
  sessionKey : SessionKey.t;
  state : SessionLifecycle;
  x3dhData : X3dhData.t;
  createdAt : Z;
  lastUpdated : Z
}.
Definition set_sessionKey (s : t) (k : SessionKey.t) : t :=
  mk (sessionId s) (userId1 s) (userId2 s) (deviceId1 s) (deviceId2 s)
     k (state s) (x3dhData s) (createdAt s) (lastUpdated s).
Definition set_lastUpdated (s : t) (n : Z) : t :=
  mk (sessionId s) (userId1 s) (userId2 s) (deviceId1 s) (deviceId2 s)
     (sessionKey s) (state s) (x3dhData s) (createdAt s) n.
Definition set_state (s : t) (l : SessionLifecycle) : t :=
  mk (sessionId s) (userId1 s) (userId2 s) (deviceId1 s) (deviceId2 s)
     (sessionKey s) l (x3dhData s) (createdAt s) (lastUpdated s).
End SessionState.

(** The module-level [sessionStore]. *)
Abbreviation SessionStore := (gmap JsString SessionState.t).

Inductive HandshakeType := identity_key | prekey_bundle | handshake_complete.

(** A handshake message; a payload entry is [None] where the source
    stores [undefined]. *)
Module HandshakeMessage.
Record t := mk {
  messageId : JsString;
  messageType : HandshakeType;
  senderId : JsString;
  senderDeviceId : JsString;
  recipientId : JsString;
  payload : list (JsString * option JsString);
  timestamp : Z;
  signature : JsString
}.
End HandshakeMessage.

Module sessionManager.

Definition generateX3DHBundle (deviceKeys : DeviceKeys.t) (now : Z)
    : Promise X3DHBundle.t :=
  match DeviceKeys.preKeys deviceKeys with
  | [] => Rejected TypeError  (* [preKey] is [undefined] *)
  | preKey :: _ =>
      Resolved (X3DHBundle.mk
        (KeyPair.publicKey (DeviceKeys.signingKeys deviceKeys))
        (PreKey.publicKey preKey)
        (PreKey.signature preKey)
        (map OneTimeKey.publicKey (DeviceKeys.oneTimeKeys deviceKeys))
        now)
  end.

(** The id expression of [completeHandshake] and [getOrCreateSession]. *)
Definition sessionIdOf (userId1 deviceId1 userId2 deviceId2 : JsString) : JsString :=
  js "session:" ++ join (js ":") (sort2 userId1 userId2)
     ++ js ":" ++ join (js ":") (sort2 deviceId1 deviceId2).

(** [completeHandshake]: its only effect is [sessionStore.set]; the
    device keys and the bundle are read and never written. *)
Definition completeHandshake
    (sessionStore : SessionStore)
    (userId1 deviceId1 userId2 deviceId2 : JsString)
    (ourDeviceKeys : DeviceKeys.t) (theirPreKeyBundle : X3DHBundle.t)
    (isInitiator : bool)
    (now : Z) (rndHeader rndChain : JsString)
    : Promise (SessionState.t * SessionStore) :=
  let ourSigningPublic := KeyPair.publicKey (DeviceKeys.signingKeys ourDeviceKeys) in
  let ourAgreementSecret := KeyPair.secretKey (DeviceKeys.agreementKeys ourDeviceKeys) in
  let dh1 := ourSigningPublic ++ js ":" ++ X3DHBundle.identityKey theirPreKeyBundle in
  let dh2 := ourAgreementSecret ++ js ":" ++ X3DHBundle.identityKey theirPreKeyBundle in
  let dh3 := ourSigningPublic ++ js ":" ++ X3DHBundle.signedPreKey theirPreKeyBundle in
  let dh4 := ourAgreementSecret ++ js ":" ++ X3DHBundle.signedPreKey theirPreKeyBundle in
  sessionKey ← cryptoUtils.deriveSharedSecret
                 (dh1 ++ js ":" ++ dh2 ++ js ":" ++ dh3 ++ js ":" ++ dh4)
                 (head (X3DHBundle.oneTimePreKeys theirPreKeyBundle))
                 ourAgreementSecret rndHeader rndChain;
  let sessionId := sessionIdOf userId1 deviceId1 userId2 deviceId2 in
  let sessionState :=
    SessionState.mk sessionId userId1 userId2 deviceId1 deviceId2 sessionKey
      established
      (X3dhData.mk (SessionKey.sharedSecret sessionKey) 0)
      now now in
  Resolved (sessionState, <[sessionId := sessionState]> sessionStore).

Definition getOrCreateSession
    (sessionStore : SessionStore)
    (userId1 deviceId1 userId2 deviceId2 : JsString)
    : Promise (option SessionState.t) :=
  Resolved (sessionStore !! sessionIdOf userId1 deviceId1 userId2 deviceId2).


(** Initiate handshake - User A sends initial handshake message; [uuid]
    is the message id drawn, [rndEphemeral] the text of the random draw
    of the ephemeral key. *)
Definition initiateHandshake
    (userId senderDeviceId recipientId recipientDeviceId : JsString)
    (deviceKeys : DeviceKeys.t)
    (uuid rndEphemeral : JsString) (now : Z) : Promise HandshakeMessage.t :=
  signature ← cryptoUtils.signData
                (userId ++ js ":" ++ senderDeviceId ++ js ":" ++ recipientId)
                (KeyPair.secretKey (DeviceKeys.signingKeys deviceKeys));
  Resolved (HandshakeMessage.mk uuid identity_key userId senderDeviceId recipientId
              [(js "identityKey",
                Some (KeyPair.publicKey (DeviceKeys.signingKeys deviceKeys)));
               (js "ephemeralKey", Some (base64 rndEphemeral))]
              now signature).

(** Respond to handshake - User B sends response with prekey bundle;
    [uuidMessage] and [uuidBundle] are the two ids drawn. *)
Definition respondToHandshake
    (initiationMessage : HandshakeMessage.t) (userId deviceId : JsString)
    (deviceKeys : DeviceKeys.t)
    (uuidMessage uuidBundle : JsString) (now : Z) : Promise HandshakeMessage.t :=
  bundle ← generateX3DHBundle deviceKeys now;
  signature ← cryptoUtils.signData
                (userId ++ js ":" ++ deviceId ++ js ":response")
                (KeyPair.secretKey (DeviceKeys.signingKeys deviceKeys));
  Resolved (HandshakeMessage.mk uuidMessage prekey_bundle userId deviceId
              (HandshakeMessage.senderId initiationMessage)
              [(js "bundleId", Some uuidBundle);
               (js "identityKey", Some (X3DHBundle.identityKey bundle));
               (js "signedPreKey", Some (X3DHBundle.signedPreKey bundle));
               (js "signedPreKeySignature",
                Some (X3DHBundle.signedPreKeySignature bundle));
               (js "oneTimePreKey", head (X3DHBundle.oneTimePreKeys bundle))]
              now signature).

(** Store session in session store *)
Definition storeSession (sessionStore : SessionStore) (session : SessionState.t)
    : Promise SessionStore :=
  Resolved (<[SessionState.sessionId session := session]> sessionStore).

(** Retrieve session for encryption/decryption *)
Definition retrieveSession (sessionStore : SessionStore) (sessionId : JsString)
    : Promise (option SessionState.t) :=
  Resolved (sessionStore !! sessionId).

(** Rekey session (update chain keys): the session of the store is
    written in place. *)
Definition rekeySession (sessionStore : SessionStore) (sessionId : JsString) (now : Z)
    : Promise (option SessionState.t * SessionStore) :=
  match sessionStore !! sessionId with
  | None => Resolved (None, sessionStore)
  | Some session =>
      chainKey ← cryptoUtils.evolveChainKey
                   (SessionKey.chainKey (SessionState.sessionKey session)) now;
      let session1 :=
        SessionState.set_sessionKey session
          (SessionKey.set_chainKey (SessionState.sessionKey session) chainKey) in
      let session2 := SessionState.set_state session1 rekeying in
      let session3 := SessionState.set_lastUpdated session2 now in
      Resolved (Some session3, <[sessionId := session3]> sessionStore)
  end.

(** Send handshake completion acknowledgment *)
Definition sendHandshakeComplete
    (userId deviceId recipientId recipientDeviceId : JsString)
    (sessionKey : SessionKey.t) (uuid : JsString) (now : Z)
    : Promise HandshakeMessage.t :=
  Resolved (HandshakeMessage.mk uuid handshake_complete userId deviceId recipientId
              [(js "sessionId",
                Some (js "session:" ++ join (js ":") (sort2 userId recipientId)
                        ++ js ":" ++ join (js ":") (sort2 deviceId recipientDeviceId)));
               (js "acknowledged", Some (js "true"))]
              now (base64 (js "handshake-complete-ack"))).

(** Get all active sessions for a user.  The source collects them in
    the order in which the store was filled, which the store of this
    model does not keep: the result is meant up to its order. *)
Definition getActiveSessionsForUser (sessionStore : SessionStore) (userId : JsString)
    : Promise (list SessionState.t) :=
  Resolved
    (filter (fun session =>
               (SessionState.userId1 session = userId
                \/ SessionState.userId2 session = userId)
               /\ SessionState.state session = established)
            (snd <$> map_to_list sessionStore)).

(** Clear session (close connection) *)
Definition clearSession (sessionStore : SessionStore) (sessionId : JsString)
    : Promise SessionStore :=
  Resolved (delete sessionId sessionStore).

End sessionManager.

(** ** lib/db: the in-memory database *)

Inductive MessageStatus := MsPending | MsSent | MsDelivered | MsRead.

(** A stored message; its conversation id is that of the plaintext
    message, absent when that one has none. *)
Module Message.
Record t := mk {
  messageId : JsString;
  conversationId : option JsString;
  senderDeviceId : JsString;
  senderUserId : JsString;
  ciphertext : JsString;
  nonce : JsString;
  timestamp : Z;
  messageCounter : Z;
  headerSecret : JsString;
  status : MessageStatus;
  createdAt : Z
}.
Definition set_status (m : t) (s : MessageStatus) : t :=
  mk (messageId m) (conversationId m) (senderDeviceId m) (senderUserId m)
     (ciphertext m) (nonce m) (timestamp m) (messageCounter m) (headerSecret m)
     s (createdAt m).
End Message.

Module ReadReceipt.
Record t := mk {
  messageId : JsString;
  readBy : JsString;
  deviceId : JsString;
  timestamp : Z
}.
End ReadReceipt.

Module Device.
Record t := mk {
  deviceId : JsString;
  userId : JsString;
  deviceName : JsString;
  publicSigningKey : JsString;
  publicAgreementKey : JsString;
  verified : bool;
  createdAt : Z;
  lastSeen : Z
}.
End Device.

(** [map.get(k)] and [map.set(k, v)] on an insertion-ordered map with
    keys of any type. *)
Fixpoint entries_get {K V : Type} `{EqDecision K} (k : K) (l : list (K * V)) : option V :=
  match l with
  | [] => None
  | (k', v) :: rest => if bool_decide (k' = k) then Some v else entries_get k rest
  end.

Fixpoint entries_set {K V : Type} `{EqDecision K} (k : K) (v : V) (l : list (K * V))
    : list (K * V) :=
  match l with
  | [] => [(k, v)]
  | (k', v') :: rest =>
      if bool_decide (k' = k) then (k, v) :: rest else (k', v') :: entries_set k v rest
  end.

(** The maps of [db] that the pipeline and the device manager use;
    [messages], which the receipts iterate, keeps its insertion order. *)
Module Db.
Record t := mk {
  devices : gmap JsString (list Device.t);
  messages : list (option JsString * list Message.t);
  receipts : gmap JsString (list ReadReceipt.t)
}.
Definition set_devices (d : t) (x : gmap JsString (list Device.t)) : t :=
  mk x (messages d) (receipts d).
Definition set_messages (d : t) (x : list (option JsString * list Message.t)) : t :=
  mk (devices d) x (receipts d).
Definition set_receipts (d : t) (x : gmap JsString (list ReadReceipt.t)) : t :=
  mk (devices d) (messages d) x.
End Db.

Module db.

Definition registerDevice (d : Db.t) (userId : JsString) (device : Device.t)
    : Promise Db.t :=
  let devices := default [] (Db.devices d !! userId) in
  Resolved (Db.set_devices d (<[userId := devices ++ [device]]> (Db.devices d))).

Definition storeMessage (d : Db.t) (message : Message.t) : Promise Db.t :=
  let messages := default [] (entries_get (Message.conversationId message) (Db.messages d)) in
  Resolved (Db.set_messages d
              (entries_set (Message.conversationId message) (messages ++ [message])
                 (Db.messages d))).

Definition storeReceipt (d : Db.t) (receipt : ReadReceipt.t) : Promise Db.t :=
  let receipts := default [] (Db.receipts d !! ReadReceipt.messageId receipt) in
  Resolved (Db.set_receipts d
              (<[ReadReceipt.messageId receipt := receipts ++ [receipt]]> (Db.receipts d))).

End db.

(** The first message with the id, over the conversations in insertion
    order, gets the status: the loop of the two receipt handlers. *)
Fixpoint markMessage (messageId : JsString) (status : MessageStatus)
    (entries : list (option JsString * list Message.t))
    : list (option JsString * list Message.t) :=
  match entries with
  | [] => []
  | (conversationId, messages) :: rest =>
      match list_find (fun m => Message.messageId m = messageId) messages with
      | Some (index, message) =>
          (conversationId, <[index := Message.set_status message status]> messages) :: rest
      | None => (conversationId, messages) :: markMessage messageId status rest
      end
  end.

(** ** lib/message-pipeline: validation and the receive path *)

Module PlaintextMessage.
(** [conversationId] and [content] are [None] when the object that
    arrives lacks them ([undefined]), the case the guard of
    [validateMessage] is there for. *)
Record t := mk {
  conversationId : option JsString;
  senderId : JsString;
  senderDeviceId : JsString;
  recipientId : JsString;
  recipientDeviceId : JsString;
  content : option JsString;
  attachmentIds : option (list JsString);
  metadata : option (list (JsString * JsString))
}.
End PlaintextMessage.

(** What [messagePipeline.decryptMessage] hands back for a message. *)
Module DecryptedMessage.
Record t := mk {
  content : JsValue;
  messageId : JsValue;          (* metadata.messageId *)
  originalTimestamp : JsString  (* metadata.originalTimestamp *)
}.
End DecryptedMessage.

(** [!x] for a string that may be absent. *)
Definition falsy (x : option JsString) : bool :=
  match x with
  | None => true
  | Some [] => true
  | Some (_ :: _) => false
  end.

(** [x.length] *)
Definition js_length (x : option JsString) : Promise Z :=
  match x with
  | None => Rejected TypeError
  | Some s => Resolved (Z.of_nat (length s))
  end.

Inductive ProcessedStatus := PsQueued | PsSending | PsSent | PsFailed.

#[export] Instance ProcessedStatus_eq_dec : EqDecision ProcessedStatus.
Proof. solve_decision. Defined.

(** An envelope with the [metadata] of its way through the pipeline. *)
Module ProcessedMessage.
Record t := mk {
  encrypted : EncryptedMessage.t;
  conversationId : option JsString;  (* metadata.conversationId *)
  senderId : JsString;
  recipientId : JsString;
  sessionId : JsString;
  timestamp : Z;
  status : ProcessedStatus
}.
Definition set_status (p : t) (s : ProcessedStatus) : t :=
  mk (encrypted p) (conversationId p) (senderId p) (recipientId p) (sessionId p)
     (timestamp p) s.
End ProcessedMessage.

Module RetryPolicy.
Record t := mk { maxRetries : Z; retryDelayMs : Z; backoffMultiplier : Z }.
End RetryPolicy.

Module PipelineState.
Record t := mk {
  queue : list ProcessedMessage.t;
  activeSessionsMap : gmap JsString SessionState.t;
  retryPolicies : gmap JsString RetryPolicy.t
}.
Definition set_queue (p : t) (q : list ProcessedMessage.t) : t :=
  mk q (activeSessionsMap p) (retryPolicies p).
End PipelineState.

(** What the send path works on: the pipeline object, the database and
    the session store. *)
Module PipelineWorld.
Record t := mk {
  pipeline : PipelineState.t;
  database : Db.t;
  sessionStore : SessionStore
}.
End PipelineWorld.

Module PipelineStats.
Record t := mk {
  queuedMessages : Z;
  pendingMessages : Z;
  failedMessages : Z;
  activeSessions : Z
}.
End PipelineStats.

(** The value of an optional text in an object literal. *)
Definition optional_text (x : option JsString) : JsValue :=
  match x with
  | Some s => JString s
  | None => JUndefined
  end.

Module messagePipeline.

Section MessagePipeline.

(** [JSON.parse], which throws a [SyntaxError] on text that is not JSON,
    and the [toString] method of a parsed value. *)
Variable JSON_parse : JsString -> Promise JsValue.
Variable value_toString : JsValue -> Promise JsString.

(** [v.toString()] *)
Definition call_toString (v : JsValue) : Promise JsString :=
  match v with
  | JUndefined | JNull => Rejected TypeError
  | _ => value_toString v
  end.

Definition validateMessage (message : PlaintextMessage.t) : Promise bool :=
  if falsy (PlaintextMessage.conversationId message)
     || falsy (PlaintextMessage.content message)
  then Resolved false
  else
    len ← js_length (PlaintextMessage.content message);
    if len >? 65536 then Resolved false (* 64KB limit *)
    else Resolved true.

(** [decryptMessage]: the session object is written in place, so the
    session as the call leaves it is returned with the result; [None]
    is the [null] of the source.  Everything runs inside one [try]
    whose [catch] returns [null]: an exception keeps the writes that
    came before it. *)
Definition decryptMessage
    (encrypted : EncryptedMessage.t) (session : SessionState.t) (now : Z)
    : Promise (option DecryptedMessage.t * SessionState.t) :=
  if EncryptedMessage.messageCounter encrypted
       <=? SessionKey.messageCounter (SessionState.sessionKey session)
  then Resolved (None, session)
  else
    match (decrypted ← cryptoUtils.decryptMessage encrypted (SessionState.sessionKey session);
           JSON_parse decrypted) with
    | Rejected _ => Resolved (None, session)
    | Resolved message =>
        let session1 :=
          SessionState.set_sessionKey session
            (SessionKey.set_messageCounter (SessionState.sessionKey session)
               (EncryptedMessage.messageCounter encrypted)) in
        let session2 := SessionState.set_lastUpdated session1 now in
        match (content ← get_property message (js "content");
               messageId ← get_property message (js "messageId");
               timestamp ← get_property message (js "timestamp");
               originalTimestamp ← call_toString timestamp;
               mret (DecryptedMessage.mk content messageId originalTimestamp)) with
        | Rejected _ => Resolved (None, session2)
        | Resolved result => Resolved (Some result, session2)
        end
    end.

Definition processIncomingMessage
    (encrypted : EncryptedMessage.t) (session : SessionState.t) (now : Z)
    : Promise (option DecryptedMessage.t * SessionState.t) :=
  decryptMessage encrypted session now.

(** A session that receives a list of envelopes one after the other,
    each with the clock reading of its call: the results in order and
    the session at the end. *)
Fixpoint receiveAll (session : SessionState.t) (incoming : list (EncryptedMessage.t * Z))
    : list (EncryptedMessage.t * option DecryptedMessage.t) * SessionState.t :=
  match incoming with
  | [] => ([], session)
  | (encrypted, now) :: rest =>
      match decryptMessage encrypted session now with
      | Resolved (result, session') =>
          let (results, final) := receiveAll session' rest in
          ((encrypted, result) :: results, final)
      | Rejected _ => receiveAll session rest
      end
  end.


(** [JSON.stringify] *)
Variable JSON_stringify : JsValue -> JsString.


(** Step 2: Establish or retrieve session *)
Definition ensureSessionEstablished
    (sessionStore : SessionStore)
    (senderId senderDeviceId recipientId recipientDeviceId : JsString)
    (senderDeviceKeys : DeviceKeys.t) : Promise (option SessionState.t) :=
  session ← sessionManager.getOrCreateSession sessionStore
              senderId senderDeviceId recipientId recipientDeviceId;
  match session with
  | None => Resolved None
  | Some session => Resolved (Some session)
  end.

(** The object that [prepareMessageForEncryption] serialises. *)
Definition payloadObject (plaintext : PlaintextMessage.t) (now : Z) (uuid : JsString)
    : JsValue :=
  JObject
    [(js "type", JString (js "message"));
     (js "content", optional_text (PlaintextMessage.content plaintext));
     (js "attachmentIds",
      JArray (map JString (default [] (PlaintextMessage.attachmentIds plaintext))));
     (js "metadata",
      JObject (map (fun kv => (fst kv, JString (snd kv)))
                 (default [] (PlaintextMessage.metadata plaintext))));
     (js "timestamp", JNumber (inject_Z now));
     (js "messageId", JString uuid)].

(** Step 3: Prepare message for encryption; the result is the payload
    text and the metadata ([conversationId], [originalTimestamp]). *)
Definition prepareMessageForEncryption
    (plaintext : PlaintextMessage.t) (sessionKey : SessionKey.t)
    (now : Z) (uuid : JsString)
    : Promise (JsString * (option JsString * JsString)) :=
  Resolved (JSON_stringify (payloadObject plaintext now uuid),
            (PlaintextMessage.conversationId plaintext, decimal now)).

(** Step 4: Encrypt message using session key; the session object is
    written in place and returned as the call leaves it; [None] is the
    [null] of the [catch]. *)
Definition encryptMessage
    (plaintext : PlaintextMessage.t) (session : SessionState.t)
    (now : Z) (uuid rndNonce : JsString)
    : Promise (option EncryptedMessage.t * SessionState.t) :=
  match (prepared ← prepareMessageForEncryption plaintext
                      (SessionState.sessionKey session) now uuid;
         newChainKey ← cryptoUtils.evolveChainKey
                         (SessionKey.chainKey (SessionState.sessionKey session)) now;
         mret (fst prepared, newChainKey)) with
  | Rejected _ => Resolved (None, session)
  | Resolved (payload, newChainKey) =>
      let session1 :=
        SessionState.set_sessionKey session
          (SessionKey.set_chainKey (SessionState.sessionKey session) newChainKey) in
      match cryptoUtils.encryptMessage payload (SessionState.sessionKey session1)
              (PlaintextMessage.senderId plaintext)
              (PlaintextMessage.recipientId plaintext)
              (PlaintextMessage.senderDeviceId plaintext)
              (PlaintextMessage.recipientDeviceId plaintext) now rndNonce with
      | Rejected _ => Resolved (None, session1)
      | Resolved encrypted =>
          let session2 :=
            SessionState.set_sessionKey session1
              (SessionKey.set_messageCounter (SessionState.sessionKey session1)
                 (SessionKey.messageCounter (SessionState.sessionKey session1) + 1)) in
          Resolved (Some encrypted, session2)
      end
  end.

(** Step 5: Queue message for delivery; [uuid] is the id drawn for the
    stored message. *)
Definition queueMessageForDelivery
    (pipeline : PipelineState.t) (database : Db.t)
    (plaintext : PlaintextMessage.t) (encrypted : EncryptedMessage.t)
    (session : SessionState.t) (now : Z) (uuid : JsString)
    : Promise (ProcessedMessage.t * PipelineState.t * Db.t) :=
  let processed :=
    ProcessedMessage.mk encrypted
      (PlaintextMessage.conversationId plaintext)
      (PlaintextMessage.senderId plaintext)
      (PlaintextMessage.recipientId plaintext)
      (SessionState.sessionId session) now PsQueued in
  let pipeline1 :=
    PipelineState.set_queue pipeline (PipelineState.queue pipeline ++ [processed]) in
  let dbMessage :=
    Message.mk uuid
      (PlaintextMessage.conversationId plaintext)
      (PlaintextMessage.senderDeviceId plaintext)
      (PlaintextMessage.senderId plaintext)
      (EncryptedMessage.ciphertext encrypted)
      (EncryptedMessage.nonce encrypted)
      (EncryptedMessage.timestamp encrypted)
      (EncryptedMessage.messageCounter encrypted)
      (EncryptedMessage.headerSecret encrypted)
      MsPending now in
  database1 ← db.storeMessage database dbMessage;
  Resolved (processed, pipeline1, database1).

(** Step 6: Send message (simulated transmission).  [position] is
    [pipeline.queue.indexOf(processed)]: where this very object sits in
    the queue, [None] when it is not in it.  The object is written in
    place: the result holds it as the call leaves it. *)
Definition sendMessage
    (pipeline : PipelineState.t) (processed : ProcessedMessage.t)
    (position : option nat)
    : Promise (bool * ProcessedMessage.t * PipelineState.t) :=
  let processed1 := ProcessedMessage.set_status processed PsSending in
  let processed2 := ProcessedMessage.set_status processed1 PsSent in
  match position with
  | Some index =>
      Resolved (true, processed2,
                PipelineState.set_queue pipeline
                  (delete index (PipelineState.queue pipeline)))
  | None => Resolved (true, processed2, pipeline)
  end.

(** Step 8: Handle delivery receipts *)
Definition processDeliveryReceipt
    (pipeline : PipelineState.t) (database : Db.t)
    (messageId recipientId recipientDeviceId : JsString) : Promise Db.t :=
  Resolved (Db.set_messages database
              (markMessage messageId MsDelivered (Db.messages database))).

(** Step 9: Handle read receipts *)
Definition processReadReceipt
    (database : Db.t) (messageId readBy deviceId : JsString) (now : Z)
    : Promise Db.t :=
  database1 ← db.storeReceipt database (ReadReceipt.mk messageId readBy deviceId now);
  Resolved (Db.set_messages database1
              (markMessage messageId MsRead (Db.messages database1))).

(** Full pipeline: plaintext -> encrypted -> queued -> sent.  The
    session is the object of the store, so what [encryptMessage] writes
    to it is written to the store; [uuidPayload] and [uuidStored] are the
    two ids drawn.  [None] is the [null] of the source. *)
Definition processOutgoingMessage
    (w : PipelineWorld.t) (plaintext : PlaintextMessage.t)
    (senderDeviceKeys : DeviceKeys.t)
    (now : Z) (uuidPayload uuidStored rndNonce : JsString)
    : Promise (option ProcessedMessage.t * PipelineWorld.t) :=
  match validateMessage plaintext with
  | Rejected _ => Resolved (None, w)
  | Resolved false => Resolved (None, w)
  | Resolved true =>
      match ensureSessionEstablished (PipelineWorld.sessionStore w)
              (PlaintextMessage.senderId plaintext)
              (PlaintextMessage.senderDeviceId plaintext)
              (PlaintextMessage.recipientId plaintext)
              (PlaintextMessage.recipientDeviceId plaintext) senderDeviceKeys with
      | Rejected _ => Resolved (None, w)
      | Resolved None => Resolved (None, w)
      | Resolved (Some session) =>
          let sessionId :=
            sessionManager.sessionIdOf
              (PlaintextMessage.senderId plaintext)
              (PlaintextMessage.senderDeviceId plaintext)
              (PlaintextMessage.recipientId plaintext)
              (PlaintextMessage.recipientDeviceId plaintext) in
          match encryptMessage plaintext session now uuidPayload rndNonce with
          | Rejected _ => Resolved (None, w)
          | Resolved (encrypted, session1) =>
              let w1 :=
                PipelineWorld.mk (PipelineWorld.pipeline w) (PipelineWorld.database w)
                  (<[sessionId := session1]> (PipelineWorld.sessionStore w)) in
              match encrypted with
              | None => Resolved (None, w1)
              | Some encrypted =>
                  match queueMessageForDelivery (PipelineWorld.pipeline w1)
                          (PipelineWorld.database w1) plaintext encrypted session1
                          now uuidStored with
                  | Rejected _ => Resolved (None, w1)
                  | Resolved (processed, pipeline1, database1) =>
                      match sendMessage pipeline1 processed
                              (Some (length (PipelineState.queue
                                               (PipelineWorld.pipeline w1)))) with
                      | Rejected _ =>
                          Resolved (None,
                                    PipelineWorld.mk pipeline1 database1
                                      (PipelineWorld.sessionStore w1))
                      | Resolved (_, processed1, pipeline2) =>
                          Resolved (Some processed1,
                                    PipelineWorld.mk pipeline2 database1
                                      (PipelineWorld.sessionStore w1))
                      end
                  end
              end
          end
      end
  end.

(** Get pipeline statistics *)
Definition getStats (pipeline : PipelineState.t) : PipelineStats.t :=
  PipelineStats.mk
    (Z.of_nat (length (PipelineState.queue pipeline)))
    (Z.of_nat (length (filter (fun m => ProcessedMessage.status m = PsQueued)
                         (PipelineState.queue pipeline))))
    (Z.of_nat (length (filter (fun m => ProcessedMessage.status m = PsFailed)
                         (PipelineState.queue pipeline))))
    (Z.of_nat (size (PipelineState.activeSessionsMap pipeline))).

End MessagePipeline.

End messagePipeline.


(** ** lib/offline-queue: the delivery queue *)

Inductive QueueStatus := Pending | Sending | Sent | Failed | Delivered.

#[export] Instance QueueStatus_eq_dec : EqDecision QueueStatus.
Proof. solve_decision. Defined.

Module QueuedMessage.
Record t := mk {
  id : JsString;
  userId : JsString;
  conversationId : JsString;
  content : JsString;
  encrypted : JsString;
  sessionId : JsString;
  timestamp : Z;
  attempts : Z;
  maxRetries : Z;
  nextRetryTime : Q;
  status : QueueStatus;
  error : option JsString;
  createdAt : Z;
  updatedAt : Z
}.
Definition set_attempts (m : t) (n : Z) : t :=
  mk (id m) (userId m) (conversationId m) (content m) (encrypted m) (sessionId m)
     (timestamp m) n (maxRetries m) (nextRetryTime m) (status m) (error m)
     (createdAt m) (updatedAt m).
Definition set_nextRetryTime (m : t) (q : Q) : t :=
  mk (id m) (userId m) (conversationId m) (content m) (encrypted m) (sessionId m)
     (timestamp m) (attempts m) (maxRetries m) q (status m) (error m)
     (createdAt m) (updatedAt m).
Definition set_status (m : t) (s : QueueStatus) : t :=
  mk (id m) (userId m) (conversationId m) (content m) (encrypted m) (sessionId m)
     (timestamp m) (attempts m) (maxRetries m) (nextRetryTime m) s (error m)
     (createdAt m) (updatedAt m).
Definition set_error (m : t) (e : option JsString) : t :=
  mk (id m) (userId m) (conversationId m) (content m) (encrypted m) (sessionId m)
     (timestamp m) (attempts m) (maxRetries m) (nextRetryTime m) (status m) e
     (createdAt m) (updatedAt m).
Definition set_updatedAt (m : t) (n : Z) : t :=
  mk (id m) (userId m) (conversationId m) (content m) (encrypted m) (sessionId m)
     (timestamp m) (attempts m) (maxRetries m) (nextRetryTime m) (status m) (error m)
     (createdAt m) n.
End QueuedMessage.

Inductive DeliveryState := DsPending | DsSent | DsDelivered | DsFailed.

Module DeliveryStatus.
Record t := mk {
  messageId : JsString;
  status : DeliveryState;
  sentAt : option Z;
  deliveredAt : option Z;
  error : option JsString;
  retries : Z
}.
End DeliveryStatus.

(** [messages] is a [Map] that the code iterates, so it keeps its entries
    in insertion order, one entry per key. *)
Module OfflineQueueState.
Record t := mk {
  messages : list (JsString * list QueuedMessage.t);
  deliveryStatus : gmap JsString DeliveryStatus.t;
  isOnline : bool;
  syncInProgress : bool;
  lastSyncTime : Z
}.
Definition set_messages (s : t) (m : list (JsString * list QueuedMessage.t)) : t :=
  mk m (deliveryStatus s) (isOnline s) (syncInProgress s) (lastSyncTime s).
Definition set_deliveryStatus (s : t) (d : gmap JsString DeliveryStatus.t) : t :=
  mk (messages s) d (isOnline s) (syncInProgress s) (lastSyncTime s).
Definition set_syncInProgress (s : t) (b : bool) : t :=
  mk (messages s) (deliveryStatus s) (isOnline s) b (lastSyncTime s).
Definition set_lastSyncTime (s : t) (n : Z) : t :=
  mk (messages s) (deliveryStatus s) (isOnline s) (syncInProgress s) n.
End OfflineQueueState.

(** What [saveToStorage] serialises under the key [offline_queue_v1]. *)
Module StoredQueue.
Record t := mk {
  messages : list (JsString * list QueuedMessage.t);
  deliveryStatus : gmap JsString DeliveryStatus.t;
  lastSyncTime : Z
}.
End StoredQueue.

(** The queue manager and its surroundings: [localStorage] is [None] where
    the global is not defined, and otherwise holds the stored item, if any. *)
Module World.
Record t := mk {
  state : OfflineQueueState.t;
  localStorage : option (option StoredQueue.t)
}.
Definition set_state (w : t) (s : OfflineQueueState.t) : t := mk s (localStorage w).
End World.

(** The inputs of one call of [processMessage]: the clock when the call
    starts, the clock when the simulated network request has settled, and
    the draws of [Math.random()] that decide the failure and the jitter. *)
Module Env.
Record t := mk {
  now : Z;
  later : Z;
  failureDraw : Q;
  jitterDraw : Q
}.
End Env.

(** [map.set(k, v)] on an insertion-ordered map. *)
Fixpoint assoc_set {V : Type} (k : JsString) (v : V) (l : list (JsString * V))
    : list (JsString * V) :=
  match l with
  | [] => [(k, v)]
  | (k', v') :: rest =>
      if bool_decide (k' = k) then (k, v) :: rest else (k', v') :: assoc_set k v rest
  end.

(** Exponential backoff: 1s, 2s, 4s, 8s, 16s, 32s, 60s (capped);
    [random] is the draw of [Math.random()]. *)
Definition getRetryDelay (attemptNumber : Z) (random : Q) : Q :=
  let delay := Qmin (1000 * 2 ^ attemptNumber) 60000 in
  (delay + random * 1000)%Q. (* Add jitter *)

Module QueueStats.
Record t := mk {
  total : Z;
  pending : Z;
  sending : Z;
  sent : Z;
  delivered : Z;
  failed : Z;
  isOnline : bool;
  syncInProgress : bool;
  lastSyncTime : Z
}.
End QueueStats.

(** [map.delete(k)] on an insertion-ordered map. *)
Fixpoint assoc_delete {V : Type} (k : JsString) (l : list (JsString * V))
    : list (JsString * V) :=
  match l with
  | [] => []
  | (k', v) :: rest =>
      if bool_decide (k' = k) then rest else (k', v) :: assoc_delete k rest
  end.

Module offlineQueueManager.

Definition saveToStorage (w : World.t) : World.t :=
  match World.localStorage w with
  | None => w
  | Some _ =>
      let s := World.state w in
      World.mk s (Some (Some (StoredQueue.mk (OfflineQueueState.messages s)
                                (OfflineQueueState.deliveryStatus s)
                                (OfflineQueueState.lastSyncTime s))))
  end.

(** A write to a field of the message object at [userMessages[index]]
    of the list held under [userId]. *)
Definition writeMessage (w : World.t) (userId : JsString) (index : nat)
    (message : QueuedMessage.t) : World.t :=
  let s := World.state w in
  match assoc_get userId (OfflineQueueState.messages s) with
  | None => w
  | Some userMessages =>
      World.set_state w
        (OfflineQueueState.set_messages s
           (assoc_set userId (<[index := message]> userMessages)
              (OfflineQueueState.messages s)))
  end.

(** A write to the fields of the status object under [messageId], when
    there is one. *)
Definition writeStatus (w : World.t) (messageId : JsString)
    (f : DeliveryStatus.t -> DeliveryStatus.t) : World.t :=
  let s := World.state w in
  match OfflineQueueState.deliveryStatus s !! messageId with
  | None => w
  | Some status =>
      World.set_state w
        (OfflineQueueState.set_deliveryStatus s
           (<[messageId := f status]> (OfflineQueueState.deliveryStatus s)))
  end.

(** The simulated network request: it rejects on a draw below 0.1 as
    long as attempts remain. *)
Definition networkRequest (env : Env.t) (message : QueuedMessage.t) : Promise bool :=
  if negb (Qle_bool (1 # 10) (Env.failureDraw env))
     && (QueuedMessage.attempts message <? QueuedMessage.maxRetries message)
  then Rejected (Error (js "Network timeout"))
  else Resolved true.

Definition processMessage (env : Env.t) (w : World.t) (userId messageId : JsString)
    : Promise (bool * World.t) :=
  match assoc_get userId (OfflineQueueState.messages (World.state w)) with
  | None => Resolved (false, w)
  | Some userMessages =>
      match list_find (fun m => QueuedMessage.id m = messageId) userMessages with
      | None => Resolved (false, w)
      | Some (messageIndex, message) =>
          if bool_decide (QueuedMessage.status message = Sent
                          ∨ QueuedMessage.status message = Delivered)
          then Resolved (true, w)
          (* Check if it's time to retry *)
          else if negb (Qle_bool (QueuedMessage.nextRetryTime message)
                                 (inject_Z (Env.now env)))
          then Resolved (false, w)
          (* Max retries exceeded *)
          else if QueuedMessage.attempts message >=? QueuedMessage.maxRetries message
          then
            let message1 := QueuedMessage.set_status message Failed in
            let message2 :=
              QueuedMessage.set_error message1 (Some (js "Max retries exceeded")) in
            let message3 := QueuedMessage.set_updatedAt message2 (Env.now env) in
            Resolved (false, saveToStorage (writeMessage w userId messageIndex message3))
          else
            (* Simulate sending message *)
            let message1 :=
              QueuedMessage.set_attempts message (QueuedMessage.attempts message + 1) in
            let message2 := QueuedMessage.set_updatedAt message1 (Env.now env) in
            match networkRequest env message2 with
            | Resolved _ =>
                let message3 := QueuedMessage.set_status message2 Sent in
                let message4 := QueuedMessage.set_updatedAt message3 (Env.later env) in
                let w1 := writeMessage w userId messageIndex message4 in
                let w2 :=
                  writeStatus w1 (QueuedMessage.id message4) (fun status =>
                    DeliveryStatus.mk (DeliveryStatus.messageId status) DsSent
                      (Some (Env.later env)) (DeliveryStatus.deliveredAt status)
                      (DeliveryStatus.error status) (QueuedMessage.attempts message4)) in
                Resolved (true, saveToStorage w2)
            | Rejected error =>
                let nextRetry :=
                  getRetryDelay (QueuedMessage.attempts message2) (Env.jitterDraw env) in
                let message3 :=
                  QueuedMessage.set_nextRetryTime message2
                    (inject_Z (Env.later env) + nextRetry)%Q in
                let message4 :=
                  QueuedMessage.set_error message3
                    (Some (match error with
                           | Error text => text
                           | _ => js "Unknown error"
                           end)) in
                let message5 := QueuedMessage.set_updatedAt message4 (Env.later env) in
                let w1 := writeMessage w userId messageIndex message5 in
                let w2 :=
                  writeStatus w1 (QueuedMessage.id message5) (fun status =>
                    DeliveryStatus.mk (DeliveryStatus.messageId status)
                      (DeliveryStatus.status status) (DeliveryStatus.sentAt status)
                      (DeliveryStatus.deliveredAt status) (QueuedMessage.error message5)
                      (QueuedMessage.attempts message5)) in
                Resolved (false, saveToStorage w2)
            end
      end
  end.

(** [queueMessage]; [uuid] is the id that [generateUUID()] returns. *)
Definition queueMessage (env : Env.t) (w : World.t)
    (userId conversationId content encrypted sessionId : JsString) (uuid : JsString)
    : Promise (QueuedMessage.t * World.t) :=
  let message :=
    QueuedMessage.mk uuid userId conversationId content encrypted sessionId
      (Env.now env) 0 5 (inject_Z (Env.now env)) Pending None
      (Env.now env) (Env.now env) in
  let s := World.state w in
  let userMessages :=
    match assoc_get userId (OfflineQueueState.messages s) with
    | Some existing => existing
    | None => []
    end in
  let s1 :=
    OfflineQueueState.set_messages s
      (assoc_set userId (userMessages ++ [message]) (OfflineQueueState.messages s)) in
  let s2 :=
    OfflineQueueState.set_deliveryStatus s1
      (<[QueuedMessage.id message :=
           DeliveryStatus.mk (QueuedMessage.id message) DsPending None None None 0]>
         (OfflineQueueState.deliveryStatus s1)) in
  let w1 := saveToStorage (World.set_state w s2) in
  if OfflineQueueState.isOnline (World.state w1)
  then
    r ← processMessage env w1 userId (QueuedMessage.id message);
    let w2 := snd r in
    mret (match assoc_get userId (OfflineQueueState.messages (World.state w2)) with
          | Some l => match last l with Some m => m | None => message end
          | None => message
          end, w2)
  else Resolved (message, w1).

(** The loop of [retryMessage] over the entries of [messages]. *)
Fixpoint retryLoop (env : Env.t) (w : World.t) (messageId : JsString)
    (entries : list (JsString * list QueuedMessage.t)) : Promise (bool * World.t) :=
  match entries with
  | [] => Resolved (false, w)
  | (userId, userMessages) :: rest =>
      match list_find (fun m => QueuedMessage.id m = messageId) userMessages with
      | Some (index, message) =>
          let message1 := QueuedMessage.set_status message Pending in
          let message2 :=
            QueuedMessage.set_nextRetryTime message1 (inject_Z (Env.now env)) in
          let message3 := QueuedMessage.set_attempts message2 0 in
          let message4 := QueuedMessage.set_error message3 None in
          processMessage env (writeMessage w userId index message4) userId messageId
      | None => retryLoop env w messageId rest
      end
  end.

(** Retry specific failed message *)
Definition retryMessage (env : Env.t) (w : World.t) (messageId : JsString)
    : Promise (bool * World.t) :=
  retryLoop env w messageId (OfflineQueueState.messages (World.state w)).


(** The loop of [markDelivered] over the lists of [messages]: the first
    entry with the id, in insertion order, is written in place; [None]
    when no list holds the id. *)
Fixpoint markDeliveredLoop (messageId : JsString) (now : Z)
    (entries : list (JsString * list QueuedMessage.t))
    : option (list (JsString * list QueuedMessage.t)) :=
  match entries with
  | [] => None
  | (userId, userMessages) :: rest =>
      match list_find (fun m => QueuedMessage.id m = messageId) userMessages with
      | Some (index, message) =>
          let message1 := QueuedMessage.set_status message Delivered in
          let message2 := QueuedMessage.set_updatedAt message1 now in
          Some ((userId, <[index := message2]> userMessages) :: rest)
      | None =>
          match markDeliveredLoop messageId now rest with
          | Some rest' => Some ((userId, userMessages) :: rest')
          | None => None
          end
      end
  end.

(** Mark message as delivered *)
Definition markDelivered (w : World.t) (messageId : JsString) (now : Z)
    : Promise World.t :=
  match markDeliveredLoop messageId now
          (OfflineQueueState.messages (World.state w)) with
  | None => Resolved w
  | Some entries =>
      let w1 := World.set_state w (OfflineQueueState.set_messages (World.state w) entries) in
      let w2 :=
        writeStatus w1 messageId (fun status =>
          DeliveryStatus.mk (DeliveryStatus.messageId status) DsDelivered
            (DeliveryStatus.sentAt status) (Some now)
            (DeliveryStatus.error status) (DeliveryStatus.retries status)) in
      Resolved (saveToStorage w2)
  end.

(** Get pending messages for user *)
Definition getPendingMessages (w : World.t) (userId : JsString) : list QueuedMessage.t :=
  filter (fun m => QueuedMessage.status m = Pending \/ QueuedMessage.status m = Sending)
    (default [] (assoc_get userId (OfflineQueueState.messages (World.state w)))).

(** Get all messages for conversation *)
Definition getConversationMessages (w : World.t) (userId conversationId : JsString)
    : list QueuedMessage.t :=
  filter (fun m => QueuedMessage.conversationId m = conversationId)
    (default [] (assoc_get userId (OfflineQueueState.messages (World.state w)))).

(** Get delivery status for message *)
Definition getDeliveryStatus (w : World.t) (messageId : JsString)
    : option DeliveryStatus.t :=
  OfflineQueueState.deliveryStatus (World.state w) !! messageId.

(** The number of messages of a list with a status. *)
Definition countStatus (status : QueueStatus) (messages : list QueuedMessage.t) : Z :=
  Z.of_nat (length (filter (fun m => QueuedMessage.status m = status) messages)).

(** Get queue statistics; without a user id (or with the empty one) the
    messages of all users are counted. *)
Definition getQueueStats (w : World.t) (userId : option JsString) : QueueStats.t :=
  let s := World.state w in
  let messages :=
    if falsy userId
    then concat (map snd (OfflineQueueState.messages s))
    else default [] (assoc_get (template userId) (OfflineQueueState.messages s)) in
  QueueStats.mk (Z.of_nat (length messages))
    (countStatus Pending messages) (countStatus Sending messages)
    (countStatus Sent messages) (countStatus Delivered messages)
    (countStatus Failed messages)
    (OfflineQueueState.isOnline s) (OfflineQueueState.syncInProgress s)
    (OfflineQueueState.lastSyncTime s).

(** The inner loop of [processPendingMessages] over the list of one
    user: [remaining] elements are still to visit, [index] is the
    position of the next one, and [envs calls] gives the inputs of the
    next call of [processMessage]; the number of calls made comes back
    with the queue. *)
Fixpoint drainMessages (envs : nat -> Env.t) (uid : JsString)
    (remaining index calls : nat) (w : World.t) : Promise (nat * World.t) :=
  match remaining with
  | O => Resolved (calls, w)
  | S remaining' =>
      match default [] (assoc_get uid (OfflineQueueState.messages (World.state w)))
              !! index with
      | None => Resolved (calls, w)
      | Some message =>
          if bool_decide (QueuedMessage.status message = Pending
                          ∨ QueuedMessage.status message = Sending)
          then
            r ← processMessage (envs calls) w uid (QueuedMessage.id message);
            drainMessages envs uid remaining' (S index) (S calls) (snd r)
          else drainMessages envs uid remaining' (S index) calls w
      end
  end.

(** The outer loop, over the users to process. *)
Fixpoint drainUsers (envs : nat -> Env.t) (users : list JsString)
    (calls : nat) (w : World.t) : Promise (nat * World.t) :=
  match users with
  | [] => Resolved (calls, w)
  | uid :: rest =>
      r ← drainMessages envs uid
            (length (default [] (assoc_get uid
                                   (OfflineQueueState.messages (World.state w)))))
            0 calls w;
      drainUsers envs rest (fst r) (snd r)
  end.

(** Process all pending messages for a user (for all users without a
    user id); [now] is the clock at the end of the run. *)
Definition processPendingMessages (envs : nat -> Env.t) (now : Z)
    (w : World.t) (userId : option JsString) : Promise World.t :=
  if OfflineQueueState.syncInProgress (World.state w) then Resolved w
  else if negb (OfflineQueueState.isOnline (World.state w)) then Resolved w
  else
    let w1 :=
      World.set_state w (OfflineQueueState.set_syncInProgress (World.state w) true) in
    let usersToProcess :=
      if falsy userId
      then map fst (OfflineQueueState.messages (World.state w1))
      else [template userId] in
    r ← drainUsers envs usersToProcess 0 w1;
    let w2 := snd r in
    let w3 :=
      World.set_state w2 (OfflineQueueState.set_lastSyncTime (World.state w2) now) in
    let w4 := saveToStorage w3 in
    Resolved (World.set_state w4
                (OfflineQueueState.set_syncInProgress (World.state w4) false)).

(** Load queue from localStorage.  The stored item is kept as the data
    it serialises, so the text always parses. *)
Definition loadFromStorage (w : World.t) : World.t :=
  match World.localStorage w with
  | None => w
  | Some None => w
  | Some (Some data) =>
      let s := World.state w in
      World.set_state w
        (OfflineQueueState.mk
           (foldl (fun acc item => assoc_set (fst item) (snd item) acc) []
              (StoredQueue.messages data))
           (StoredQueue.deliveryStatus data)
           (OfflineQueueState.isOnline s) (OfflineQueueState.syncInProgress s)
           (StoredQueue.lastSyncTime data))
  end.

(** Clear all queued messages (those of one user with a user id). *)
Definition clearQueue (w : World.t) (userId : option JsString) : Promise World.t :=
  let s := World.state w in
  if falsy userId
  then
    Resolved (saveToStorage
      (World.set_state w
         (OfflineQueueState.set_deliveryStatus (OfflineQueueState.set_messages s []) ∅)))
  else
    Resolved (saveToStorage
      (World.set_state w
         (OfflineQueueState.set_messages s
            (assoc_delete (template userId) (OfflineQueueState.messages s))))).

End offlineQueueManager.

(** ** lib/device-manager: the device registry *)

Inductive DeviceType := mobile | desktop | web | tablet.

Definition deviceTypeText (t : DeviceType) : JsString :=
  match t with
  | mobile => js "mobile"
  | desktop => js "desktop"
  | web => js "web"
  | tablet => js "tablet"
  end.

Module DeviceInfo.
Record t := mk {
  deviceId : JsString;
  userId : JsString;
  deviceName : JsString;
  deviceType : DeviceType;
  publicSigningKey : JsString;
  publicAgreementKey : JsString;
  deviceFingerprint : JsString;
  verified : bool;
  trustedAt : option Z;
  createdAt : Z;
  lastSeen : Z;
  isCurrentDevice : bool
}.
Definition set_trust (d : t) (v : bool) (at_ : option Z) : t :=
  mk (deviceId d) (userId d) (deviceName d) (deviceType d) (publicSigningKey d)
     (publicAgreementKey d) (deviceFingerprint d) v at_ (createdAt d) (lastSeen d)
     (isCurrentDevice d).
Definition set_lastSeen (d : t) (n : Z) : t :=
  mk (deviceId d) (userId d) (deviceName d) (deviceType d) (publicSigningKey d)
     (publicAgreementKey d) (deviceFingerprint d) (verified d) (trustedAt d)
     (createdAt d) n (isCurrentDevice d).
Definition set_publicKeys (d : t) (signing agreement : JsString) : t :=
  mk (deviceId d) (userId d) (deviceName d) (deviceType d) signing agreement
     (deviceFingerprint d) (verified d) (trustedAt d) (createdAt d) (lastSeen d)
     (isCurrentDevice d).
End DeviceInfo.

Inductive SyncAction := device_added | device_verified | device_removed | keys_rotated.

Definition syncActionText (a : SyncAction) : JsString :=
  match a with
  | device_added => js "device-added"
  | device_verified => js "device-verified"
  | device_removed => js "device-removed"
  | keys_rotated => js "keys-rotated"
  end.

Module DeviceSync.
Record t := mk {
  syncId : JsString;
  deviceId : JsString;
  userId : JsString;
  action : SyncAction;
  payload : list (JsString * JsValue);
  timestamp : Z;
  signature : JsString
}.
End DeviceSync.

Module KeyRotationSchedule.
Record t := mk {
  deviceId : JsString;
  lastRotation : Z;
  nextRotation : Z;
  rotationIntervalMs : Z
}.
End KeyRotationSchedule.

(** The three module-level maps of the device manager, and the database.
    [deviceRegistry], which [getDevice] iterates, keeps its insertion
    order. *)
Module DeviceWorld.
Record t := mk {
  deviceRegistry : list (JsString * list DeviceInfo.t);
  deviceSyncQueue : gmap JsString (list DeviceSync.t);
  keyRotationSchedules : gmap JsString KeyRotationSchedule.t;
  database : Db.t
}.
Definition set_deviceRegistry (w : t) (r : list (JsString * list DeviceInfo.t)) : t :=
  mk r (deviceSyncQueue w) (keyRotationSchedules w) (database w).
Definition set_deviceSyncQueue (w : t) (q : gmap JsString (list DeviceSync.t)) : t :=
  mk (deviceRegistry w) q (keyRotationSchedules w) (database w).
Definition set_keyRotationSchedules (w : t) (k : gmap JsString KeyRotationSchedule.t) : t :=
  mk (deviceRegistry w) (deviceSyncQueue w) k (database w).
Definition set_database (w : t) (d : Db.t) : t :=
  mk (deviceRegistry w) (deviceSyncQueue w) (keyRotationSchedules w) d.
End DeviceWorld.

Module DeviceSyncStats.
Record t := mk {
  totalDevices : Z;
  verifiedDevices : Z;
  unverifiedDevices : Z;
  onlineDevices : Z;
  pendingSyncEvents : Z;
  devicesRequiringRotation : Z
}.
End DeviceSyncStats.

(** The first device with the id, over the users in insertion order. *)
Fixpoint findDevice (deviceId : JsString) (entries : list (JsString * list DeviceInfo.t))
    : option DeviceInfo.t :=
  match entries with
  | [] => None
  | (_, devices) :: rest =>
      match list_find (fun d => DeviceInfo.deviceId d = deviceId) devices with
      | Some (_, device) => Some device
      | None => findDevice deviceId rest
      end
  end.

(** A write to that device, in place; [None] when there is none. *)
Fixpoint updateDevice (deviceId : JsString) (f : DeviceInfo.t -> DeviceInfo.t)
    (entries : list (JsString * list DeviceInfo.t))
    : option (list (JsString * list DeviceInfo.t)) :=
  match entries with
  | [] => None
  | (userId, devices) :: rest =>
      match list_find (fun d => DeviceInfo.deviceId d = deviceId) devices with
      | Some (index, device) => Some ((userId, <[index := f device]> devices) :: rest)
      | None =>
          match updateDevice deviceId f rest with
          | Some rest' => Some ((userId, devices) :: rest')
          | None => None
          end
      end
  end.

(** 30 days, the default rotation interval. *)
Definition defaultRotationIntervalMs : Z := 30 * 24 * 60 * 60 * 1000.

Module deviceManager.

(** Generate device fingerprint (for manual verification) *)
Definition generateDeviceFingerprint (deviceKeys : DeviceKeys.t) : Promise JsString :=
  let fingerprintData :=
    KeyPair.publicKey (DeviceKeys.signingKeys deviceKeys) ++ js ":"
      ++ KeyPair.publicKey (DeviceKeys.agreementKeys deviceKeys) in
  Resolved (toUpperCase (take 16 (base64 fingerprintData))).

(** Queue a sync event for other devices; [uuid] is the id drawn. *)
Definition queueDeviceSync (w : DeviceWorld.t)
    (userId sourceDeviceId : JsString) (action : SyncAction)
    (payload : list (JsString * JsValue)) (uuid : JsString) (now : Z)
    : Promise DeviceWorld.t :=
  let syncEvent :=
    DeviceSync.mk uuid sourceDeviceId userId action payload now
      (base64 (syncActionText action ++ js ":" ++ sourceDeviceId)) in
  let userSyncQueue := default [] (DeviceWorld.deviceSyncQueue w !! userId) in
  Resolved (DeviceWorld.set_deviceSyncQueue w
              (<[userId := userSyncQueue ++ [syncEvent]]> (DeviceWorld.deviceSyncQueue w))).

(** Schedule key rotation for a device *)
Definition scheduleKeyRotation (w : DeviceWorld.t) (deviceId : JsString)
    (rotationIntervalMs : Z) (now : Z) : Promise DeviceWorld.t :=
  let schedule :=
    KeyRotationSchedule.mk deviceId now (now + rotationIntervalMs) rotationIntervalMs in
  Resolved (DeviceWorld.set_keyRotationSchedules w
              (<[deviceId := schedule]> (DeviceWorld.keyRotationSchedules w))).

(** Check if device needs key rotation *)
Definition needsKeyRotation (w : DeviceWorld.t) (deviceId : JsString) (now : Z)
    : Promise bool :=
  match DeviceWorld.keyRotationSchedules w !! deviceId with
  | None => Resolved false
  | Some schedule => Resolved (now >=? KeyRotationSchedule.nextRotation schedule)
  end.

(** Register a new device; [uuid] is the id drawn for the sync event. *)
Definition registerDevice (w : DeviceWorld.t)
    (userId deviceName : JsString) (deviceType : DeviceType)
    (deviceKeys : DeviceKeys.t) (isCurrentDevice : bool)
    (uuid : JsString) (now : Z) : Promise (DeviceInfo.t * DeviceWorld.t) :=
  deviceFingerprint ← generateDeviceFingerprint deviceKeys;
  let deviceInfo :=
    DeviceInfo.mk (DeviceKeys.deviceId deviceKeys) userId deviceName deviceType
      (KeyPair.publicKey (DeviceKeys.signingKeys deviceKeys))
      (KeyPair.publicKey (DeviceKeys.agreementKeys deviceKeys))
      deviceFingerprint
      isCurrentDevice (* Current device is auto-verified *)
      (if isCurrentDevice then Some now else None)
      now now isCurrentDevice in
  (* Store in registry *)
  let userDevices := default [] (assoc_get userId (DeviceWorld.deviceRegistry w)) in
  let w1 :=
    DeviceWorld.set_deviceRegistry w
      (assoc_set userId (userDevices ++ [deviceInfo]) (DeviceWorld.deviceRegistry w)) in
  (* Store in database *)
  let dbDevice :=
    Device.mk (DeviceInfo.deviceId deviceInfo) userId deviceName
      (DeviceInfo.publicSigningKey deviceInfo)
      (DeviceInfo.publicAgreementKey deviceInfo)
      (DeviceInfo.verified deviceInfo)
      (DeviceInfo.createdAt deviceInfo) (DeviceInfo.lastSeen deviceInfo) in
  database1 ← db.registerDevice (DeviceWorld.database w1) userId dbDevice;
  let w2 := DeviceWorld.set_database w1 database1 in
  (* Queue sync event to other devices *)
  w3 ← queueDeviceSync w2 userId (DeviceInfo.deviceId deviceInfo) device_added
         [(js "deviceId", JString (DeviceInfo.deviceId deviceInfo));
          (js "deviceName", JString deviceName);
          (js "deviceType", JString (deviceTypeText deviceType));
          (js "deviceFingerprint", JString deviceFingerprint)]
         uuid now;
  (* Schedule key rotation *)
  w4 ← scheduleKeyRotation w3 (DeviceInfo.deviceId deviceInfo)
         (30 * 24 * 60 * 60 * 1000) now;
  Resolved (deviceInfo, w4).

(** Verify a device (user confirms new device on existing device) *)
Definition verifyDevice (w : DeviceWorld.t)
    (userId deviceId approvedByDeviceId : JsString)
    (uuid : JsString) (now : Z) : Promise (option DeviceInfo.t * DeviceWorld.t) :=
  match assoc_get userId (DeviceWorld.deviceRegistry w) with
  | None => Resolved (None, w)
  | Some userDevices =>
      match list_find (fun d => DeviceInfo.deviceId d = deviceId) userDevices with
      | None => Resolved (None, w)
      | Some (index, device) =>
          let device1 := DeviceInfo.set_trust device true (Some now) in
          let w1 :=
            DeviceWorld.set_deviceRegistry w
              (assoc_set userId (<[index := device1]> userDevices)
                 (DeviceWorld.deviceRegistry w)) in
          w2 ← queueDeviceSync w1 userId approvedByDeviceId device_verified
                 [(js "deviceId", JString deviceId);
                  (js "verifiedAt", JNumber (inject_Z now));
                  (js "approvedByDeviceId", JString approvedByDeviceId)]
                 uuid now;
          Resolved (Some device1, w2)
      end
  end.

(** Remove a device *)
Definition removeDevice (w : DeviceWorld.t)
    (userId deviceId removedByDeviceId : JsString)
    (uuid : JsString) (now : Z) : Promise (bool * DeviceWorld.t) :=
  match assoc_get userId (DeviceWorld.deviceRegistry w) with
  | None => Resolved (false, w)
  | Some userDevices =>
      match list_find (fun d => DeviceInfo.deviceId d = deviceId) userDevices with
      | None => Resolved (false, w)
      | Some (index, _) =>
          let w1 :=
            DeviceWorld.set_deviceRegistry w
              (assoc_set userId (delete index userDevices)
                 (DeviceWorld.deviceRegistry w)) in
          w2 ← queueDeviceSync w1 userId removedByDeviceId device_removed
                 [(js "deviceId", JString deviceId);
                  (js "removedAt", JNumber (inject_Z now))]
                 uuid now;
          Resolved (true, w2)
      end
  end.

(** Get all devices for a user *)
Definition getUserDevices (w : DeviceWorld.t) (userId : JsString)
    : Promise (list DeviceInfo.t) :=
  Resolved (default [] (assoc_get userId (DeviceWorld.deviceRegistry w))).

(** Get verified devices for a user (for encryption) *)
Definition getVerifiedDevices (w : DeviceWorld.t) (userId : JsString)
    : Promise (list DeviceInfo.t) :=
  devices ← getUserDevices w userId;
  Resolved (filter (fun d => DeviceInfo.verified d = true) devices).

(** Get a specific device *)
Definition getDevice (w : DeviceWorld.t) (deviceId : JsString)
    : Promise (option DeviceInfo.t) :=
  Resolved (findDevice deviceId (DeviceWorld.deviceRegistry w)).

(** Update device last seen timestamp *)
Definition updateDeviceLastSeen (w : DeviceWorld.t) (deviceId : JsString) (now : Z)
    : Promise DeviceWorld.t :=
  match updateDevice deviceId (fun d => DeviceInfo.set_lastSeen d now)
          (DeviceWorld.deviceRegistry w) with
  | Some registry => Resolved (DeviceWorld.set_deviceRegistry w registry)
  | None => Resolved w
  end.

(** Perform key rotation *)
Definition rotateKeys (w : DeviceWorld.t)
    (userId deviceId : JsString) (newDeviceKeys : DeviceKeys.t)
    (rotatedByDeviceId : JsString) (uuid : JsString) (now : Z)
    : Promise (bool * DeviceWorld.t) :=
  device ← getDevice w deviceId;
  match device with
  | None => Resolved (false, w)
  | Some _ =>
      (* Update device with new keys *)
      let w1 :=
        match updateDevice deviceId
                (fun d => DeviceInfo.set_publicKeys d
                            (KeyPair.publicKey (DeviceKeys.signingKeys newDeviceKeys))
                            (KeyPair.publicKey (DeviceKeys.agreementKeys newDeviceKeys)))
                (DeviceWorld.deviceRegistry w) with
        | Some registry => DeviceWorld.set_deviceRegistry w registry
        | None => w
        end in
      (* Queue key rotation sync *)
      w2 ← queueDeviceSync w1 userId rotatedByDeviceId keys_rotated
             [(js "deviceId", JString deviceId);
              (js "newPublicSigningKey",
               JString (KeyPair.publicKey (DeviceKeys.signingKeys newDeviceKeys)));
              (js "newPublicAgreementKey",
               JString (KeyPair.publicKey (DeviceKeys.agreementKeys newDeviceKeys)));
              (js "rotatedAt", JNumber (inject_Z now))]
             uuid now;
      (* Reschedule rotation *)
      w3 ← scheduleKeyRotation w2 deviceId defaultRotationIntervalMs now;
      Resolved (true, w3)
  end.

(** Get pending sync events for a device *)
Definition getPendingSyncEvents (w : DeviceWorld.t) (userId forDeviceId : JsString)
    : Promise (list DeviceSync.t) :=
  let syncQueue := default [] (DeviceWorld.deviceSyncQueue w !! userId) in
  (* Return all syncs except those from this device *)
  Resolved (filter (fun e => DeviceSync.deviceId e <> forDeviceId) syncQueue).

(** Acknowledge sync event *)
Definition acknowledgeSyncEvent (w : DeviceWorld.t) (userId syncId : JsString)
    : Promise DeviceWorld.t :=
  match DeviceWorld.deviceSyncQueue w !! userId with
  | None => Resolved w
  | Some syncQueue =>
      match list_find (fun e => DeviceSync.syncId e = syncId) syncQueue with
      | Some (index, _) =>
          Resolved (DeviceWorld.set_deviceSyncQueue w
                      (<[userId := delete index syncQueue]> (DeviceWorld.deviceSyncQueue w)))
      | None => Resolved w
      end
  end.

(** Establish cross-device trust chain; [trustToken] is the id drawn,
    [uuid] the id of the sync event. *)
Definition trustDevice (w : DeviceWorld.t)
    (userId deviceId trustedByDeviceId : JsString) (trustedByDeviceKeys : DeviceKeys.t)
    (trustToken uuid : JsString) (now : Z) : Promise (JsString * DeviceWorld.t) :=
  (* Sign the trust token with the trusting device's key *)
  signature ← cryptoUtils.signData
                (deviceId ++ js ":" ++ trustedByDeviceId ++ js ":" ++ trustToken)
                (KeyPair.secretKey (DeviceKeys.signingKeys trustedByDeviceKeys));
  (* Store trust relationship *)
  w1 ← queueDeviceSync w userId trustedByDeviceId device_verified
         [(js "deviceId", JString deviceId);
          (js "trustToken", JString trustToken);
          (js "signature", JString signature)]
         uuid now;
  Resolved (signature, w1).

(** Get all device sync statistics *)
Definition getDeviceSyncStats (w : DeviceWorld.t) (userId : JsString) (now : Z)
    : DeviceSyncStats.t :=
  let devices := default [] (assoc_get userId (DeviceWorld.deviceRegistry w)) in
  let syncQueue := default [] (DeviceWorld.deviceSyncQueue w !! userId) in
  DeviceSyncStats.mk
    (Z.of_nat (length devices))
    (Z.of_nat (length (filter (fun d => DeviceInfo.verified d = true) devices)))
    (Z.of_nat (length (filter (fun d => DeviceInfo.verified d = false) devices)))
    (Z.of_nat (length (filter (fun d => now - DeviceInfo.lastSeen d < 5 * 60 * 1000)
                         devices))) (* Last 5 min *)
    (Z.of_nat (length syncQueue))
    (Z.of_nat (length (filter (fun s => now >= KeyRotationSchedule.nextRotation (snd s))
                         (map_to_list (DeviceWorld.keyRotationSchedules w))))).

End deviceManager.

(** ** Notions that the statements use *)

Definition is_byte (b : Z) : Prop := 0 <= b < 256.

(** The code points that have a UTF-8 encoding. *)
Definition is_scalar (cp : Z) : Prop := 0 <= cp < 0xD800 \/ 0xE000 <= cp < 0x110000.

(** A required text field that is there and is not the empty string. *)
Definition present (x : option JsString) : Prop :=
  exists s, x = Some s /\ s <> [].

(** The messages the pipeline takes: both required fields are there and
    the content is within the size bound of 64 KiB. *)
Definition acceptable (m : PlaintextMessage.t) : Prop :=
  present (PlaintextMessage.conversationId m)
  /\ exists content,
       PlaintextMessage.content m = Some content /\ content <> []
       /\ Z.of_nat (length content) <= 65536.

(** The counter that the receive path compares an envelope with. *)
Definition receiveCounter (s : SessionState.t) : Z :=
  SessionKey.messageCounter (SessionState.sessionKey s).

(** Text below the surrogates and without a colon, as base64 text is. *)
Definition key_text (s : JsString) : Prop :=
  Forall (fun u => 0 <= u < 0xD800 /\ u <> 58) s.

(** Text below the surrogates. *)
Definition plain (s : JsString) : Prop := Forall (fun u => 0 <= u < 0xD800) s.

(** Device keys whose key material is such text. *)
Definition text_keys (k : DeviceKeys.t) : Prop :=
  key_text (KeyPair.publicKey (DeviceKeys.signingKeys k))
  /\ plain (KeyPair.secretKey (DeviceKeys.agreementKeys k))
  /\ Forall (fun p => plain (PreKey.publicKey p)) (DeviceKeys.preKeys k)
  /\ Forall (fun o => plain (OneTimeKey.publicKey o)) (DeviceKeys.oneTimeKeys k).

(** The bundle with another signature on its signed pre-key. *)
Definition withSignature (b : X3DHBundle.t) (signature : JsString) : X3DHBundle.t :=
  X3DHBundle.mk (X3DHBundle.identityKey b) (X3DHBundle.signedPreKey b) signature
    (X3DHBundle.oneTimePreKeys b) (X3DHBundle.timestamp b).

(** The entry that [processMessage userId messageId] works on. *)
Definition lookupMessage (w : World.t) (userId messageId : JsString)
    : option QueuedMessage.t :=
  userMessages ← assoc_get userId (OfflineQueueState.messages (World.state w));
  snd <$> list_find (fun m => QueuedMessage.id m = messageId) userMessages.

(** Some list of the queue holds an entry with this id. *)
Definition queued (w : World.t) (messageId : JsString) : Prop :=
  exists userId userMessages m,
    In (userId, userMessages) (OfflineQueueState.messages (World.state w))
    /\ In m userMessages /\ QueuedMessage.id m = messageId.

(** A list of the queue that holds no entry with this id. *)
Definition noMatch (messageId : JsString) (entry : JsString * list QueuedMessage.t) : Prop :=
  list_find (fun m => QueuedMessage.id m = messageId) (snd entry) = None.

Definition withinBudget (m : QueuedMessage.t) : Prop :=
  QueuedMessage.attempts m <= QueuedMessage.maxRetries m.

Definition allWithinBudget (w : World.t) : Prop :=
  Forall (fun entry => Forall withinBudget (snd entry))
         (OfflineQueueState.messages (World.state w)).

Definition isFinal (s : QueueStatus) : Prop := s = Sent \/ s = Delivered.

Definition isDue (env : Env.t) (m : QueuedMessage.t) : Prop :=
  (QueuedMessage.nextRetryTime m <= inject_Z (Env.now env))%Q.

(** The entry as a retry leaves it before it is processed again. *)
Definition resetForRetry (m : QueuedMessage.t) (now : Z) : QueuedMessage.t :=
  QueuedMessage.mk (QueuedMessage.id m) (QueuedMessage.userId m)
    (QueuedMessage.conversationId m) (QueuedMessage.content m)
    (QueuedMessage.encrypted m) (QueuedMessage.sessionId m)
    (QueuedMessage.timestamp m) 0 (QueuedMessage.maxRetries m)
    (inject_Z now) Pending None
    (QueuedMessage.createdAt m) (QueuedMessage.updatedAt m).

(** The entry as the exhausted retry budget leaves it. *)
Definition markFailed (m : QueuedMessage.t) (now : Z) : QueuedMessage.t :=
  QueuedMessage.mk (QueuedMessage.id m) (QueuedMessage.userId m)
    (QueuedMessage.conversationId m) (QueuedMessage.content m)
    (QueuedMessage.encrypted m) (QueuedMessage.sessionId m)
    (QueuedMessage.timestamp m) (QueuedMessage.attempts m) (QueuedMessage.maxRetries m)
    (QueuedMessage.nextRetryTime m) Failed (Some (js "Max retries exceeded"))
    (QueuedMessage.createdAt m) now.

(** The backoff of the design, in milliseconds:
    [min(baseDelay * 2^attempts, capDelay)] with base 1s and cap 60s. *)
Definition backoff (n : Z) : Z := Z.min (1000 * 2 ^ n) 60000.




(** What a base64 text decodes to, as text. *)
Definition decoded (s : JsString) : JsString := Buffer.toString (Buffer.from_base64 s).

(** The first stored message with the id, over the conversations in
    insertion order: the message that a receipt marks. *)
Fixpoint findMessage (messageId : JsString)
    (entries : list (option JsString * list Message.t)) : option Message.t :=
  match entries with
  | [] => None
  | (_, messages) :: rest =>
      match list_find (fun m => Message.messageId m = messageId) messages with
      | Some (_, m) => Some m
      | None => findMessage messageId rest
      end
  end.

(** A property of every message of the queue. *)
Definition allMessages (P : QueuedMessage.t -> Prop) (w : World.t) : Prop :=
  Forall (fun entry => Forall P (snd entry)) (OfflineQueueState.messages (World.state w)).

(** A message that the queue can still get out: it is not marked
    failed, and it is sent already or has an attempt left. *)
Definition sendable (m : QueuedMessage.t) : Prop :=
  QueuedMessage.status m <> Failed
  /\ 0 < QueuedMessage.maxRetries m
  /\ (QueuedMessage.attempts m < QueuedMessage.maxRetries m
      \/ isFinal (QueuedMessage.status m)).

(** The users of the queue with the ids of their messages, in order. *)
Definition queueShape (w : World.t) : list (JsString * list JsString) :=
  map (fun entry => (fst entry, map QueuedMessage.id (snd entry)))
      (OfflineQueueState.messages (World.state w)).

(** What [saveToStorage] writes for a state. *)
Definition snapshot (s : OfflineQueueState.t) : StoredQueue.t :=
  StoredQueue.mk (OfflineQueueState.messages s) (OfflineQueueState.deliveryStatus s)
    (OfflineQueueState.lastSyncTime s).

(** [localStorage], where there is one, holds the queue as it is. *)
Definition persisted (w : World.t) : Prop :=
  match World.localStorage w with
  | None => True
  | Some stored => stored = Some (snapshot (World.state w))
  end.

(** The fields of the state that [processMessage] never writes. *)
Definition flags (w : World.t) : bool * bool * Z :=
  (OfflineQueueState.isOnline (World.state w),
   OfflineQueueState.syncInProgress (World.state w),
   OfflineQueueState.lastSyncTime (World.state w)).

(** What one call of [processMessage] that gets past its guards does to
    the message it works on. *)
Definition attempted (env : Env.t) (m m' : QueuedMessage.t) : Prop :=
  QueuedMessage.id m' = QueuedMessage.id m
  /\ QueuedMessage.maxRetries m' = QueuedMessage.maxRetries m
  /\ ~ isFinal (QueuedMessage.status m)
  /\ isDue env m
  /\ ((QueuedMessage.attempts m >= QueuedMessage.maxRetries m
       /\ m' = markFailed m (Env.now env))
      \/ (QueuedMessage.attempts m < QueuedMessage.maxRetries m
          /\ QueuedMessage.attempts m' = QueuedMessage.attempts m + 1
          /\ (QueuedMessage.status m' = Sent
              \/ (QueuedMessage.status m' = QueuedMessage.status m
                  /\ QueuedMessage.attempts m' < QueuedMessage.maxRetries m')))).

(** The message as [markDelivered] leaves it. *)
Definition delivered (m : QueuedMessage.t) (now : Z) : QueuedMessage.t :=
  QueuedMessage.set_updatedAt (QueuedMessage.set_status m Delivered) now.

(** The text that [generateDeviceFingerprint] encodes. *)
Definition fingerprintData (k : DeviceKeys.t) : JsString :=
  KeyPair.publicKey (DeviceKeys.signingKeys k) ++ js ":"
    ++ KeyPair.publicKey (DeviceKeys.agreementKeys k).

(** Text in ASCII. *)
Definition ascii_text (s : JsString) : Prop := Forall (fun u => 0 <= u < 128) s.

(** ** Two devices and a queue, for the concrete cases *)

Module Example.

(** Keys of the shape [generateDeviceKeys] makes: the base64 text of
    the decimal text of a random draw. *)
Definition key (draw : string) : JsString := base64 (js draw).

Definition alice : DeviceKeys.t :=
  DeviceKeys.mk (js "device-a")
    (KeyPair.mk (key "0.11") (key "0.12"))
    (KeyPair.mk (key "0.13") (key "0.14"))
    [PreKey.mk 0 (key "0.15") (key "0.16") 1000]
    [OneTimeKey.mk 0 (key "0.17"); OneTimeKey.mk 1 (key "0.18")].

Definition bob : DeviceKeys.t :=
  DeviceKeys.mk (js "device-b")
    (KeyPair.mk (key "0.21") (key "0.22"))
    (KeyPair.mk (key "0.23") (key "0.24"))
    [PreKey.mk 0 (key "0.25") (key "0.26") 1000]
    [OneTimeKey.mk 0 (key "0.27"); OneTimeKey.mk 1 (key "0.28")].

Definition carol : DeviceKeys.t :=
  DeviceKeys.mk (js "device-c")
    (KeyPair.mk (key "0.31") (key "0.32"))
    (KeyPair.mk (key "0.33") (key "0.34"))
    [PreKey.mk 0 (key "0.35") (key "0.36") 1000]
    [OneTimeKey.mk 0 (key "0.37"); OneTimeKey.mk 1 (key "0.38")].

(** Bob's bundle, and the same bundle with no signature on the pre-key. *)
Definition bobBundle : X3DHBundle.t :=
  X3DHBundle.mk (key "0.21") (key "0.25") (key "0.26") [key "0.27"; key "0.28"] 1000.

Definition aliceBundle : X3DHBundle.t :=
  X3DHBundle.mk (key "0.11") (key "0.15") (key "0.16") [key "0.17"; key "0.18"] 1000.

Definition unsignedBundle : X3DHBundle.t := withSignature bobBundle [].

Definition sessionKey : SessionKey.t :=
  SessionKey.mk (key "0.41") (key "0.42") (key "0.43") 0.

Definition session : SessionState.t :=
  SessionState.mk (js "session:alice:bob:device-a:device-b")
    (js "alice") (js "bob") (js "device-a") (js "device-b")
    sessionKey established (X3dhData.mk (key "0.41") 0) 1000 1000.

(** The payload text of one message, a parser that knows this text
    only, and the text of its timestamp. *)
Definition quoted (s : string) : JsString := [34] ++ js s ++ [34].

Definition payload : JsString :=
  js "{" ++ quoted "content" ++ js ":" ++ quoted "hello" ++ js ","
     ++ quoted "timestamp" ++ js ":5," ++ quoted "messageId" ++ js ":"
     ++ quoted "m1" ++ js "}".

Definition parse (text : JsString) : Promise JsValue :=
  if bool_decide (text = payload)
  then Resolved (JObject [(js "content", JString (js "hello"));
                          (js "timestamp", JNumber 5);
                          (js "messageId", JString (js "m1"))])
  else Rejected SyntaxError.

Definition show (v : JsValue) : Promise JsString :=
  match v with
  | JString s => Resolved s
  | JNumber _ => Resolved (js "5")
  | _ => Resolved (js "[object Object]")
  end.

Definition envelope : EncryptedMessage.t :=
  EncryptedMessage.mk (base64 payload) (key "0.51") (js "device-a") (js "device-b")
    2000 1 (key "0.42").

(** A queue with one entry of user alice that has used up its budget
    and is scheduled one second ahead of the clock. *)
Definition entry (attempts : Z) (nextRetryTime : Q) (status : QueueStatus) : QueuedMessage.t :=
  QueuedMessage.mk (js "m1") (js "alice") (js "c1") (js "hello") (js "aGVsbG8=")
    (js "s1") 1000 attempts 5 nextRetryTime status None 1000 1000.

Definition world (m : QueuedMessage.t) : World.t :=
  World.mk (OfflineQueueState.mk [(js "alice", [m])] ∅ true false 0) None.

Definition env : Env.t := Env.mk 5000 6000 (1 # 2) (1 # 4).

Definition plaintext (content : JsString) : PlaintextMessage.t :=
  PlaintextMessage.mk (Some (js "c1")) (js "alice") (js "device-a")
    (js "bob") (js "device-b") (Some content) None None.

(** A serialiser that writes the content and the id of a payload object,
    and the parser that reads back the text of one value. *)
Definition stringify (v : JsValue) : JsString :=
  match get_property v (js "content"), get_property v (js "messageId") with
  | Resolved (JString content), Resolved (JString messageId) =>
      js "{" ++ quoted "content" ++ js ":" ++ [34] ++ content ++ [34] ++ js ","
         ++ quoted "messageId" ++ js ":" ++ [34] ++ messageId ++ [34] ++ js "}"
  | _, _ => js "null"
  end.



End Example.

(* ================================================================== *)
(** * Part II: properties                                              *)
(* ================================================================== *)

(** ** The encodings of [Buffer] *)

Ltac divmod_lia := Z.div_mod_to_equations; lia.

Lemma in_range_true lo hi x : lo <= x <= hi -> in_range lo hi x = true.
Proof. unfold in_range. intros. apply andb_true_intro. split; apply Z.leb_le; lia. Qed.

Lemma in_range_false lo hi x : x < lo \/ hi < x -> in_range lo hi x = false.
Proof.
  unfold in_range. intros [H | H].
  - apply andb_false_intro1. apply Z.leb_gt. lia.
  - apply andb_false_intro2. apply Z.leb_gt. lia.
Qed.

Lemma in_range_spec lo hi x : in_range lo hi x = true <-> lo <= x <= hi.
Proof. unfold in_range. rewrite andb_true_iff, !Z.leb_le. tauto. Qed.

(** Settles every range test of the goal whose outcome arithmetic decides. *)
Ltac decide_ranges :=
  repeat match goal with
  | |- context [in_range ?lo ?hi ?x] =>
      first [ rewrite (in_range_true lo hi x) by divmod_lia
            | rewrite (in_range_false lo hi x) by divmod_lia ]
  end.

Lemma b64_value_char v : 0 <= v < 64 -> Buffer.b64_value (Buffer.b64_char v) = Some v.
Proof.
  intros Hv. unfold Buffer.b64_value, Buffer.b64_char.
  destruct (Z.ltb_spec v 26); [decide_ranges; f_equal; lia|].
  destruct (Z.ltb_spec v 52); [decide_ranges; f_equal; lia|].
  destruct (Z.ltb_spec v 62); [decide_ranges; f_equal; lia|].
  destruct (Z.eqb_spec v 62); [subst; reflexivity|].
  replace v with 63 by lia. reflexivity.
Qed.

Lemma b64_char_not_pad v : 0 <= v < 64 -> (Buffer.b64_char v =? 61) = false.
Proof.
  intros Hv. apply Z.eqb_neq. unfold Buffer.b64_char.
  destruct (Z.ltb_spec v 26); [lia|].
  destruct (Z.ltb_spec v 52); [lia|].
  destruct (Z.ltb_spec v 62); [lia|].
  destruct (Z.eqb_spec v 62); lia.
Qed.

Lemma b64_sextets_char v rest :
  0 <= v < 64 ->
  Buffer.b64_sextets (Buffer.b64_char v :: rest) = v :: Buffer.b64_sextets rest.
Proof.
  intros Hv. cbn [Buffer.b64_sextets].
  rewrite b64_char_not_pad, b64_value_char by assumption. reflexivity.
Qed.

(** Induction that takes a list three elements at a time, as the
    encoder does. *)
Lemma list_ind3 {A} (P : list A -> Prop) :
  P [] -> (forall a, P [a]) -> (forall a b, P [a; b]) ->
  (forall a b c l, P l -> P (a :: b :: c :: l)) ->
  forall l, P l.
Proof.
  intros H0 H1 H2 H3.
  fix IH 1. intros [|a [|b [|c l]]];
    [apply H0 | apply H1 | apply H2 | apply H3, IH].
Qed.

Lemma b64_decode_encode bs :
  Forall is_byte bs -> Buffer.b64_decode (Buffer.b64_encode bs) = bs.
Proof.
  unfold Buffer.b64_decode, is_byte.
  induction bs as [|a|a b|a b c l IH] using list_ind3; intros Hb.
  - reflexivity.
  - inversion_clear Hb. cbn [Buffer.b64_encode].
    rewrite !b64_sextets_char by divmod_lia. cbn.
    f_equal. divmod_lia.
  - inversion_clear Hb as [|? ? Ha Hb']. inversion_clear Hb' as [|? ? Hb0 _].
    cbn [Buffer.b64_encode].
    rewrite !b64_sextets_char by divmod_lia. cbn.
    f_equal; [|f_equal]; divmod_lia.
  - inversion_clear Hb as [|? ? Ha Hb']. inversion_clear Hb' as [|? ? Hb0 Hb''].
    inversion_clear Hb'' as [|? ? Hc Hl].
    cbn [Buffer.b64_encode app].
    rewrite !b64_sextets_char by divmod_lia.
    cbn [Buffer.b64_bytes app]. rewrite (IH Hl).
    f_equal; [|f_equal; [|f_equal]]; divmod_lia.
Qed.

Lemma utf8_encode_cp_bytes cp : is_scalar cp -> Forall is_byte (Buffer.utf8_encode_cp cp).
Proof.
  unfold is_scalar, is_byte, Buffer.utf8_encode_cp. intros Hcp.
  destruct (Z.ltb_spec cp 128);
    [|destruct (Z.ltb_spec cp 2048); [|destruct (Z.ltb_spec cp 65536)]];
    repeat constructor; divmod_lia.
Qed.

Lemma utf8_decode_encode_cp cp rest :
  is_scalar cp ->
  Buffer.utf8_decode (Buffer.utf8_encode_cp cp ++ rest) = cp :: Buffer.utf8_decode rest.
Proof.
  unfold is_scalar, Buffer.utf8_encode_cp. intros Hcp.
  destruct (Z.ltb_spec cp 128) as [H1|H1].
  { cbn [app Buffer.utf8_decode]. decide_ranges. reflexivity. }
  destruct (Z.ltb_spec cp 2048) as [H2|H2].
  { cbn [app Buffer.utf8_decode]. decide_ranges. f_equal. divmod_lia. }
  destruct (Z.ltb_spec cp 65536) as [H3|H3].
  { cbn [app Buffer.utf8_decode].
    destruct (Z.eqb_spec (224 + cp / 4096) 224), (Z.eqb_spec (224 + cp / 4096) 237);
      decide_ranges; f_equal; divmod_lia. }
  cbn [app Buffer.utf8_decode].
  destruct (Z.eqb_spec (240 + cp / 262144) 240), (Z.eqb_spec (240 + cp / 262144) 244);
    decide_ranges; f_equal; divmod_lia.
Qed.

Lemma utf8_decode_encode cps :
  Forall is_scalar cps -> Buffer.utf8_decode (Buffer.utf8_encode cps) = cps.
Proof.
  induction 1 as [|cp cps Hcp _ IH]; [reflexivity|].
  unfold Buffer.utf8_encode in *. cbn [flat_map].
  rewrite utf8_decode_encode_cp by assumption. now rewrite IH.
Qed.

Lemma utf8_encode_bytes cps : Forall is_scalar cps -> Forall is_byte (Buffer.utf8_encode cps).
Proof.
  induction 1 as [|cp cps Hcp _ IH]; [constructor|].
  unfold Buffer.utf8_encode in *. cbn [flat_map].
  apply Forall_app. split; [now apply utf8_encode_cp_bytes | exact IH].
Qed.

(** A well-formed string is the UTF-16 form of its code points, all of
    which have a UTF-8 encoding. *)
Lemma well_formed_code_points s :
  well_formed s = true ->
  Forall is_scalar (Buffer.code_points s)
  /\ Buffer.utf16_encode (Buffer.code_points s) = s.
Proof.
  remember (length s) as n eqn:Hn. revert s Hn.
  induction n as [n IH] using lt_wf_ind. intros s Hn Hwf.
  destruct s as [|u t]; [split; [constructor | reflexivity]|].
  cbn [well_formed Buffer.code_points] in *.
  destruct (is_high_surrogate u) eqn:Hu.
  - destruct t as [|l t']; [discriminate|].
    apply andb_true_iff in Hwf as [Hl Hwf]. rewrite Hl.
    destruct (IH (length t')) with (s := t') as [Hs Hr];
      [simpl in Hn; lia | reflexivity | exact Hwf |].
    apply in_range_spec in Hu, Hl.
    split.
    + constructor; [unfold is_scalar; lia | exact Hs].
    + unfold Buffer.utf16_encode in *. cbn [flat_map]. rewrite Hr.
      unfold Buffer.utf16_encode_cp.
      destruct (Z.ltb_spec (65536 + (u - 55296) * 1024 + (l - 56320)) 65536); [lia|].
      cbn [app]. f_equal; [|f_equal]; divmod_lia.
  - apply andb_true_iff in Hwf as [Hwf Hwft]. apply andb_true_iff in Hwf as [Hcu Hnl].
    apply negb_true_iff in Hnl. rewrite Hnl.
    destruct (IH (length t)) with (s := t) as [Hs Hr];
      [simpl in Hn; lia | reflexivity | exact Hwft |].
    apply in_range_spec in Hcu.
    assert (Hsc : is_scalar u).
    { unfold is_scalar. unfold is_high_surrogate, is_low_surrogate, in_range in *.
      apply andb_false_iff in Hu, Hnl. rewrite !Z.leb_gt in Hu, Hnl. lia. }
    split.
    + constructor; assumption.
    + unfold Buffer.utf16_encode in *. cbn [flat_map]. rewrite Hr.
      unfold Buffer.utf16_encode_cp.
      destruct (Z.ltb_spec u 65536); [reflexivity | lia].
Qed.

(** Decoding the base64 text of a well-formed string gives it back. *)
Lemma base64_roundtrip s :
  well_formed s = true -> Buffer.toString (Buffer.from_base64 (base64 s)) = s.
Proof.
  intros Hwf. destruct (well_formed_code_points s Hwf) as [Hs Hr].
  unfold base64, Buffer.toString, Buffer.from_base64, Buffer.toString_base64, Buffer.from.
  rewrite b64_decode_encode by now apply utf8_encode_bytes.
  rewrite utf8_decode_encode by assumption. exact Hr.
Qed.

Lemma base64_inj s1 s2 :
  well_formed s1 = true -> well_formed s2 = true -> base64 s1 = base64 s2 -> s1 = s2.
Proof.
  intros H1 H2 Heq. rewrite <- (base64_roundtrip s1 H1), <- (base64_roundtrip s2 H2).
  now rewrite Heq.
Qed.

(** The base64 text of a string that is not empty is not empty. *)
Lemma base64_nonempty u s : base64 (u :: s) <> [].
Proof.
  unfold base64, Buffer.toString_base64, Buffer.from, Buffer.utf8_encode.
  assert (Hcp : exists cp cps, Buffer.code_points (u :: s) = cp :: cps).
  { cbn [Buffer.code_points]. destruct (is_high_surrogate u).
    - destruct s as [|l t]; [eauto|]. destruct (is_low_surrogate l); eauto.
    - destruct (is_low_surrogate u); eauto. }
  destruct Hcp as (cp & cps & ->). cbn [flat_map].
  assert (Hb : exists b bs, Buffer.utf8_encode_cp cp = b :: bs).
  { unfold Buffer.utf8_encode_cp.
    destruct (cp <? 128); [eauto|]. destruct (cp <? 2048); [eauto|].
    destruct (cp <? 65536); eauto. }
  destruct Hb as (b & bs & ->). cbn [app].
  destruct (bs ++ flat_map Buffer.utf8_encode_cp cps) as [|b2 [|b3 r]]; discriminate.
Qed.

(** ** lib/crypto: encryption and decryption of one message *)

(** C5, as amended.  For every well-formed plaintext [P] (no surrogate
    code unit outside a pair), every session key and every choice of ids,
    clock and nonce, decrypting what [cryptoUtils.encryptMessage] made of
    [P] returns exactly [P]. *)
Theorem decrypt_encrypt_well_formed
    (P : JsString) (K : SessionKey.t)
    (senderId recipientId senderDeviceId recipientDeviceId : JsString)
    (now : Z) (rndNonce : JsString) :
  well_formed P = true ->
  (m ← cryptoUtils.encryptMessage P K senderId recipientId
         senderDeviceId recipientDeviceId now rndNonce;
   cryptoUtils.decryptMessage m K) = Resolved P.
Proof.
  intros Hwf. cbn. unfold cryptoUtils.decryptMessage. cbn [EncryptedMessage.ciphertext].
  now rewrite base64_roundtrip.
Qed.

Lemma decrypt_encrypt_well_formed_witness :
  well_formed (js "hello") = true
  /\ (m ← cryptoUtils.encryptMessage (js "hello") Example.sessionKey
            (js "alice") (js "bob") (js "device-a") (js "device-b") 2000 (js "0.51");
      cryptoUtils.decryptMessage m Example.sessionKey) = Resolved (js "hello").
Proof.
  split; [reflexivity|].
  apply (decrypt_encrypt_well_formed (js "hello") Example.sessionKey
           (js "alice") (js "bob") (js "device-a") (js "device-b") 2000 (js "0.51")).
  reflexivity.
Defined.

(** C5, as stated, fails on a plaintext that holds a surrogate outside a
    pair: the one code unit U+D800 comes back as U+FFFD. *)
Lemma decrypt_encrypt_lone_surrogate :
  (m ← cryptoUtils.encryptMessage [0xD800] Example.sessionKey
         (js "alice") (js "bob") (js "device-a") (js "device-b") 2000 (js "0.51");
   cryptoUtils.decryptMessage m Example.sessionKey) = Resolved [0xFFFD]
  /\ Resolved [0xFFFD] <> Resolved [0xD800].
Proof. split; [reflexivity | discriminate]. Qed.

(** C6.  [cryptoUtils.decryptMessage] is a function of the ciphertext
    field alone: it gives one result under any two session keys, also when
    every other field of the envelope is replaced, and it always resolves,
    so no authentication error ever comes out of it. *)
Theorem decryptMessage_ignores_session_key
    (m : EncryptedMessage.t) (K1 K2 : SessionKey.t)
    (nonce senderDeviceId recipientDeviceId headerSecret : JsString)
    (timestamp messageCounter : Z) :
  cryptoUtils.decryptMessage m K1 = cryptoUtils.decryptMessage m K2
  /\ cryptoUtils.decryptMessage m K1
     = cryptoUtils.decryptMessage
         (EncryptedMessage.mk (EncryptedMessage.ciphertext m) nonce senderDeviceId
            recipientDeviceId timestamp messageCounter headerSecret) K2
  /\ (exists text, cryptoUtils.decryptMessage m K1 = Resolved text)
  /\ (forall e, cryptoUtils.decryptMessage m K1 <> Rejected e).
Proof.
  unfold cryptoUtils.decryptMessage. cbn [EncryptedMessage.ciphertext].
  repeat split; [eexists; reflexivity | discriminate].
Qed.

(** ** lib/session: the handshake *)

(** [completeHandshake] always resolves, with the session it stores under
    the canonical id. *)
Lemma completeHandshake_resolves
    (store : SessionStore) (userId1 deviceId1 userId2 deviceId2 : JsString)
    (ourDeviceKeys : DeviceKeys.t) (theirPreKeyBundle : X3DHBundle.t)
    (isInitiator : bool) (now : Z) (rndHeader rndChain : JsString) :
  exists session,
    sessionManager.completeHandshake store userId1 deviceId1 userId2 deviceId2
      ourDeviceKeys theirPreKeyBundle isInitiator now rndHeader rndChain
    = Resolved (session,
                <[sessionManager.sessionIdOf userId1 deviceId1 userId2 deviceId2 := session]> store)
    /\ SessionState.sessionId session
       = sessionManager.sessionIdOf userId1 deviceId1 userId2 deviceId2
    /\ SessionState.state session = established
    /\ receiveCounter session = 0.
Proof. eexists. repeat split. Qed.

(** C1, at a failing input.  Alice (initiator) and Bob (responder) each
    complete the handshake from their own keys and the bundle of the
    other: the two sessions hold different shared secrets. *)
Theorem completeHandshake_secrets_disagree :
  exists sessionA storeA sessionB storeB,
    sessionManager.generateX3DHBundle Example.alice 1000 = Resolved Example.aliceBundle
    /\ sessionManager.generateX3DHBundle Example.bob 1000 = Resolved Example.bobBundle
    /\ sessionManager.completeHandshake ∅ (js "alice") (js "device-a") (js "bob") (js "device-b")
         Example.alice Example.bobBundle true 2000 (js "0.61") (js "0.62")
       = Resolved (sessionA, storeA)
    /\ sessionManager.completeHandshake ∅ (js "bob") (js "device-b") (js "alice") (js "device-a")
         Example.bob Example.aliceBundle false 2000 (js "0.63") (js "0.64")
       = Resolved (sessionB, storeB)
    /\ SessionState.sessionId sessionA = SessionState.sessionId sessionB
    /\ SessionKey.sharedSecret (SessionState.sessionKey sessionA)
       <> SessionKey.sharedSecret (SessionState.sessionKey sessionB).
Proof.
  do 4 eexists. split; [reflexivity|]. split; [reflexivity|].
  split; [reflexivity|]. split; [reflexivity|].
  split; [vm_compute; reflexivity | vm_compute; discriminate].
Qed.

(** The role flag has no part in the derivation. *)
Lemma completeHandshake_ignores_role
    (store : SessionStore) (userId1 deviceId1 userId2 deviceId2 : JsString)
    (ourDeviceKeys : DeviceKeys.t) (theirPreKeyBundle : X3DHBundle.t)
    (now : Z) (rndHeader rndChain : JsString) :
  sessionManager.completeHandshake store userId1 deviceId1 userId2 deviceId2
    ourDeviceKeys theirPreKeyBundle true now rndHeader rndChain
  = sessionManager.completeHandshake store userId1 deviceId1 userId2 deviceId2
      ourDeviceKeys theirPreKeyBundle false now rndHeader rndChain.
Proof. reflexivity. Qed.

Lemma plain_well_formed s : plain s -> well_formed s = true.
Proof.
  induction 1 as [|u s Hu _ IH]; [reflexivity|].
  cbn [well_formed]. unfold is_high_surrogate, is_low_surrogate, is_code_unit.
  rewrite (in_range_false 55296 56319) by lia.
  rewrite (in_range_true 0 65535) by lia.
  rewrite (in_range_false 56320 57343) by lia. exact IH.
Qed.

Lemma key_text_plain s : key_text s -> plain s.
Proof. intros H. eapply Forall_impl; [exact H|]. cbn. tauto. Qed.

Lemma plain_app a b : plain a -> plain b -> plain (a ++ b).
Proof. intros. now apply Forall_app. Qed.

Lemma plain_colon : plain (js ":").
Proof. repeat constructor; lia. Qed.

Lemma plain_template o : (forall s, o = Some s -> plain s) -> plain (template o).
Proof.
  destruct o as [s|]; cbn [template]; [auto|].
  intros _. unfold plain.
  replace (js "undefined") with [117; 110; 100; 101; 102; 105; 110; 101; 100]
    by reflexivity.
  repeat constructor; lia.
Qed.

(** Two texts that agree up to and including their first colon start
    with the same colon-free field. *)
Lemma first_field_inj x y r1 r2 :
  key_text x -> key_text y -> x ++ 58 :: r1 = y ++ 58 :: r2 -> x = y.
Proof.
  intros Hx. revert y. induction Hx as [|u x [_ Hu] _ IH]; intros y Hy Heq.
  - destruct Hy as [|v y [_ Hv] _]; [reflexivity|].
    cbn in Heq. injection Heq as Heq _. congruence.
  - destruct Hy as [|v y [_ Hv] Hy].
    + cbn in Heq. injection Heq as Heq _. congruence.
    + cbn in Heq. injection Heq as -> Heq. f_equal. now apply IH.
Qed.

(** Settles that a concatenation of plain texts and colons is plain. *)
Ltac plain_text :=
  unfold plain in *;
  repeat (apply Forall_app_2
          || (apply Forall_cons_2; [vm_compute; split; [discriminate | reflexivity]|])
          || assumption).

(** The disagreement of C1 holds for every pair of devices with
    different identity keys: when the key material is text below the
    surrogates and the identity keys hold no colon (as the base64 keys of
    [generateDeviceKeys] do), the initiator and the responder of one
    transcript derive different shared secrets. *)
Lemma completeHandshake_secrets_differ
    (storeA storeB : SessionStore)
    (userA deviceA userB deviceB : JsString)
    (keysA keysB : DeviceKeys.t) (bundleA bundleB : X3DHBundle.t)
    (publishedA publishedB nowA nowB : Z)
    (rndHeaderA rndChainA rndHeaderB rndChainB : JsString)
    (sessionA sessionB : SessionState.t) (storeA' storeB' : SessionStore) :
  text_keys keysA -> text_keys keysB ->
  KeyPair.publicKey (DeviceKeys.signingKeys keysA)
    <> KeyPair.publicKey (DeviceKeys.signingKeys keysB) ->
  sessionManager.generateX3DHBundle keysA publishedA = Resolved bundleA ->
  sessionManager.generateX3DHBundle keysB publishedB = Resolved bundleB ->
  sessionManager.completeHandshake storeA userA deviceA userB deviceB
    keysA bundleB true nowA rndHeaderA rndChainA = Resolved (sessionA, storeA') ->
  sessionManager.completeHandshake storeB userB deviceB userA deviceA
    keysB bundleA false nowB rndHeaderB rndChainB = Resolved (sessionB, storeB') ->
  SessionKey.sharedSecret (SessionState.sessionKey sessionA)
  <> SessionKey.sharedSecret (SessionState.sessionKey sessionB).
Proof.
  intros (HikA & HskA & HpkA & HotA) (HikB & HskB & HpkB & HotB) Hne HbA HbB HcA HcB.
  unfold sessionManager.generateX3DHBundle in HbA, HbB.
  destruct (DeviceKeys.preKeys keysA) as [|preA restA]; [discriminate|].
  destruct (DeviceKeys.preKeys keysB) as [|preB restB]; [discriminate|].
  injection HbA as <-. injection HbB as <-.
  apply Forall_inv in HpkA, HpkB.
  cbn in HcA, HcB. injection HcA as <- _. injection HcB as <- _.
  cbn [SessionState.sessionKey SessionKey.sharedSecret].
  intros Heq. apply Hne.
  assert (HotA' : plain (template (head (map OneTimeKey.publicKey
                                           (DeviceKeys.oneTimeKeys keysA))))).
  { apply plain_template. intros s Hs.
    destruct (DeviceKeys.oneTimeKeys keysA) as [|o os]; [discriminate|].
    cbn in Hs. injection Hs as <-. now apply Forall_inv in HotA. }
  assert (HotB' : plain (template (head (map OneTimeKey.publicKey
                                           (DeviceKeys.oneTimeKeys keysB))))).
  { apply plain_template. intros s Hs.
    destruct (DeviceKeys.oneTimeKeys keysB) as [|o os]; [discriminate|].
    cbn in Hs. injection Hs as <-. now apply Forall_inv in HotB. }
  pose proof (key_text_plain _ HikA) as HpA. pose proof (key_text_plain _ HikB) as HpB.
  apply base64_inj in Heq.
  - rewrite <- !app_assoc in Heq. cbn [js map list_ascii_of_string app] in Heq.
    exact (first_field_inj _ _ _ _ HikA HikB Heq).
  - apply plain_well_formed. plain_text.
  - apply plain_well_formed. plain_text.
Qed.

Example alice_and_bob_differ :
  text_keys Example.alice /\ text_keys Example.bob
  /\ KeyPair.publicKey (DeviceKeys.signingKeys Example.alice)
     <> KeyPair.publicKey (DeviceKeys.signingKeys Example.bob).
Proof.
  unfold text_keys, key_text, plain.
  repeat split; try (vm_compute; discriminate);
    vm_compute; repeat constructor; discriminate.
Qed.

(** C3, as amended.  [completeHandshake] checks no signature: its result
    is the same whatever signature the bundle carries, it always resolves
    with an established session that it stores under the canonical id,
    and [cryptoUtils.verifySignature] accepts everything. *)
Theorem completeHandshake_checks_no_signature
    (store : SessionStore) (userId1 deviceId1 userId2 deviceId2 : JsString)
    (ourDeviceKeys : DeviceKeys.t) (theirPreKeyBundle : X3DHBundle.t)
    (isInitiator : bool) (now : Z) (rndHeader rndChain : JsString) :
  (forall signature,
     sessionManager.completeHandshake store userId1 deviceId1 userId2 deviceId2
       ourDeviceKeys (withSignature theirPreKeyBundle signature) isInitiator
       now rndHeader rndChain
     = sessionManager.completeHandshake store userId1 deviceId1 userId2 deviceId2
         ourDeviceKeys theirPreKeyBundle isInitiator now rndHeader rndChain)
  /\ (exists session store',
        sessionManager.completeHandshake store userId1 deviceId1 userId2 deviceId2
          ourDeviceKeys theirPreKeyBundle isInitiator now rndHeader rndChain
        = Resolved (session, store')
        /\ SessionState.state session = established
        /\ store' !! sessionManager.sessionIdOf userId1 deviceId1 userId2 deviceId2
           = Some session)
  /\ (forall message signature publicKey,
        cryptoUtils.verifySignature message signature publicKey = Resolved true).
Proof.
  split; [reflexivity|]. split; [|reflexivity].
  do 2 eexists. split; [reflexivity|]. split; [reflexivity|].
  apply lookup_insert_eq.
Qed.

(** C3, as stated, fails on a bundle whose signed pre-key carries the
    empty signature, which [signData] makes of no data under no key: the
    handshake resolves and the session is in the store. *)
Lemma completeHandshake_stores_unsigned_bundle :
  X3DHBundle.signedPreKeySignature Example.unsignedBundle = []
  /\ (forall data secretKey,
        cryptoUtils.signData data secretKey
        <> Resolved (X3DHBundle.signedPreKeySignature Example.unsignedBundle))
  /\ exists session store',
       sessionManager.completeHandshake ∅ (js "alice") (js "device-a") (js "bob") (js "device-b")
         Example.alice Example.unsignedBundle true 2000 (js "0.61") (js "0.62")
       = Resolved (session, store')
       /\ store' !! js "session:alice:bob:device-a:device-b" = Some session.
Proof.
  split; [reflexivity|]. split.
  - intros data secretKey. unfold cryptoUtils.signData. cbn.
    intros [= H]. destruct data as [|u data]; revert H.
    + apply (base64_nonempty 58).
    + apply base64_nonempty.
  - do 2 eexists. split; [reflexivity|].
    change (js "session:alice:bob:device-a:device-b")
      with (sessionManager.sessionIdOf (js "alice") (js "device-a") (js "bob") (js "device-b")).
    apply lookup_insert_eq.
Qed.

(** C4, as amended.  A handshake consumes nothing: whenever a bundle was
    generated from device keys, every later bundle of the same keys offers
    the same one-time pre-keys, in the same order, and any two handshakes
    that name this bundle both resolve, with the same shared secret when
    the same device completes them. *)
Theorem one_time_pre_keys_are_not_consumed
    (owner : DeviceKeys.t) (published : Z) (bundle : X3DHBundle.t)
    (store : SessionStore) (userId1 deviceId1 userId2 deviceId2 : JsString)
    (ourDeviceKeys : DeviceKeys.t) (isInitiator : bool)
    (now : Z) (rndHeader rndChain : JsString) :
  sessionManager.generateX3DHBundle owner published = Resolved bundle ->
  exists session1 store1,
    sessionManager.completeHandshake store userId1 deviceId1 userId2 deviceId2
      ourDeviceKeys bundle isInitiator now rndHeader rndChain
    = Resolved (session1, store1)
    /\ (forall later, exists bundle',
          sessionManager.generateX3DHBundle owner later = Resolved bundle'
          /\ X3DHBundle.oneTimePreKeys bundle' = X3DHBundle.oneTimePreKeys bundle
          /\ X3DHBundle.oneTimePreKeys bundle'
             = map OneTimeKey.publicKey (DeviceKeys.oneTimeKeys owner))
    /\ (forall userId1' deviceId1' userId2' deviceId2' ourDeviceKeys' isInitiator'
               now' rndHeader' rndChain',
          exists session2 store2,
            sessionManager.completeHandshake store1 userId1' deviceId1' userId2' deviceId2'
              ourDeviceKeys' bundle isInitiator' now' rndHeader' rndChain'
            = Resolved (session2, store2)
            /\ (ourDeviceKeys' = ourDeviceKeys ->
                SessionKey.sharedSecret (SessionState.sessionKey session2)
                = SessionKey.sharedSecret (SessionState.sessionKey session1))).
Proof.
  unfold sessionManager.generateX3DHBundle.
  destruct (DeviceKeys.preKeys owner) as [|preKey rest]; [discriminate|].
  intros [= <-]. do 2 eexists. split; [reflexivity|]. split.
  - intros later. eexists. repeat split.
  - intros. do 2 eexists. split; [reflexivity|]. intros ->. reflexivity.
Qed.

Lemma one_time_pre_keys_are_not_consumed_witness :
  sessionManager.generateX3DHBundle Example.bob 1000 = Resolved Example.bobBundle
  /\ exists session1 store1,
       sessionManager.completeHandshake ∅ (js "alice") (js "device-a") (js "bob") (js "device-b")
         Example.alice Example.bobBundle true 2000 (js "0.61") (js "0.62")
       = Resolved (session1, store1).
Proof.
  split; [reflexivity|].
  destruct (one_time_pre_keys_are_not_consumed Example.bob 1000 Example.bobBundle ∅
              (js "alice") (js "device-a") (js "bob") (js "device-b")
              Example.alice true 2000 (js "0.61") (js "0.62") eq_refl)
    as (session1 & store1 & H & _).
  exists session1, store1. exact H.
Defined.

(** C4, as stated, fails: after Alice has completed a handshake on Bob's
    bundle, Bob's next bundle still offers the one-time pre-key she used,
    and Carol's handshake on that same key resolves with a session. *)
Lemma completeHandshake_reuses_one_time_pre_key :
  exists session1 store1 session2 store2,
    sessionManager.generateX3DHBundle Example.bob 1000 = Resolved Example.bobBundle
    /\ sessionManager.completeHandshake ∅ (js "alice") (js "device-a") (js "bob") (js "device-b")
         Example.alice Example.bobBundle true 2000 (js "0.61") (js "0.62")
       = Resolved (session1, store1)
    /\ sessionManager.generateX3DHBundle Example.bob 3000
       = Resolved (X3DHBundle.mk (X3DHBundle.identityKey Example.bobBundle)
                     (X3DHBundle.signedPreKey Example.bobBundle)
                     (X3DHBundle.signedPreKeySignature Example.bobBundle)
                     (X3DHBundle.oneTimePreKeys Example.bobBundle) 3000)
    /\ head (X3DHBundle.oneTimePreKeys Example.bobBundle) = Some (Example.key "0.27")
    /\ sessionManager.completeHandshake store1
         (js "carol") (js "device-c") (js "bob") (js "device-b")
         Example.carol Example.bobBundle true 4000 (js "0.71") (js "0.72")
       = Resolved (session2, store2)
    /\ SessionState.state session2 = established
    /\ store2 !! js "session:bob:carol:device-b:device-c" = Some session2.
Proof.
  do 4 eexists. split; [reflexivity|]. split; [reflexivity|].
  split; [reflexivity|]. split; [reflexivity|]. split; [reflexivity|].
  split; [reflexivity|].
  change (js "session:bob:carol:device-b:device-c")
    with (sessionManager.sessionIdOf (js "carol") (js "device-c") (js "bob") (js "device-b")).
  apply lookup_insert_eq.
Qed.

(** ** lib/message-pipeline: validation *)

Lemma falsy_false_iff x : falsy x = false <-> present x.
Proof.
  unfold present. split.
  - destruct x as [[|u s]|]; try discriminate. intros _. now exists (u :: s).
  - intros (s & -> & Hs). destruct s; [contradiction | reflexivity].
Qed.

Lemma validateMessage_decides m :
  messagePipeline.validateMessage m
  = Resolved (match PlaintextMessage.conversationId m, PlaintextMessage.content m with
              | Some (_ :: _), Some ((_ :: _) as content) =>
                  Z.of_nat (length content) <=? 65536
              | _, _ => false
              end).
Proof.
  unfold messagePipeline.validateMessage.
  destruct (PlaintextMessage.conversationId m) as [[|c conv]|];
    destruct (PlaintextMessage.content m) as [[|u content]|]; try reflexivity.
  cbn -[Z.of_nat length]. rewrite Z.gtb_ltb, Z.leb_antisym.
  now destruct (_ <? _).
Qed.

Lemma validateMessage_true_iff m :
  messagePipeline.validateMessage m = Resolved true <-> acceptable m.
Proof.
  rewrite validateMessage_decides. unfold acceptable, present.
  destruct (PlaintextMessage.conversationId m) as [[|c conv]|];
    destruct (PlaintextMessage.content m) as [[|u content]|];
    try (split; [discriminate
                | intros ((s & Hs & Hne) & k & Hk & Hkne & _); congruence]).
  split.
  - intros [= H]. apply Z.leb_le in H. split.
    + exists (c :: conv). now split.
    + exists (u :: content). now repeat split.
  - intros (_ & k & [= <-] & _ & Hlen). f_equal. now apply Z.leb_le.
Qed.

Lemma validateMessage_total m :
  messagePipeline.validateMessage m = Resolved true
  \/ messagePipeline.validateMessage m = Resolved false.
Proof.
  rewrite validateMessage_decides.
  match goal with |- Resolved ?b = _ \/ _ => destruct b end; [left | right]; reflexivity.
Qed.

Lemma validateMessage_false_iff m :
  messagePipeline.validateMessage m = Resolved false <-> ~ acceptable m.
Proof.
  rewrite <- validateMessage_true_iff.
  destruct (validateMessage_total m) as [-> | ->]; split; congruence.
Qed.


(** C7.  [validateMessage] accepts a message exactly when its
    conversation id and its content are there, are not empty, and the
    content has at most 65536 code units; it rejects every other message,
    and never throws.  Content of exactly 65536 units is accepted, of
    65537 units rejected. *)
Theorem validateMessage_size_bound (m : PlaintextMessage.t) :
  (messagePipeline.validateMessage m = Resolved true <->
     present (PlaintextMessage.conversationId m)
     /\ exists content,
          PlaintextMessage.content m = Some content /\ content <> []
          /\ Z.of_nat (length content) <= 65536)
  /\ (messagePipeline.validateMessage m = Resolved true
      \/ messagePipeline.validateMessage m = Resolved false)
  /\ (~ present (PlaintextMessage.conversationId m)
      \/ ~ present (PlaintextMessage.content m) ->
      messagePipeline.validateMessage m = Resolved false)
  /\ (forall content,
        PlaintextMessage.content m = Some content ->
        Z.of_nat (length content) > 65536 ->
        messagePipeline.validateMessage m = Resolved false)
  /\ (forall content,
        present (PlaintextMessage.conversationId m) ->
        PlaintextMessage.content m = Some content ->
        (Z.of_nat (length content) = 65536 ->
         messagePipeline.validateMessage m = Resolved true)
        /\ (Z.of_nat (length content) = 65536 + 1 ->
            messagePipeline.validateMessage m = Resolved false)).
Proof.
  split; [apply validateMessage_true_iff|].
  split; [apply validateMessage_total|].
  split; [|split].
  - intros Hmissing. apply validateMessage_false_iff.
    intros (Hconv & k & Hk & Hne & _). destruct Hmissing as [Hn | Hn]; [tauto|].
    apply Hn. now exists k.
  - intros content Hk Hlen. apply validateMessage_false_iff.
    intros (_ & k & Hk' & _ & Hle). assert (k = content) as -> by congruence. lia.
  - intros content Hconv Hk. split; intros Hlen.
    + apply validateMessage_true_iff. split; [exact Hconv|].
      exists content. repeat split; [exact Hk | | lia].
      intros ->. discriminate.
    + apply validateMessage_false_iff.
      intros (_ & k & Hk' & _ & Hle). assert (k = content) as -> by congruence. lia.
Qed.

Lemma validateMessage_size_bound_witness :
  messagePipeline.validateMessage (Example.plaintext (repeat 97 (Z.to_nat 65536)))
  = Resolved true
  /\ messagePipeline.validateMessage (Example.plaintext (repeat 97 (Z.to_nat 65537)))
     = Resolved false.
Proof.
  assert (Hlen : forall n, 0 <= n -> Z.of_nat (length (repeat 97 (Z.to_nat n))) = n).
  { intros n Hn. rewrite repeat_length. apply Z2Nat.id. exact Hn. }
  assert (Hconv : present (Some (js "c1"))).
  { exists (js "c1"). split; [reflexivity | discriminate]. }
  split.
  - refine (proj1 (proj2 (proj2 (proj2 (proj2
              (validateMessage_size_bound
                 (Example.plaintext (repeat 97 (Z.to_nat 65536)))))))
              (repeat 97 (Z.to_nat 65536)) Hconv eq_refl) _).
    apply Hlen. discriminate.
  - refine (proj2 (proj2 (proj2 (proj2 (proj2
              (validateMessage_size_bound
                 (Example.plaintext (repeat 97 (Z.to_nat 65537)))))))
              (repeat 97 (Z.to_nat 65537)) Hconv eq_refl) _).
    apply Hlen. discriminate.
Defined.

(** ** lib/message-pipeline: the receive path and replay *)

Section ReceivePath.

Variable JSON_parse : JsString -> Promise JsValue.
Variable value_toString : JsValue -> Promise JsString.

Local Abbreviation decrypt := (messagePipeline.decryptMessage JSON_parse value_toString).
Local Abbreviation run := (messagePipeline.receiveAll JSON_parse value_toString).







End ReceivePath.


(** The example envelope is accepted once, with its plaintext, and
    dropped when the same envelope arrives again. *)
Example receive_then_replay :
  exists result final,
    messagePipeline.receiveAll Example.parse Example.show Example.session
      [(Example.envelope, 3000); (Example.envelope, 4000)]
    = ([(Example.envelope, Some result); (Example.envelope, None)], final)
    /\ DecryptedMessage.content result = JString (js "hello")
    /\ receiveCounter final = 1.
Proof. do 2 eexists. split; [vm_compute; reflexivity|]. split; reflexivity. Qed.

(** ** lib/offline-queue: processing, backoff and retry *)

Import offlineQueueManager.

Lemma assoc_get_set {V} k (v : V) l : assoc_get k (assoc_set k v l) = Some v.
Proof.
  induction l as [|[k' v'] l IH]; cbn.
  - now rewrite bool_decide_eq_true_2.
  - destruct (bool_decide (k' = k)) eqn:E; cbn.
    + now rewrite bool_decide_eq_true_2.
    + now rewrite E.
Qed.

Lemma assoc_get_set_ne {V} k k' (v : V) l :
  k <> k' -> assoc_get k' (assoc_set k v l) = assoc_get k' l.
Proof.
  intros Hne. induction l as [|[k0 v0] l IH]; cbn.
  - now rewrite bool_decide_eq_false_2.
  - destruct (bool_decide (k0 = k)) eqn:E; cbn.
    + apply bool_decide_eq_true in E. subst k0.
      now rewrite !bool_decide_eq_false_2.
    + now rewrite IH.
Qed.

Lemma Forall_assoc_set {V} (P : JsString * V -> Prop) k v l :
  Forall P l -> P (k, v) -> Forall P (assoc_set k v l).
Proof.
  intros Hl Hv. induction Hl as [|[k' v'] l Hx Hl IH]; cbn.
  - now repeat constructor.
  - destruct (bool_decide (k' = k)); constructor; assumption.
Qed.

Lemma Forall_assoc_get {V} (P : JsString * V -> Prop) k v l :
  Forall P l -> assoc_get k l = Some v -> P (k, v).
Proof.
  induction 1 as [|[k' v'] l Hx Hl IH]; cbn; [discriminate|].
  destruct (bool_decide (k' = k)) eqn:E.
  - apply bool_decide_eq_true in E. intros [= <-]. now subst.
  - exact IH.
Qed.

Lemma list_find_overwrite (l : list QueuedMessage.t) messageId i m m' :
  list_find (fun x => QueuedMessage.id x = messageId) l = Some (i, m) ->
  QueuedMessage.id m' = messageId ->
  list_find (fun x => QueuedMessage.id x = messageId) (<[i := m']> l) = Some (i, m').
Proof.
  intros Hfind Hid. apply list_find_Some in Hfind as (Hi & _ & Hleast).
  apply list_find_Some. split; [|split; [exact Hid|]].
  - apply list_lookup_insert_eq. eapply lookup_lt_Some, Hi.
  - intros j y Hj Hlt. rewrite list_lookup_insert_ne in Hj by lia. eauto.
Qed.

Section Lookup.
Variables (w : World.t) (userId messageId : JsString).
Variables (userMessages : list QueuedMessage.t) (index : nat) (message : QueuedMessage.t).
Hypothesis Hget :
  assoc_get userId (OfflineQueueState.messages (World.state w)) = Some userMessages.
Hypothesis Hfind :
  list_find (fun m => QueuedMessage.id m = messageId) userMessages = Some (index, message).

Lemma lookupMessage_found : lookupMessage w userId messageId = Some message.
Proof using Hget Hfind. unfold lookupMessage. rewrite Hget. cbn. now rewrite Hfind. Qed.

Lemma lookupMessage_writeMessage m' :
  QueuedMessage.id m' = messageId ->
  lookupMessage (writeMessage w userId index m') userId messageId = Some m'.
Proof using Hget Hfind.
  intros Hid. unfold lookupMessage, writeMessage. rewrite Hget. cbn.
  rewrite assoc_get_set. cbn.
  now rewrite (list_find_overwrite _ _ _ _ _ Hfind Hid).
Qed.

Lemma allWithinBudget_writeMessage m' :
  allWithinBudget w -> withinBudget m' ->
  allWithinBudget (writeMessage w userId index m').
Proof using Hget.
  unfold allWithinBudget, writeMessage. intros Hall Hm. rewrite Hget. cbn.
  apply Forall_assoc_set; [exact Hall|]. cbn.
  apply Forall_insert; [|exact Hm].
  exact (Forall_assoc_get _ _ _ _ Hall Hget).
Qed.
End Lookup.

Lemma lookupMessage_saveToStorage w u i :
  lookupMessage (saveToStorage w) u i = lookupMessage w u i.
Proof. unfold lookupMessage, saveToStorage. now destruct (World.localStorage w). Qed.

Lemma lookupMessage_writeStatus w k f u i :
  lookupMessage (writeStatus w k f) u i = lookupMessage w u i.
Proof.
  unfold lookupMessage, writeStatus.
  now destruct (OfflineQueueState.deliveryStatus (World.state w) !! k).
Qed.

Lemma allWithinBudget_saveToStorage w : allWithinBudget (saveToStorage w) <-> allWithinBudget w.
Proof. unfold allWithinBudget, saveToStorage. now destruct (World.localStorage w). Qed.

Lemma allWithinBudget_writeStatus w k f :
  allWithinBudget (writeStatus w k f) <-> allWithinBudget w.
Proof.
  unfold allWithinBudget, writeStatus.
  now destruct (OfflineQueueState.deliveryStatus (World.state w) !! k).
Qed.

Lemma lookupMessage_inv w u i m :
  lookupMessage w u i = Some m ->
  exists l k, assoc_get u (OfflineQueueState.messages (World.state w)) = Some l
              /\ list_find (fun x => QueuedMessage.id x = i) l = Some (k, m).
Proof.
  unfold lookupMessage. destruct (assoc_get _ _) as [l|]; [|discriminate]. cbn.
  destruct (list_find _ l) as [[k m']|] eqn:Hfind; [|discriminate]. cbn.
  intros [= ->]. exists l, k. now split.
Qed.

Lemma Qle_bool_false x y : Qle_bool x y = false <-> (y < x)%Q.
Proof.
  split.
  - intros H. apply Qnot_le_lt. intros Hle. apply Qle_bool_iff in Hle. congruence.
  - intros H. destruct (Qle_bool x y) eqn:E; [|reflexivity].
    apply Qle_bool_iff in E. apply Qlt_not_le in H. contradiction.
Qed.

Lemma processMessage_final env w u i m :
  lookupMessage w u i = Some m -> isFinal (QueuedMessage.status m) ->
  processMessage env w u i = Resolved (true, w).
Proof.
  intros Hl Hf. apply lookupMessage_inv in Hl as (l & k & Hget & Hfind).
  unfold processMessage. rewrite Hget, Hfind.
  now rewrite bool_decide_eq_true_2.
Qed.

Lemma processMessage_not_due env w u i m :
  lookupMessage w u i = Some m -> ~ isFinal (QueuedMessage.status m) ->
  ~ isDue env m ->
  processMessage env w u i = Resolved (false, w).
Proof.
  intros Hl Hf Hd. apply lookupMessage_inv in Hl as (l & k & Hget & Hfind).
  unfold processMessage. rewrite Hget, Hfind.
  rewrite bool_decide_eq_false_2 by exact Hf.
  destruct (Qle_bool _ _) eqn:E; [|reflexivity].
  apply Qle_bool_iff in E. contradiction.
Qed.

Lemma processMessage_exhausted env w u i m :
  lookupMessage w u i = Some m -> ~ isFinal (QueuedMessage.status m) ->
  isDue env m ->
  QueuedMessage.attempts m >= QueuedMessage.maxRetries m ->
  exists w',
    processMessage env w u i = Resolved (false, w')
    /\ lookupMessage w' u i =
         Some (QueuedMessage.set_updatedAt
                 (QueuedMessage.set_error (QueuedMessage.set_status m Failed)
                    (Some (js "Max retries exceeded")))
                 (Env.now env))
    /\ (allWithinBudget w -> withinBudget m -> allWithinBudget w').
Proof.
  intros Hl Hf Hd Ha. apply lookupMessage_inv in Hl as (l & k & Hget & Hfind).
  unfold processMessage. rewrite Hget, Hfind.
  rewrite bool_decide_eq_false_2 by exact Hf.
  apply Qle_bool_iff in Hd. rewrite Hd. cbn [negb].
  destruct (Z.geb_spec (QueuedMessage.attempts m) (QueuedMessage.maxRetries m)); [|lia].
  eexists. split; [reflexivity|]. split.
  - rewrite lookupMessage_saveToStorage.
    apply (lookupMessage_writeMessage _ _ _ _ _ _ Hget Hfind).
    apply list_find_Some in Hfind as (_ & Hid & _). exact Hid.
  - intros Hall Hm. apply allWithinBudget_saveToStorage.
    apply (allWithinBudget_writeMessage _ _ _ _ Hget); assumption.
Qed.

Lemma processMessage_attempt env w u i m :
  lookupMessage w u i = Some m -> ~ isFinal (QueuedMessage.status m) ->
  isDue env m ->
  QueuedMessage.attempts m < QueuedMessage.maxRetries m ->
  exists ok w' m',
    processMessage env w u i = Resolved (ok, w')
    /\ lookupMessage w' u i = Some m'
    /\ QueuedMessage.attempts m' = QueuedMessage.attempts m + 1
    /\ QueuedMessage.maxRetries m' = QueuedMessage.maxRetries m
    /\ ((ok = true /\ QueuedMessage.status m' = Sent
         /\ QueuedMessage.nextRetryTime m' = QueuedMessage.nextRetryTime m)
        \/ (ok = false /\ QueuedMessage.status m' = QueuedMessage.status m
            /\ QueuedMessage.attempts m' < QueuedMessage.maxRetries m'
            /\ QueuedMessage.error m' = Some (js "Network timeout")
            /\ QueuedMessage.nextRetryTime m' =
                 (inject_Z (Env.later env)
                  + getRetryDelay (QueuedMessage.attempts m') (Env.jitterDraw env))%Q))
    /\ (allWithinBudget w -> allWithinBudget w').
Proof.
  intros Hl Hf Hd Ha. apply lookupMessage_inv in Hl as (l & k & Hget & Hfind).
  unfold processMessage. rewrite Hget, Hfind.
  rewrite bool_decide_eq_false_2 by exact Hf.
  apply Qle_bool_iff in Hd. rewrite Hd. cbn [negb].
  destruct (Z.geb_spec (QueuedMessage.attempts m) (QueuedMessage.maxRetries m)); [lia|].
  pose proof Hfind as Hid. apply list_find_Some in Hid as (_ & Hid & _).
  unfold networkRequest.
  destruct (negb _ && _) eqn:Hnet.
  - do 3 eexists. split; [reflexivity|]. split.
    { rewrite lookupMessage_saveToStorage, lookupMessage_writeStatus.
      apply (lookupMessage_writeMessage _ _ _ _ _ _ Hget Hfind). exact Hid. }
    cbn. split; [reflexivity|]. split; [reflexivity|]. split.
    + right. apply andb_true_iff in Hnet as [_ Hlt]. apply Z.ltb_lt in Hlt. cbn in Hlt.
      repeat split; try reflexivity. exact Hlt.
    + intros Hall. apply allWithinBudget_saveToStorage, allWithinBudget_writeStatus.
      apply (allWithinBudget_writeMessage _ _ _ _ Hget); [assumption|].
      unfold withinBudget. cbn. lia.
  - do 3 eexists. split; [reflexivity|]. split.
    { rewrite lookupMessage_saveToStorage, lookupMessage_writeStatus.
      apply (lookupMessage_writeMessage _ _ _ _ _ _ Hget Hfind). exact Hid. }
    cbn. split; [reflexivity|]. split; [reflexivity|]. split.
    + left. repeat split; reflexivity.
    + intros Hall. apply allWithinBudget_saveToStorage, allWithinBudget_writeStatus.
      apply (allWithinBudget_writeMessage _ _ _ _ Hget); [assumption|].
      unfold withinBudget. cbn. lia.
Qed.

(** *** Backoff *)




Lemma backoff_capped n : 6 <= n -> backoff n = 60000.
Proof.
  intros Hn. unfold backoff. apply Z.min_r.
  assert (2 ^ 6 <= 2 ^ n) by (apply Z.pow_le_mono_r; lia).
  change (2 ^ 6) with 64 in *. lia.
Qed.


(** *** retryMessage *)

Lemma assoc_get_NoDup {V} k (v : V) l :
  NoDup (map fst l) -> In (k, v) l -> assoc_get k l = Some v.
Proof.
  induction l as [|[k' v'] l IH]; cbn; [contradiction|].
  intros Hnd [Heq | Hin].
  - injection Heq as -> ->. now rewrite bool_decide_eq_true_2.
  - apply NoDup_cons in Hnd as [Hfresh Hnd].
    rewrite bool_decide_eq_false_2; [now apply IH|].
    intros ->. apply Hfresh. apply list_elem_of_In.
    change k with (fst (k, v)). now apply in_map.
Qed.

Lemma resetForRetry_writes m now :
  QueuedMessage.set_error
    (QueuedMessage.set_attempts
       (QueuedMessage.set_nextRetryTime (QueuedMessage.set_status m Pending)
          (inject_Z now)) 0) None
  = resetForRetry m now.
Proof. reflexivity. Qed.

Lemma markFailed_writes m now :
  QueuedMessage.set_updatedAt
    (QueuedMessage.set_error (QueuedMessage.set_status m Failed)
       (Some (js "Max retries exceeded"))) now
  = markFailed m now.
Proof. reflexivity. Qed.

(** The loop stops at the first entry, in insertion order, whose list
    holds the id, resets the first such message of that list and hands
    over to [processMessage]; it changes nothing when there is none. *)
Lemma retryLoop_scan env w messageId entries :
  (exists before userId userMessages after index m,
      entries = before ++ (userId, userMessages) :: after
      /\ Forall (noMatch messageId) before
      /\ list_find (fun x => QueuedMessage.id x = messageId) userMessages = Some (index, m)
      /\ retryLoop env w messageId entries
         = processMessage env
             (writeMessage w userId index (resetForRetry m (Env.now env)))
             userId messageId)
  \/ (Forall (noMatch messageId) entries
      /\ retryLoop env w messageId entries = Resolved (false, w)).
Proof.
  induction entries as [|[userId userMessages] rest IH]; cbn [retryLoop].
  - right. split; [constructor | reflexivity].
  - destruct (list_find _ userMessages) as [[index m]|] eqn:Hfind.
    + left. exists [], userId, userMessages, rest, index, m.
      repeat split; [constructor | exact Hfind].
    + destruct IH as [(before & u & l & after & index & m & -> & Hb & Hf & Hr) | [Hall Hr]].
      * left. exists ((userId, userMessages) :: before), u, l, after, index, m.
        repeat split; [constructor; [exact Hfind | exact Hb] | exact Hf | exact Hr].
      * right. split; [constructor; [exact Hfind | exact Hall] | exact Hr].
Qed.

Lemma queued_iff_match w messageId :
  queued w messageId <->
  Exists (fun entry => ~ noMatch messageId entry)
         (OfflineQueueState.messages (World.state w)).
Proof.
  unfold queued, noMatch. rewrite List.Exists_exists. split.
  - intros (u & l & m & Hin & Hm & Hid). exists (u, l). split; [exact Hin|]. cbn.
    intros Hnone. eapply list_find_None in Hnone.
    rewrite List.Forall_forall in Hnone. exact (Hnone m Hm Hid).
  - intros ([u l] & Hin & Hsome). cbn in Hsome.
    destruct (list_find _ l) as [[i m]|] eqn:Hfind; [|contradiction].
    apply list_find_Some in Hfind as (Hi & Hid & _).
    exists u, l, m. repeat split; [exact Hin | | exact Hid].
    apply list_elem_of_In. eapply list_elem_of_lookup_2, Hi.
Qed.

Lemma lookupMessage_withinBudget w u i m :
  allWithinBudget w -> lookupMessage w u i = Some m -> withinBudget m.
Proof.
  intros Hall Hl. apply lookupMessage_inv in Hl as (l & k & Hget & Hfind).
  pose proof (Forall_assoc_get _ _ _ _ Hall Hget) as Hl. cbn in Hl.
  apply list_find_Some in Hfind as (Hk & _).
  rewrite Forall_lookup in Hl. exact (Hl _ _ Hk).
Qed.

Lemma isFinal_dec s : {isFinal s} + {~ isFinal s}.
Proof.
  unfold isFinal. destruct s; (left; tauto) || (right; intros [H | H]; discriminate).
Qed.

(** C8, as amended.  [processMessage] keeps every entry of the queue
    within its budget ([attempts <= maxRetries]).  On the entry it finds:
    when the status is sent or delivered it changes nothing; when the
    entry is not yet due ([nextRetryTime] after the clock) it changes
    nothing either; when the entry is due and [attempts >= maxRetries] it
    marks it failed with the error "Max retries exceeded" and leaves
    [attempts] as it is; when the entry is due and attempts remain, it
    adds exactly one to [attempts], which stays within [maxRetries], and
    the entry is sent or keeps its status with the error of the
    transport. *)
Theorem processMessage_respects_retry_budget
    (env : Env.t) (w : World.t) (userId messageId : JsString) (m : QueuedMessage.t) :
  lookupMessage w userId messageId = Some m ->
  exists ok w',
    processMessage env w userId messageId = Resolved (ok, w')
    /\ (allWithinBudget w -> allWithinBudget w')
    /\ (isFinal (QueuedMessage.status m) -> ok = true /\ w' = w)
    /\ (~ isFinal (QueuedMessage.status m) -> ~ isDue env m -> ok = false /\ w' = w)
    /\ (~ isFinal (QueuedMessage.status m) -> isDue env m ->
        QueuedMessage.attempts m >= QueuedMessage.maxRetries m ->
        ok = false
        /\ lookupMessage w' userId messageId = Some (markFailed m (Env.now env)))
    /\ (~ isFinal (QueuedMessage.status m) -> isDue env m ->
        QueuedMessage.attempts m < QueuedMessage.maxRetries m ->
        exists m',
          lookupMessage w' userId messageId = Some m'
          /\ QueuedMessage.attempts m' = QueuedMessage.attempts m + 1
          /\ QueuedMessage.maxRetries m' = QueuedMessage.maxRetries m
          /\ QueuedMessage.attempts m' <= QueuedMessage.maxRetries m'
          /\ ((ok = true /\ QueuedMessage.status m' = Sent)
              \/ (ok = false /\ QueuedMessage.status m' = QueuedMessage.status m
                  /\ QueuedMessage.error m' = Some (js "Network timeout")))).
Proof.
  intros Hl.
  destruct (isFinal_dec (QueuedMessage.status m)) as [Hf | Hf].
  { exists true, w. split; [now apply (processMessage_final env w userId messageId m)|].
    repeat split; tauto. }
  destruct (Qlt_le_dec (inject_Z (Env.now env)) (QueuedMessage.nextRetryTime m)) as [Hnd | Hd].
  { assert (Hnot : ~ isDue env m) by (unfold isDue; now apply Qlt_not_le).
    exists false, w.
    split; [now apply (processMessage_not_due env w userId messageId m)|].
    repeat split; tauto. }
  destruct (Z_lt_ge_dec (QueuedMessage.attempts m) (QueuedMessage.maxRetries m)) as [Hlt | Hge].
  - destruct (processMessage_attempt env w userId messageId m Hl Hf Hd Hlt)
      as (ok & w' & m' & Hp & Hl' & Ha & Hm & Hcases & Hinv).
    exists ok, w'. split; [exact Hp|]. split; [exact Hinv|].
    split; [tauto|]. split; [tauto|]. split; [intros; lia|].
    intros _ _ _. exists m'. split; [exact Hl'|]. split; [exact Ha|]. split; [exact Hm|].
    split; [lia|].
    destruct Hcases as [(-> & Hs & _) | (-> & Hs & _ & He & _)]; [left | right]; auto.
  - destruct (processMessage_exhausted env w userId messageId m Hl Hf Hd Hge)
      as (w' & Hp & Hl' & Hinv).
    exists false, w'. split; [exact Hp|].
    split.
    { intros Hall. apply Hinv; [exact Hall|].
      exact (lookupMessage_withinBudget _ _ _ _ Hall Hl). }
    split; [tauto|]. split; [tauto|].
    split; [intros _ _ _; split; [reflexivity | exact Hl']|].
    intros; lia.
Qed.


(** C10.  When an entry with the id is queued, [retryMessage] resets
    the first such entry, whatever its status was, to pending with no
    attempts, due now and with no error, and then runs [processMessage]
    on it: with a positive budget the entry ends with one attempt (sent,
    or pending after a transport failure), and with no budget it is
    marked failed.  When no entry has the id, it returns [false] and
    changes nothing.  ([messages] is a [Map]: its keys are distinct.) *)
Theorem retryMessage_resets_entry (env : Env.t) (w : World.t) (messageId : JsString) :
  NoDup (map fst (OfflineQueueState.messages (World.state w))) ->
  (queued w messageId ->
   exists userId index m,
     lookupMessage w userId messageId = Some m
     /\ lookupMessage (writeMessage w userId index (resetForRetry m (Env.now env)))
          userId messageId
        = Some (resetForRetry m (Env.now env))
     /\ retryMessage env w messageId
        = processMessage env
            (writeMessage w userId index (resetForRetry m (Env.now env)))
            userId messageId
     /\ exists ok w' m',
          retryMessage env w messageId = Resolved (ok, w')
          /\ lookupMessage w' userId messageId = Some m'
          /\ (0 < QueuedMessage.maxRetries m ->
              QueuedMessage.attempts m' = 1
              /\ ((ok = true /\ QueuedMessage.status m' = Sent)
                  \/ (ok = false /\ QueuedMessage.status m' = Pending)))
          /\ (QueuedMessage.maxRetries m <= 0 ->
              ok = false
              /\ m' = markFailed (resetForRetry m (Env.now env)) (Env.now env)))
  /\ (~ queued w messageId -> retryMessage env w messageId = Resolved (false, w)).
Proof.
  intros Hnd. unfold retryMessage.
  destruct (retryLoop_scan env w messageId (OfflineQueueState.messages (World.state w)))
    as [(before & u & l & after & index & m & Hentries & Hbefore & Hfind & Hr) | [Hall Hr]].
  - assert (Hget : assoc_get u (OfflineQueueState.messages (World.state w)) = Some l).
    { apply assoc_get_NoDup; [exact Hnd|]. rewrite Hentries.
      apply in_or_app. right. now left. }
    assert (Hid : QueuedMessage.id (resetForRetry m (Env.now env)) = messageId).
    { apply list_find_Some in Hfind as (_ & Hid & _). exact Hid. }
    pose proof (lookupMessage_writeMessage _ _ _ _ _ _ Hget Hfind _ Hid) as Hl1.
    split.
    + intros _. exists u, index, m.
      split; [exact (lookupMessage_found _ _ _ _ _ _ Hget Hfind)|].
      split; [exact Hl1|]. split; [exact Hr|]. rewrite Hr.
      assert (Hnf : ~ isFinal (QueuedMessage.status (resetForRetry m (Env.now env)))).
      { cbn. intros [H | H]; discriminate. }
      assert (Hdue : isDue env (resetForRetry m (Env.now env))).
      { unfold isDue. cbn. apply Qle_refl. }
      destruct (Z_lt_ge_dec 0 (QueuedMessage.maxRetries m)) as [Hpos | Hnonpos].
      * destruct (processMessage_attempt env _ u messageId _ Hl1 Hnf Hdue Hpos)
          as (ok & w' & m' & Hp & Hl' & Ha & _ & Hcases & _).
        exists ok, w', m'. split; [exact Hp|]. split; [exact Hl'|]. split; [|intros; lia].
        intros _. split; [exact Ha|].
        destruct Hcases as [(-> & Hs & _) | (-> & Hs & _)]; [left | right]; auto.
      * assert (Hge : QueuedMessage.attempts (resetForRetry m (Env.now env))
                      >= QueuedMessage.maxRetries (resetForRetry m (Env.now env)))
          by (cbn; lia).
        destruct (processMessage_exhausted env _ u messageId _ Hl1 Hnf Hdue Hge)
          as (w' & Hp & Hl' & _).
        exists false, w', (markFailed (resetForRetry m (Env.now env)) (Env.now env)).
        split; [exact Hp|]. split; [exact Hl'|]. split; [intros; lia|].
        intros _. split; reflexivity.
    + intros Hnq. exfalso. apply Hnq. apply queued_iff_match.
      rewrite Hentries. apply Exists_app. right. left.
      unfold noMatch. cbn. rewrite Hfind. discriminate.
  - split; [|intros _; exact Hr].
    intros Hq. exfalso. apply queued_iff_match in Hq.
    apply Exists_exists in Hq as (entry & Hin & Hsome).
    rewrite Forall_forall in Hall. exact (Hsome (Hall _ Hin)).
Qed.

(** *** Concrete cases *)

Lemma processMessage_respects_retry_budget_witness :
  lookupMessage (Example.world (Example.entry 5 4000 Pending)) (js "alice") (js "m1")
  = Some (Example.entry 5 4000 Pending)
  /\ exists ok w',
       processMessage Example.env (Example.world (Example.entry 5 4000 Pending))
         (js "alice") (js "m1") = Resolved (ok, w')
       /\ (allWithinBudget (Example.world (Example.entry 5 4000 Pending)) ->
           allWithinBudget w').
Proof.
  split; [reflexivity|].
  destruct (processMessage_respects_retry_budget Example.env
              (Example.world (Example.entry 5 4000 Pending)) (js "alice") (js "m1")
              (Example.entry 5 4000 Pending) eq_refl)
    as (ok & w' & Hp & Hinv & _).
  exists ok, w'. split; [exact Hp | exact Hinv].
Defined.

(** C8, as stated, fails on an entry that is not yet due: with the
    budget used up ([attempts = maxRetries = 5]) and [nextRetryTime] one
    second after the clock, [processMessage] does not mark the entry
    failed; and with attempts left ([attempts = 0]) it does not add an
    attempt.  Both calls return [false] and change nothing. *)
Lemma processMessage_defers_before_budget_check :
  let exhausted := Example.entry 5 6000 Pending in
  let fresh := Example.entry 0 6000 Pending in
  Env.now Example.env = 5000
  /\ QueuedMessage.attempts exhausted >= QueuedMessage.maxRetries exhausted
  /\ ~ isFinal (QueuedMessage.status exhausted)
  /\ processMessage Example.env (Example.world exhausted) (js "alice") (js "m1")
     = Resolved (false, Example.world exhausted)
  /\ lookupMessage (Example.world exhausted) (js "alice") (js "m1") = Some exhausted
  /\ QueuedMessage.status exhausted <> Failed
  /\ QueuedMessage.attempts fresh < QueuedMessage.maxRetries fresh
  /\ processMessage Example.env (Example.world fresh) (js "alice") (js "m1")
     = Resolved (false, Example.world fresh)
  /\ lookupMessage (Example.world fresh) (js "alice") (js "m1") = Some fresh.
Proof.
  cbv zeta. split; [reflexivity|]. split; [cbn; lia|].
  split; [intros [H | H]; discriminate|].
  split; [reflexivity|]. split; [reflexivity|]. split; [discriminate|].
  split; [cbn; lia|]. split; reflexivity.
Qed.


(** The backoff of the first attempts: 1s, 2s, 4s, 8s, 16s, 32s, then
    the cap of 60s. *)
Example backoff_table :
  map backoff [0; 1; 2; 3; 4; 5; 6; 7; 20]
  = [1000; 2000; 4000; 8000; 16000; 32000; 60000; 60000; 60000].
Proof. reflexivity. Qed.

Lemma retryMessage_resets_entry_witness :
  let w := Example.world (Example.entry 5 9000 Failed) in
  NoDup (map fst (OfflineQueueState.messages (World.state w)))
  /\ queued w (js "m1")
  /\ exists userId index m,
       lookupMessage w userId (js "m1") = Some m
       /\ retryMessage Example.env w (js "m1")
          = processMessage Example.env
              (writeMessage w userId index (resetForRetry m (Env.now Example.env)))
              userId (js "m1").
Proof.
  cbv zeta.
  assert (Hnd : NoDup (map fst (OfflineQueueState.messages
                                  (World.state (Example.world (Example.entry 5 9000 Failed)))))).
  { cbn. apply NoDup_singleton. }
  assert (Hq : queued (Example.world (Example.entry 5 9000 Failed)) (js "m1")).
  { exists (js "alice"), [Example.entry 5 9000 Failed], (Example.entry 5 9000 Failed).
    split; [left; reflexivity|]. split; [left; reflexivity | reflexivity]. }
  split; [exact Hnd|]. split; [exact Hq|].
  destruct (proj1 (retryMessage_resets_entry Example.env
                     (Example.world (Example.entry 5 9000 Failed)) (js "m1") Hnd) Hq)
    as (userId & index & m & Hl & _ & Hr & _).
  exists userId, index, m. split; [exact Hl | exact Hr].
Defined.

(** A failed entry that has used up its budget is sent at the first
    attempt of the retry when the transport does not fail. *)
Example retry_failed_entry :
  exists w',
    retryMessage Example.env (Example.world (Example.entry 5 9000 Failed)) (js "m1")
    = Resolved (true, w')
    /\ lookupMessage w' (js "alice") (js "m1")
       = Some (QueuedMessage.mk (js "m1") (js "alice") (js "c1") (js "hello")
                 (js "aGVsbG8=") (js "s1") 1000 1 5 5000 Sent None 1000 6000).
Proof. eexists. split; reflexivity. Qed.

(** ** lib/crypto and lib/session: encodings of the key material *)

(** ** More on strings and encodings *)

Lemma well_formed_app a b :
  well_formed a = true -> well_formed b = true -> well_formed (a ++ b) = true.
Proof.
  remember (length a) as n eqn:Hn. revert a Hn.
  induction n as [n IH] using lt_wf_ind. intros a Hn Ha Hb.
  destruct a as [|u t]; [exact Hb|].
  cbn [well_formed app] in *.
  destruct (is_high_surrogate u).
  - destruct t as [|l t']; [discriminate|]. cbn [app].
    apply andb_true_iff in Ha as [Hl Ht]. rewrite Hl. cbn [andb].
    apply (IH (length t')); [simpl in Hn; lia | reflexivity | exact Ht | exact Hb].
  - apply andb_true_iff in Ha as [Hu Ht]. rewrite Hu. cbn [andb].
    apply (IH (length t)); [simpl in Hn; lia | reflexivity | exact Ht | exact Hb].
Qed.

Lemma js_plain s : plain (js s).
Proof.
  unfold plain, js. induction s as [|a s IH]; cbn; constructor; [|exact IH].
  pose proof (N_ascii_bounded a). lia.
Qed.

Lemma js_well_formed s : well_formed (js s) = true.
Proof. apply plain_well_formed, js_plain. Qed.

Lemma decimal_well_formed n : well_formed (decimal n) = true.
Proof. apply js_well_formed. Qed.








Lemma decoded_base64 s : well_formed s = true -> decoded (base64 s) = s.
Proof. apply base64_roundtrip. Qed.

(** ** lib/crypto and lib/session: key material, handshake messages, the store *)

Lemma js_ltb_asym a : forall b, js_ltb a b = true -> js_ltb b a = false.
Proof.
  induction a as [|x a IH]; intros [|y b]; cbn; try discriminate; try reflexivity.
  intros H. apply orb_true_iff in H as [H | H].
  - apply Z.ltb_lt in H.
    apply orb_false_iff. split; [apply Z.ltb_ge; lia|].
    apply andb_false_iff. left. apply Z.eqb_neq. lia.
  - apply andb_true_iff in H as [He Hl]. apply Z.eqb_eq in He. subst y.
    apply orb_false_iff. split; [apply Z.ltb_irrefl|].
    rewrite Z.eqb_refl. cbn. now apply IH.
Qed.

Lemma js_ltb_total a : forall b, js_ltb a b = false -> js_ltb b a = false -> a = b.
Proof.
  induction a as [|x a IH]; intros [|y b]; cbn; try discriminate; try reflexivity.
  intros H1 H2.
  apply orb_false_iff in H1 as [Hxy H1], H2 as [Hyx H2].
  apply Z.ltb_ge in Hxy, Hyx. assert (x = y) by lia. subst y.
  rewrite Z.eqb_refl in H1, H2. cbn in H1, H2. f_equal. now apply IH.
Qed.

Lemma sort2_comm a b : sort2 a b = sort2 b a.
Proof.
  unfold sort2.
  destruct (js_ltb b a) eqn:Hba.
  - now rewrite (js_ltb_asym _ _ Hba).
  - destruct (js_ltb a b) eqn:Hab; [reflexivity|].
    now rewrite (js_ltb_total _ _ Hab Hba).
Qed.

(** The id of a session does not depend on the order of the two parties. *)
Lemma sessionIdOf_comm u1 d1 u2 d2 :
  sessionManager.sessionIdOf u1 d1 u2 d2 = sessionManager.sessionIdOf u2 d2 u1 d1.
Proof.
  unfold sessionManager.sessionIdOf.
  now rewrite (sort2_comm u1 u2), (sort2_comm d1 d2).
Qed.

(** Nor on which device goes with which user. *)
Lemma sessionIdOf_swap_devices u1 d1 u2 d2 :
  sessionManager.sessionIdOf u1 d1 u2 d2 = sessionManager.sessionIdOf u1 d2 u2 d1.
Proof.
  unfold sessionManager.sessionIdOf. now rewrite (sort2_comm d1 d2).
Qed.



(** X2.  The signature of an initiation message is its signed text and
    the secret signing key of the sender in base64: decoding it gives
    back [userId:senderDeviceId:recipientId:signed:secretKey]. *)
Theorem initiateHandshake_discloses_signing_key
    (userId senderDeviceId recipientId recipientDeviceId : JsString)
    (deviceKeys : DeviceKeys.t) (uuid rndEphemeral : JsString) (now : Z) :
  well_formed userId = true -> well_formed senderDeviceId = true ->
  well_formed recipientId = true ->
  well_formed (KeyPair.secretKey (DeviceKeys.signingKeys deviceKeys)) = true ->
  exists message,
    sessionManager.initiateHandshake userId senderDeviceId recipientId recipientDeviceId
      deviceKeys uuid rndEphemeral now = Resolved message
    /\ HandshakeMessage.senderId message = userId
    /\ HandshakeMessage.messageType message = identity_key
    /\ decoded (HandshakeMessage.signature message)
       = userId ++ js ":" ++ senderDeviceId ++ js ":" ++ recipientId
           ++ js ":signed:" ++ KeyPair.secretKey (DeviceKeys.signingKeys deviceKeys).
Proof.
  intros Hu Hd Hr Hk. eexists. split; [reflexivity|].
  split; [reflexivity|]. split; [reflexivity|].
  cbn [HandshakeMessage.signature].
  rewrite decoded_base64; [now rewrite <- !app_assoc|].
  repeat (apply well_formed_app); try assumption; apply js_well_formed.
Qed.

Lemma initiateHandshake_discloses_signing_key_witness :
  exists message,
    sessionManager.initiateHandshake (js "alice") (js "device-a") (js "bob") (js "device-b")
      Example.alice (js "m1") (js "0.9") 1000 = Resolved message
    /\ decoded (HandshakeMessage.signature message)
       = js "alice:device-a:bob:signed:" ++ Example.key "0.12".
Proof.
  destruct (initiateHandshake_discloses_signing_key
              (js "alice") (js "device-a") (js "bob") (js "device-b")
              Example.alice (js "m1") (js "0.9") 1000
              eq_refl eq_refl eq_refl eq_refl)
    as (message & Hm & _ & _ & Hs).
  exists message. split; [exact Hm | exact Hs].
Defined.

Lemma template_well_formed (o : option JsString) :
  (forall s, o = Some s -> well_formed s = true) -> well_formed (template o) = true.
Proof.
  intros H. destruct o as [s|]; cbn [template]; [now apply H | apply js_well_formed].
Qed.

(** X3.  The shared secret that [completeHandshake] stores is no
    secret: base64-decoding it gives the public keys of the exchange,
    the other side's one-time pre-key, and the caller's secret agreement
    key, three times in the clear. *)
Theorem completeHandshake_secret_is_cleartext
    (store : SessionStore) (userId1 deviceId1 userId2 deviceId2 : JsString)
    (ours : DeviceKeys.t) (theirs : X3DHBundle.t) (isInitiator : bool)
    (now : Z) (rndHeader rndChain : JsString) :
  well_formed (KeyPair.publicKey (DeviceKeys.signingKeys ours)) = true ->
  well_formed (KeyPair.secretKey (DeviceKeys.agreementKeys ours)) = true ->
  well_formed (X3DHBundle.identityKey theirs) = true ->
  well_formed (X3DHBundle.signedPreKey theirs) = true ->
  (forall k, head (X3DHBundle.oneTimePreKeys theirs) = Some k -> well_formed k = true) ->
  exists session store',
    sessionManager.completeHandshake store userId1 deviceId1 userId2 deviceId2
      ours theirs isInitiator now rndHeader rndChain = Resolved (session, store')
    /\ X3dhData.sharedSecret (SessionState.x3dhData session)
       = SessionKey.sharedSecret (SessionState.sessionKey session)
    /\ decoded (SessionKey.sharedSecret (SessionState.sessionKey session))
       = KeyPair.publicKey (DeviceKeys.signingKeys ours) ++ js ":"
           ++ X3DHBundle.identityKey theirs ++ js ":"
           ++ KeyPair.secretKey (DeviceKeys.agreementKeys ours) ++ js ":"
           ++ X3DHBundle.identityKey theirs ++ js ":"
           ++ KeyPair.publicKey (DeviceKeys.signingKeys ours) ++ js ":"
           ++ X3DHBundle.signedPreKey theirs ++ js ":"
           ++ KeyPair.secretKey (DeviceKeys.agreementKeys ours) ++ js ":"
           ++ X3DHBundle.signedPreKey theirs
           ++ template (head (X3DHBundle.oneTimePreKeys theirs))
           ++ KeyPair.secretKey (DeviceKeys.agreementKeys ours).
Proof.
  intros Hpub Hsec Hik Hspk Hotk.
  pose proof (template_well_formed _ Hotk) as Ht.
  do 2 eexists. split; [reflexivity|]. split; [reflexivity|].
  cbn [SessionState.sessionKey SessionKey.sharedSecret].
  rewrite decoded_base64; [now rewrite <- !app_assoc|].
  repeat (apply well_formed_app); try assumption; apply js_well_formed.
Qed.

Lemma completeHandshake_secret_is_cleartext_witness :
  exists session store',
    sessionManager.completeHandshake ∅ (js "alice") (js "device-a") (js "bob") (js "device-b")
      Example.alice Example.bobBundle true 1000 (js "0.42") (js "0.43")
      = Resolved (session, store')
    /\ decoded (SessionKey.sharedSecret (SessionState.sessionKey session))
       = Example.key "0.11" ++ js ":" ++ Example.key "0.21" ++ js ":"
           ++ Example.key "0.14" ++ js ":" ++ Example.key "0.21" ++ js ":"
           ++ Example.key "0.11" ++ js ":" ++ Example.key "0.25" ++ js ":"
           ++ Example.key "0.14" ++ js ":" ++ Example.key "0.25"
           ++ Example.key "0.27" ++ Example.key "0.14".
Proof.
  destruct (completeHandshake_secret_is_cleartext ∅
              (js "alice") (js "device-a") (js "bob") (js "device-b")
              Example.alice Example.bobBundle true 1000 (js "0.42") (js "0.43")
              eq_refl eq_refl eq_refl eq_refl)
    as (session & store' & Hc & _ & Hd).
  - intros k Hk. injection Hk as <-. reflexivity.
  - exists session, store'. split; [exact Hc | exact Hd].
Defined.

(** X4.  A session is stored under an id that does not depend on the
    order of the two parties: after [completeHandshake],
    [getOrCreateSession] finds the session from either side, and so does
    [retrieveSession] by its id, while every other id of the store reads
    as before. *)
Theorem session_found_from_either_side
    (store : SessionStore) (userId1 deviceId1 userId2 deviceId2 : JsString)
    (ours : DeviceKeys.t) (theirs : X3DHBundle.t) (isInitiator : bool)
    (now : Z) (rndHeader rndChain : JsString) :
  exists session store',
    sessionManager.completeHandshake store userId1 deviceId1 userId2 deviceId2
      ours theirs isInitiator now rndHeader rndChain = Resolved (session, store')
    /\ SessionState.state session = established
    /\ sessionManager.getOrCreateSession store' userId1 deviceId1 userId2 deviceId2
       = Resolved (Some session)
    /\ sessionManager.getOrCreateSession store' userId2 deviceId2 userId1 deviceId1
       = Resolved (Some session)
    /\ sessionManager.retrieveSession store' (SessionState.sessionId session)
       = Resolved (Some session)
    /\ forall sessionId, sessionId <> SessionState.sessionId session ->
         sessionManager.retrieveSession store' sessionId
         = sessionManager.retrieveSession store sessionId.
Proof.
  do 2 eexists. split; [reflexivity|]. split; [reflexivity|].
  unfold sessionManager.getOrCreateSession, sessionManager.retrieveSession.
  cbn [SessionState.sessionId].
  rewrite <- (sessionIdOf_comm userId1 deviceId1 userId2 deviceId2).
  rewrite lookup_insert_eq.
  repeat split.
  intros sessionId Hne. now rewrite lookup_insert_ne.
Qed.

(** X5.  The session id keeps the set of users and the set of devices,
    not which device is whose: a handshake between the same two users
    with the two device ids exchanged is stored under the same id and
    replaces the earlier session, which can no longer be found. *)
Theorem exchanged_devices_share_a_session
    (store : SessionStore) (userId1 deviceId1 userId2 deviceId2 : JsString)
    (keys1 keys2 : DeviceKeys.t) (bundle1 bundle2 : X3DHBundle.t) (role1 role2 : bool)
    (now1 now2 : Z) (rndHeader1 rndChain1 rndHeader2 rndChain2 : JsString) :
  exists session1 store1 session2 store2,
    sessionManager.completeHandshake store userId1 deviceId1 userId2 deviceId2
      keys1 bundle1 role1 now1 rndHeader1 rndChain1 = Resolved (session1, store1)
    /\ sessionManager.completeHandshake store1 userId1 deviceId2 userId2 deviceId1
         keys2 bundle2 role2 now2 rndHeader2 rndChain2 = Resolved (session2, store2)
    /\ SessionState.sessionId session2 = SessionState.sessionId session1
    /\ SessionState.deviceId1 session2 = deviceId2
    /\ SessionState.deviceId2 session2 = deviceId1
    /\ sessionManager.getOrCreateSession store2 userId1 deviceId1 userId2 deviceId2
       = Resolved (Some session2).
Proof.
  do 4 eexists. split; [reflexivity|]. split; [reflexivity|].
  cbn [SessionState.sessionId SessionState.deviceId1 SessionState.deviceId2].
  split; [symmetry; apply sessionIdOf_swap_devices|].
  split; [reflexivity|]. split; [reflexivity|].
  unfold sessionManager.getOrCreateSession.
  rewrite (sessionIdOf_swap_devices userId1 deviceId1 userId2 deviceId2).
  now rewrite lookup_insert_eq.
Qed.

(** The sessions that [getActiveSessionsForUser] returns are established. *)
Lemma getActiveSessionsForUser_established store userId sessions session :
  sessionManager.getActiveSessionsForUser store userId = Resolved sessions ->
  session ∈ sessions -> SessionState.state session = established.
Proof.
  unfold sessionManager.getActiveSessionsForUser.
  intros [= <-] Hin. apply list_elem_of_filter in Hin as [[_ Hs] _]. exact Hs.
Qed.

(** X6.  [rekeySession] of an id that the store does not hold returns
    null and leaves the store alone.  Of a stored session it replaces
    the chain key, sets the state to rekeying and keeps the shared
    secret and the message counter; the new chain key is the base64 text
    of the old one and the clock, so the old key is read back from it;
    and the session, still found by its id, is no longer among the
    active sessions of any user. *)
Theorem rekeySession_effect (store : SessionStore) (sessionId : JsString) (now : Z) :
  (store !! sessionId = None ->
     sessionManager.rekeySession store sessionId now = Resolved (None, store))
  /\ forall session,
       store !! sessionId = Some session ->
       exists session' store',
         sessionManager.rekeySession store sessionId now
         = Resolved (Some session', store')
         /\ SessionState.state session' = rekeying
         /\ SessionState.lastUpdated session' = now
         /\ SessionKey.sharedSecret (SessionState.sessionKey session')
            = SessionKey.sharedSecret (SessionState.sessionKey session)
         /\ receiveCounter session' = receiveCounter session
         /\ (well_formed (SessionKey.chainKey (SessionState.sessionKey session)) = true ->
             decoded (SessionKey.chainKey (SessionState.sessionKey session'))
             = SessionKey.chainKey (SessionState.sessionKey session)
                 ++ js ":evolved:" ++ decimal now)
         /\ sessionManager.retrieveSession store' sessionId = Resolved (Some session')
         /\ forall userId sessions,
              sessionManager.getActiveSessionsForUser store' userId = Resolved sessions ->
              session' ∉ sessions.
Proof.
  unfold sessionManager.rekeySession. split.
  - intros ->. reflexivity.
  - intros session ->. do 2 eexists. split; [reflexivity|].
    split; [reflexivity|]. split; [reflexivity|]. split; [reflexivity|].
    split; [reflexivity|]. split; [|split].
    + intros Hwf.
      cbn [SessionState.sessionKey SessionState.set_lastUpdated SessionState.set_state
           SessionState.set_sessionKey SessionKey.chainKey SessionKey.set_chainKey].
      apply decoded_base64.
      apply well_formed_app; [exact Hwf|].
      apply well_formed_app; [apply js_well_formed | apply decimal_well_formed].
    + unfold sessionManager.retrieveSession. now rewrite lookup_insert_eq.
    + intros userId sessions Hs Hin.
      pose proof (getActiveSessionsForUser_established _ _ _ _ Hs Hin) as He.
      discriminate He.
Qed.

Lemma rekeySession_effect_witness :
  exists session' store',
    sessionManager.rekeySession {[ js "s1" := Example.session ]} (js "s1") 2000
    = Resolved (Some session', store')
    /\ SessionState.state session' = rekeying
    /\ decoded (SessionKey.chainKey (SessionState.sessionKey session'))
       = Example.key "0.43" ++ js ":evolved:2000".
Proof.
  destruct (proj2 (rekeySession_effect {[ js "s1" := Example.session ]} (js "s1") 2000)
              Example.session (lookup_singleton_eq _ _))
    as (session' & store' & Hr & Hs & _ & _ & _ & Hd & _).
  exists session', store'. split; [exact Hr|]. split; [exact Hs|].
  exact (Hd eq_refl).
Defined.

(** X7.  [respondToHandshake] fails with a TypeError when the device has
    no pre-key.  Otherwise it answers whoever the initiation names as
    its sender: the response does not depend on anything else of the
    initiation, whose signature is never verified, and every response
    of the device offers the same one-time pre-key, the first of its
    list. *)
Theorem respondToHandshake_offer
    (initiation : HandshakeMessage.t) (userId deviceId : JsString)
    (deviceKeys : DeviceKeys.t) (uuidMessage uuidBundle : JsString) (now : Z) :
  (DeviceKeys.preKeys deviceKeys = [] ->
     sessionManager.respondToHandshake initiation userId deviceId deviceKeys
       uuidMessage uuidBundle now = Rejected TypeError)
  /\ (DeviceKeys.preKeys deviceKeys <> [] ->
      exists response,
        sessionManager.respondToHandshake initiation userId deviceId deviceKeys
          uuidMessage uuidBundle now = Resolved response
        /\ HandshakeMessage.messageType response = prekey_bundle
        /\ HandshakeMessage.recipientId response = HandshakeMessage.senderId initiation
        /\ assoc_get (js "oneTimePreKey") (HandshakeMessage.payload response)
           = Some (head (map OneTimeKey.publicKey (DeviceKeys.oneTimeKeys deviceKeys)))
        /\ (forall initiation',
              HandshakeMessage.senderId initiation' = HandshakeMessage.senderId initiation ->
              sessionManager.respondToHandshake initiation' userId deviceId deviceKeys
                uuidMessage uuidBundle now = Resolved response)
        /\ forall initiation' uuidMessage' uuidBundle' now',
             exists response',
               sessionManager.respondToHandshake initiation' userId deviceId deviceKeys
                 uuidMessage' uuidBundle' now' = Resolved response'
               /\ assoc_get (js "oneTimePreKey") (HandshakeMessage.payload response')
                  = assoc_get (js "oneTimePreKey") (HandshakeMessage.payload response)
               /\ HandshakeMessage.signature response'
                  = HandshakeMessage.signature response).
Proof.
  unfold sessionManager.respondToHandshake, sessionManager.generateX3DHBundle.
  split.
  - intros ->. reflexivity.
  - destruct (DeviceKeys.preKeys deviceKeys) as [|preKey rest]; [congruence|].
    intros _. eexists. split; [reflexivity|].
    split; [reflexivity|]. split; [reflexivity|]. split; [reflexivity|]. split.
    + intros initiation' Hs. cbn. now rewrite Hs.
    + intros initiation' uuidMessage' uuidBundle' now'.
      eexists. split; [reflexivity|]. split; reflexivity.
Qed.

Lemma respondToHandshake_offer_witness :
  DeviceKeys.preKeys Example.bob <> []
  /\ exists response,
       sessionManager.respondToHandshake
         (HandshakeMessage.mk (js "m1") identity_key (js "alice") (js "device-a")
            (js "bob") [] 1000 [])
         (js "bob") (js "device-b") Example.bob (js "m2") (js "b1") 2000
       = Resolved response
       /\ assoc_get (js "oneTimePreKey") (HandshakeMessage.payload response)
          = Some (Some (Example.key "0.27")).
Proof.
  assert (H : DeviceKeys.preKeys Example.bob <> []) by discriminate.
  split; [exact H|].
  destruct (proj2 (respondToHandshake_offer
                     (HandshakeMessage.mk (js "m1") identity_key (js "alice")
                        (js "device-a") (js "bob") [] 1000 [])
                     (js "bob") (js "device-b") Example.bob (js "m2") (js "b1") 2000) H)
    as (response & Hr & _ & _ & Ho & _).
  exists response. split; [exact Hr | exact Ho].
Defined.

(** X8.  The acknowledgement that [sendHandshakeComplete] builds names
    the id under which [completeHandshake] stored the session, whichever
    of the two parties sends it; its signature is the same constant
    text for every sender and every session. *)
Theorem sendHandshakeComplete_names_stored_session
    (store : SessionStore) (userId deviceId recipientId recipientDeviceId : JsString)
    (ours : DeviceKeys.t) (theirs : X3DHBundle.t) (isInitiator : bool)
    (now : Z) (rndHeader rndChain : JsString)
    (sessionKey sessionKey' : SessionKey.t) (uuid uuid' : JsString) (now' now'' : Z) :
  exists session store' message reply,
    sessionManager.completeHandshake store userId deviceId recipientId recipientDeviceId
      ours theirs isInitiator now rndHeader rndChain = Resolved (session, store')
    /\ sessionManager.sendHandshakeComplete userId deviceId recipientId recipientDeviceId
         sessionKey uuid now' = Resolved message
    /\ sessionManager.sendHandshakeComplete recipientId recipientDeviceId userId deviceId
         sessionKey' uuid' now'' = Resolved reply
    /\ assoc_get (js "sessionId") (HandshakeMessage.payload message)
       = Some (Some (SessionState.sessionId session))
    /\ assoc_get (js "sessionId") (HandshakeMessage.payload reply)
       = Some (Some (SessionState.sessionId session))
    /\ store' !! SessionState.sessionId session = Some session
    /\ HandshakeMessage.signature message = base64 (js "handshake-complete-ack")
    /\ HandshakeMessage.signature reply = HandshakeMessage.signature message.
Proof.
  do 4 eexists. split; [reflexivity|]. split; [reflexivity|]. split; [reflexivity|].
  cbn [SessionState.sessionId HandshakeMessage.payload HandshakeMessage.signature].
  split; [reflexivity|]. split.
  - rewrite (sort2_comm recipientId userId), (sort2_comm recipientDeviceId deviceId).
    reflexivity.
  - split; [apply lookup_insert_eq|]. split; reflexivity.
Qed.

(** ** lib/message-pipeline: the send path *)

Section SendPath.

Variable JSON_parse : JsString -> Promise JsValue.
Variable value_toString : JsValue -> Promise JsString.
Variable JSON_stringify : JsValue -> JsString.

Local Abbreviation encrypt := (messagePipeline.encryptMessage JSON_stringify).
Local Abbreviation decrypt := (messagePipeline.decryptMessage JSON_parse value_toString).
(** [encryptMessage] has no failing step: it returns an envelope with
    the next counter and leaves the session at that counter. *)
Lemma encryptMessage_counter plaintext session now uuid rndNonce :
  exists e session',
    encrypt plaintext session now uuid rndNonce = Resolved (Some e, session')
    /\ EncryptedMessage.messageCounter e = receiveCounter session + 1
    /\ receiveCounter session' = receiveCounter session + 1
    /\ EncryptedMessage.ciphertext e
       = base64 (JSON_stringify (messagePipeline.payloadObject plaintext now uuid))
    /\ SessionState.sessionId session' = SessionState.sessionId session.
Proof. do 2 eexists. repeat split. Qed.






(** X10.  One counter serves both directions of a session.  When both
    sides send before they receive, the envelope of the side that has
    counted no more than the other is dropped as a replay, and with
    equal counters, as after a handshake, each side drops the other's
    envelope. *)
Theorem crossing_messages_are_dropped
    (plaintextA plaintextB : PlaintextMessage.t) (sessionA sessionB : SessionState.t)
    (nowA nowB : Z) (uuidA uuidB rndA rndB : JsString) (now : Z) :
  receiveCounter sessionB <= receiveCounter sessionA ->
  exists envelopeA sessionA' envelopeB sessionB',
    encrypt plaintextA sessionA nowA uuidA rndA = Resolved (Some envelopeA, sessionA')
    /\ encrypt plaintextB sessionB nowB uuidB rndB = Resolved (Some envelopeB, sessionB')
    /\ decrypt envelopeB sessionA' now = Resolved (None, sessionA')
    /\ (receiveCounter sessionA = receiveCounter sessionB ->
        decrypt envelopeA sessionB' now = Resolved (None, sessionB')).
Proof.
  intros Hle.
  destruct (encryptMessage_counter plaintextA sessionA nowA uuidA rndA)
    as (eA & sA' & HeA & HcA & HsA & _).
  destruct (encryptMessage_counter plaintextB sessionB nowB uuidB rndB)
    as (eB & sB' & HeB & HcB & HsB & _).
  exists eA, sA', eB, sB'. split; [exact HeA|]. split; [exact HeB|]. split.
  - unfold messagePipeline.decryptMessage.
    fold (receiveCounter sA').
    replace (_ <=? _) with true; [reflexivity|].
    symmetry. apply Z.leb_le. lia.
  - intros Heq. unfold messagePipeline.decryptMessage.
    fold (receiveCounter sB').
    replace (_ <=? _) with true; [reflexivity|].
    symmetry. apply Z.leb_le. lia.
Qed.


End SendPath.


Lemma crossing_messages_are_dropped_witness :
  receiveCounter Example.session <= receiveCounter Example.session
  /\ exists envelopeA sessionA' envelopeB sessionB',
       messagePipeline.encryptMessage Example.stringify (Example.plaintext (js "hello"))
         Example.session 2000 (js "m1") (js "0.51") = Resolved (Some envelopeA, sessionA')
       /\ messagePipeline.encryptMessage Example.stringify (Example.plaintext (js "hi"))
            Example.session 2500 (js "m2") (js "0.52") = Resolved (Some envelopeB, sessionB')
       /\ messagePipeline.decryptMessage Example.parse Example.show envelopeB sessionA' 3000
          = Resolved (None, sessionA')
       /\ messagePipeline.decryptMessage Example.parse Example.show envelopeA sessionB' 3000
          = Resolved (None, sessionB').
Proof.
  split; [apply Z.le_refl|].
  destruct (crossing_messages_are_dropped Example.parse Example.show Example.stringify
              (Example.plaintext (js "hello")) (Example.plaintext (js "hi"))
              Example.session Example.session 2000 2500 (js "m1") (js "m2")
              (js "0.51") (js "0.52") 3000 (Z.le_refl 0))
    as (eA & sA' & eB & sB' & HA & HB & HdB & HdA).
  exists eA, sA', eB, sB'. split; [exact HA|]. split; [exact HB|].
  split; [exact HdB | exact (HdA eq_refl)].
Defined.


(** The queue after the push of [queueMessageForDelivery] and the
    splice of [sendMessage]. *)
Lemma delete_pushed {A} (l : list A) (x : A) : delete (length l) (l ++ [x]) = l.
Proof. induction l as [|y l IH]; [reflexivity|]. cbn. f_equal. exact IH. Qed.


Lemma entries_get_set_ne {K V} `{EqDecision K} (k k' : K) (v : V) l :
  k <> k' -> entries_get k' (entries_set k v l) = entries_get k' l.
Proof.
  intros Hne. induction l as [|[k0 v0] l IH]; cbn.
  - now rewrite bool_decide_eq_false_2.
  - destruct (bool_decide (k0 = k)) eqn:E; cbn.
    + apply bool_decide_eq_true in E. subst k0.
      now rewrite !bool_decide_eq_false_2.
    + now rewrite IH.
Qed.

Section Outgoing.

Variable JSON_stringify : JsValue -> JsString.

Local Abbreviation outgoing := (messagePipeline.processOutgoingMessage JSON_stringify).

(** The session that [processOutgoingMessage] looks up. *)
Local Abbreviation sessionOf w plaintext :=
  (PipelineWorld.sessionStore w
     !! sessionManager.sessionIdOf
          (PlaintextMessage.senderId plaintext) (PlaintextMessage.senderDeviceId plaintext)
          (PlaintextMessage.recipientId plaintext)
          (PlaintextMessage.recipientDeviceId plaintext)).

(** X12.  [processOutgoingMessage] resolves on every input and leaves
    the pipeline object as it found it: no message stays in the queue,
    so the statistics of the pipeline never change.  It returns null
    exactly when the message is not acceptable or no session of the two
    devices is stored; it then changes nothing at all, and it performs
    no handshake. *)
Theorem processOutgoingMessage_outcome
    (w : PipelineWorld.t) (plaintext : PlaintextMessage.t) (senderDeviceKeys : DeviceKeys.t)
    (now : Z) (uuidPayload uuidStored rndNonce : JsString) :
  exists result w',
    outgoing w plaintext senderDeviceKeys now uuidPayload uuidStored rndNonce
    = Resolved (result, w')
    /\ PipelineWorld.pipeline w' = PipelineWorld.pipeline w
    /\ messagePipeline.getStats (PipelineWorld.pipeline w')
       = messagePipeline.getStats (PipelineWorld.pipeline w)
    /\ (result = None <-> ~ acceptable plaintext \/ sessionOf w plaintext = None)
    /\ (result = None -> w' = w).
Proof.
  unfold messagePipeline.processOutgoingMessage.
  destruct (validateMessage_total plaintext) as [Hv | Hv]; rewrite Hv.
  2:{ exists None, w. split; [reflexivity|]. split; [reflexivity|].
      split; [reflexivity|]. split; [|reflexivity].
      split; [|reflexivity]. intros _. left. now apply validateMessage_false_iff. }
  assert (Hacc : acceptable plaintext) by now apply validateMessage_true_iff.
  unfold messagePipeline.ensureSessionEstablished, sessionManager.getOrCreateSession.
  cbn [mbind promise_bind].
  destruct (sessionOf w plaintext) as [session|] eqn:Hs.
  2:{ exists None, w. split; [reflexivity|]. split; [reflexivity|].
      split; [reflexivity|]. split; [|reflexivity].
      split; [|reflexivity]. intros _. now right. }
  cbn. rewrite delete_pushed.
  eexists _, _. split; [reflexivity|].
  split; [now destruct w as [[]]|]. split; [now destruct w as [[]]|].
  split; [|discriminate].
  split; [discriminate|]. intros [H | H]; [contradiction | discriminate].
Qed.


End Outgoing.


(** ** lib/message-pipeline: receipts *)

Lemma list_find_insert_found {A} (P : A -> Prop) `{forall x, Decision (P x)}
    (l : list A) i m m' :
  list_find P l = Some (i, m) -> P m' -> list_find P (<[i := m']> l) = Some (i, m').
Proof.
  intros Hfind Hm'. apply list_find_Some in Hfind as (Hi & _ & Hleast).
  apply list_find_Some. split; [|split; [exact Hm'|]].
  - apply list_lookup_insert_eq. eapply lookup_lt_Some, Hi.
  - intros j y Hj Hlt. rewrite list_lookup_insert_ne in Hj by lia. eauto.
Qed.

(** Replacing an element by one that the predicate judges alike does
    not change which position is found. *)
Lemma list_find_insert_alike {A} (P : A -> Prop) `{forall x, Decision (P x)}
    (l : list A) i m m' :
  l !! i = Some m -> (P m <-> P m') ->
  fst <$> list_find P (<[i := m']> l) = fst <$> list_find P l
  /\ forall j x, j <> i -> list_find P l = Some (j, x) ->
       list_find P (<[i := m']> l) = Some (j, x).
Proof.
  revert i. induction l as [|y l IH]; intros [|i] Hi Halike; try discriminate.
  - cbn in Hi. injection Hi as ->. cbn.
    destruct (decide (P m)) as [Hm|Hm], (decide (P m')) as [Hm'|Hm']; try tauto.
    split; [reflexivity|]. intros j x Hj [= <- _]. contradiction.
  - cbn in Hi. cbn. destruct (decide (P y)) as [Hy|Hy].
    + split; [reflexivity|]. intros j x Hj Hf. exact Hf.
    + destruct (IH i Hi Halike) as [IH1 IH2]. split.
      * destruct (list_find P (<[i:=m']> l)) as [[]|], (list_find P l) as [[]|];
          cbn in *; congruence.
      * intros j x Hj Hf.
        destruct (list_find P l) as [[j0 x0]|] eqn:Hl; [|discriminate].
        cbn in Hf. injection Hf as <- <-.
        pose proof (IH2 j0 x0 ltac:(lia) eq_refl) as E.
        unfold insert in E. cbn in E. unfold insert. cbn. now rewrite E.
Qed.

Lemma findMessage_markMessage messageId status entries :
  findMessage messageId (markMessage messageId status entries)
  = (fun m => Message.set_status m status) <$> findMessage messageId entries.
Proof.
  induction entries as [|[conversationId messages] rest IH]; [reflexivity|].
  cbn [markMessage findMessage].
  destruct (list_find _ messages) as [[index m]|] eqn:Hfind.
  - cbn [findMessage].
    rewrite (list_find_insert_found _ _ _ _ (Message.set_status m status) Hfind).
    + reflexivity.
    + apply list_find_Some in Hfind as (_ & Hid & _). exact Hid.
  - cbn [findMessage]. rewrite Hfind. exact IH.
Qed.

Lemma markMessage_absent messageId status entries :
  findMessage messageId entries = None -> markMessage messageId status entries = entries.
Proof.
  induction entries as [|[conversationId messages] rest IH]; [reflexivity|].
  cbn [markMessage findMessage].
  destruct (list_find _ messages) as [[index m]|]; [discriminate|].
  intros Hnone. now rewrite IH.
Qed.

Lemma findMessage_markMessage_ne messageId other status entries :
  other <> messageId ->
  findMessage other (markMessage messageId status entries) = findMessage other entries.
Proof.
  intros Hne.
  induction entries as [|[conversationId messages] rest IH]; [reflexivity|].
  cbn [markMessage].
  destruct (list_find (fun m => Message.messageId m = messageId) messages)
    as [[index m]|] eqn:Hfind.
  - cbn [findMessage].
    apply list_find_Some in Hfind as (Hi & Hid & _).
    destruct (list_find_insert_alike (fun x => Message.messageId x = other)
                messages index m (Message.set_status m status) Hi) as [Hfst Hother].
    { cbn. tauto. }
    destruct (list_find (fun x => Message.messageId x = other) messages)
      as [[j x]|] eqn:Ho.
    + assert (j <> index).
      { intros ->. apply list_find_Some in Ho as (Hj & Hjid & _).
        rewrite Hi in Hj. injection Hj as <-. congruence. }
      now rewrite (Hother j x).
    + destruct (list_find _ (<[index:=_]> messages)) as [[]|]; [discriminate|].
      reflexivity.
  - cbn [findMessage].
    destruct (list_find (fun x => Message.messageId x = other) messages) as [[]|];
      [reflexivity | exact IH].
Qed.

(** X14.  A read receipt is recorded under the id even when no stored
    message has it, and then changes no message.  Both receipts mark the
    first message with the id, over the conversations in insertion
    order, and no other message; a delivery receipt that arrives after
    the read receipt takes the message back from read to delivered,
    while the read receipt stays on record. *)
Theorem receipts_mark_first_match
    (pipeline : PipelineState.t) (database : Db.t)
    (messageId readBy deviceId recipientId recipientDeviceId : JsString) (now : Z) :
  exists afterRead afterDelivery,
    messagePipeline.processReadReceipt database messageId readBy deviceId now
    = Resolved afterRead
    /\ messagePipeline.processDeliveryReceipt pipeline afterRead messageId
         recipientId recipientDeviceId = Resolved afterDelivery
    /\ Db.receipts afterRead !! messageId
       = Some (default [] (Db.receipts database !! messageId)
               ++ [ReadReceipt.mk messageId readBy deviceId now])
    /\ Db.receipts afterDelivery = Db.receipts afterRead
    /\ findMessage messageId (Db.messages afterRead)
       = (fun m => Message.set_status m MsRead)
           <$> findMessage messageId (Db.messages database)
    /\ findMessage messageId (Db.messages afterDelivery)
       = (fun m => Message.set_status m MsDelivered)
           <$> findMessage messageId (Db.messages database)
    /\ (findMessage messageId (Db.messages database) = None ->
        Db.messages afterDelivery = Db.messages database)
    /\ forall other, other <> messageId ->
         findMessage other (Db.messages afterDelivery)
         = findMessage other (Db.messages database).
Proof.
  do 2 eexists. split; [reflexivity|]. split; [reflexivity|].
  cbn [Db.receipts Db.messages Db.set_messages Db.set_receipts ReadReceipt.messageId].
  split; [apply lookup_insert_eq|]. split; [reflexivity|].
  split; [apply findMessage_markMessage|].
  split; [|split].
  - rewrite !findMessage_markMessage.
    now destruct (findMessage messageId (Db.messages database)).
  - intros Hnone. now rewrite !markMessage_absent by (rewrite ?markMessage_absent; assumption).
  - intros other Hne. now rewrite !findMessage_markMessage_ne.
Qed.

(** ** lib/offline-queue: what the operations keep *)

Lemma persisted_saveToStorage w : persisted (saveToStorage w).
Proof.
  unfold persisted, saveToStorage.
  destruct (World.localStorage w) eqn:E; cbn; [reflexivity | now rewrite E].
Qed.

Lemma saveToStorage_state w : World.state (saveToStorage w) = World.state w.
Proof. unfold saveToStorage. now destruct (World.localStorage w). Qed.

Lemma writeStatus_messages w k f :
  OfflineQueueState.messages (World.state (writeStatus w k f))
  = OfflineQueueState.messages (World.state w).
Proof.
  unfold writeStatus. now destruct (OfflineQueueState.deliveryStatus (World.state w) !! k).
Qed.

Lemma writeStatus_flags w k f : flags (writeStatus w k f) = flags w.
Proof.
  unfold writeStatus, flags.
  now destruct (OfflineQueueState.deliveryStatus (World.state w) !! k).
Qed.

Lemma writeMessage_flags w u k m : flags (writeMessage w u k m) = flags w.
Proof.
  unfold writeMessage, flags.
  now destruct (assoc_get u (OfflineQueueState.messages (World.state w))).
Qed.

Lemma saveToStorage_flags w : flags (saveToStorage w) = flags w.
Proof. unfold flags. now rewrite saveToStorage_state. Qed.

(** [processMessage] resolves on every input. *)
Lemma processMessage_total env w u i :
  exists ok w', processMessage env w u i = Resolved (ok, w').
Proof.
  unfold processMessage.
  destruct (assoc_get _ _) as [l|]; [|eauto].
  destruct (list_find _ l) as [[k m]|]; [|eauto].
  destruct (bool_decide _); [eauto|].
  destruct (negb _); [eauto|].
  destruct (_ >=? _); [eauto|].
  destruct (networkRequest _ _); eauto.
Qed.

(** One call either returns at a guard and changes nothing, or rewrites
    the one message it found and saves the queue. *)
Lemma processMessage_effect env w u i ok w' :
  processMessage env w u i = Resolved (ok, w') ->
  (w' = w
   /\ ((lookupMessage w u i = None /\ ok = false)
       \/ exists m, lookupMessage w u i = Some m
                    /\ ((isFinal (QueuedMessage.status m) /\ ok = true)
                        \/ (~ isFinal (QueuedMessage.status m) /\ ~ isDue env m
                            /\ ok = false))))
  \/ exists l k m m',
       assoc_get u (OfflineQueueState.messages (World.state w)) = Some l
       /\ list_find (fun x => QueuedMessage.id x = i) l = Some (k, m)
       /\ attempted env m m'
       /\ OfflineQueueState.messages (World.state w')
          = assoc_set u (<[k := m']> l) (OfflineQueueState.messages (World.state w))
       /\ flags w' = flags w
       /\ persisted w'
       /\ (ok = true <-> QueuedMessage.status m' = Sent).
Proof.
  unfold processMessage, lookupMessage.
  destruct (assoc_get u _) as [l|] eqn:Hget.
  2:{ intros [= <- <-]. left. split; [reflexivity|]. now left. }
  cbn [mbind option_bind].
  destruct (list_find _ l) as [[k m]|] eqn:Hfind.
  2:{ intros [= <- <-]. left. split; [reflexivity|]. now left. }
  cbn [fmap option_fmap option_map snd].
  pose proof Hfind as Hid. apply list_find_Some in Hid as (Hk & Hid & _).
  destruct (bool_decide _) eqn:Hfinal.
  { apply bool_decide_eq_true in Hfinal. intros [= <- <-]. left.
    split; [reflexivity|]. right. exists m. split; [reflexivity|]. now left. }
  apply bool_decide_eq_false in Hfinal.
  destruct (Qle_bool _ _) eqn:Hdue; cbn [negb].
  2:{ intros [= <- <-]. left. split; [reflexivity|]. right. exists m.
      split; [reflexivity|]. right. split; [exact Hfinal|]. split; [|reflexivity].
      unfold isDue. intros Hd. apply Qle_bool_iff in Hd. congruence. }
  apply Qle_bool_iff in Hdue.
  destruct (Z.geb_spec (QueuedMessage.attempts m) (QueuedMessage.maxRetries m)) as [Hge|Hlt].
  { intros [= <- <-]. right. exists l, k, m, (markFailed m (Env.now env)).
    split; [reflexivity|]. split; [exact Hfind|]. split.
    { unfold attempted. cbn. repeat split; try assumption. left. split; [lia | reflexivity]. }
    split.
    { rewrite saveToStorage_state. unfold writeMessage. rewrite Hget. reflexivity. }
    split; [now rewrite saveToStorage_flags, writeMessage_flags|].
    split; [apply persisted_saveToStorage|].
    cbn. split; discriminate. }
  unfold networkRequest.
  destruct (negb _ && _) eqn:Hnet.
  - intros [= <- <-]. right. do 4 eexists.
    split; [reflexivity|]. split; [exact Hfind|]. split.
    2:{ split.
        { rewrite saveToStorage_state, writeStatus_messages. unfold writeMessage.
          rewrite Hget. reflexivity. }
        split; [now rewrite saveToStorage_flags, writeStatus_flags, writeMessage_flags|].
        split; [apply persisted_saveToStorage|].
        cbn. split; [discriminate|]. intros Hs. exfalso. apply Hfinal. now left. }
    unfold attempted. cbn. repeat split; try assumption. right.
    split; [exact Hlt|]. split; [reflexivity|]. right. split; [reflexivity|].
    apply andb_true_iff in Hnet as [_ Hn]. apply Z.ltb_lt in Hn. exact Hn.
  - intros [= <- <-]. right. do 4 eexists.
    split; [reflexivity|]. split; [exact Hfind|]. split.
    2:{ split.
        { rewrite saveToStorage_state, writeStatus_messages. unfold writeMessage.
          rewrite Hget. reflexivity. }
        split; [now rewrite saveToStorage_flags, writeStatus_flags, writeMessage_flags|].
        split; [apply persisted_saveToStorage|].
        cbn. split; reflexivity. }
    unfold attempted. cbn. repeat split; try assumption. right.
    split; [exact Hlt|]. split; [reflexivity|]. now left.
Qed.

Lemma allMessages_step (P : QueuedMessage.t -> Prop) env w u i ok w' :
  (forall m m', P m -> attempted env m m' -> P m') ->
  allMessages P w -> processMessage env w u i = Resolved (ok, w') -> allMessages P w'.
Proof.
  intros Hstep Hall Hp.
  destruct (processMessage_effect _ _ _ _ _ _ Hp)
    as [[-> _] | (l & k & m & m' & Hget & Hfind & Hatt & Hmsgs & _)]; [exact Hall|].
  unfold allMessages in *. rewrite Hmsgs.
  pose proof (Forall_assoc_get _ _ _ _ Hall Hget) as Hl. cbn in Hl.
  apply Forall_assoc_set; [exact Hall|]. cbn.
  apply Forall_insert; [exact Hl|].
  apply list_find_Some in Hfind as (Hk & _).
  rewrite Forall_lookup in Hl. exact (Hstep m m' (Hl _ _ Hk) Hatt).
Qed.

Lemma map_assoc_set_same {V B} (f : JsString * V -> B) u (v v' : V) l :
  assoc_get u l = Some v -> f (u, v') = f (u, v) ->
  map f (assoc_set u v' l) = map f l.
Proof.
  intros Hget Hf. induction l as [|[k x] l IH]; [discriminate|].
  cbn in *. destruct (bool_decide (k = u)) eqn:E.
  - apply bool_decide_eq_true in E. subst k. injection Hget as ->.
    cbn. now rewrite Hf.
  - cbn. now rewrite IH.
Qed.

Lemma map_insert_same {A B} (f : A -> B) (l : list A) k m m' :
  l !! k = Some m -> f m' = f m -> map f (<[k := m']> l) = map f l.
Proof.
  intros Hk Hf. change (f <$> <[k:=m']> l = f <$> l).
  rewrite list_fmap_insert, Hf.
  apply list_insert_id. rewrite list_lookup_fmap, Hk. reflexivity.
Qed.

Lemma queueShape_step env w u i ok w' :
  processMessage env w u i = Resolved (ok, w') -> queueShape w' = queueShape w.
Proof.
  intros Hp.
  destruct (processMessage_effect _ _ _ _ _ _ Hp)
    as [[-> _] | (l & k & m & m' & Hget & Hfind & Hatt & Hmsgs & _)]; [reflexivity|].
  unfold queueShape. rewrite Hmsgs.
  apply map_assoc_set_same with (v := l); [exact Hget|]. cbn. f_equal.
  apply list_find_Some in Hfind as (Hk & _).
  apply map_insert_same with (m := m); [exact Hk|]. apply Hatt.
Qed.

Lemma flags_step env w u i ok w' :
  processMessage env w u i = Resolved (ok, w') -> flags w' = flags w.
Proof.
  intros Hp.
  destruct (processMessage_effect _ _ _ _ _ _ Hp)
    as [[-> _] | (l & k & m & m' & _ & _ & _ & _ & Hf & _)]; [reflexivity | exact Hf].
Qed.

Lemma persisted_step env w u i ok w' :
  persisted w -> processMessage env w u i = Resolved (ok, w') -> persisted w'.
Proof.
  intros Hw Hp.
  destruct (processMessage_effect _ _ _ _ _ _ Hp)
    as [[-> _] | (l & k & m & m' & _ & _ & _ & _ & _ & Hs & _)]; assumption.
Qed.

Lemma withinBudget_attempted env m m' : withinBudget m -> attempted env m m' -> withinBudget m'.
Proof.
  unfold withinBudget, attempted.
  intros Hm (_ & Hmax & _ & _ & [[_ ->] | (Hlt & Hatt & _)]); cbn; lia.
Qed.

(** The budget branch is never taken on a sendable message, and a
    sendable message stays sendable: the simulated request cannot fail
    on the last attempt that the budget allows. *)
Lemma sendable_attempted env m m' : sendable m -> attempted env m m' -> sendable m'.
Proof.
  unfold sendable, attempted.
  intros (Hnf & Hmax & Hs) (_ & Hmax' & Hfinal & _ & Hcase).
  destruct Hs as [Hlt | Hf]; [|contradiction].
  destruct Hcase as [[Hge _] | (_ & Hatt & [Hsent | [Hsame Hlt']])]; [lia | |].
  - rewrite Hsent, Hmax'. split; [discriminate|]. split; [exact Hmax|].
    right. now left.
  - rewrite Hsame, Hmax'. split; [exact Hnf|]. split; [exact Hmax|].
    left. lia.
Qed.

(** *** The loops of [processPendingMessages] *)

Section Drain.

(** A property of the queue that every call of [processMessage] keeps. *)
Variable I : World.t -> Prop.
Hypothesis I_step : forall env w u i ok w',
  I w -> processMessage env w u i = Resolved (ok, w') -> I w'.

Lemma drainMessages_keeps envs uid remaining : forall index calls w,
  I w ->
  exists calls' w',
    drainMessages envs uid remaining index calls w = Resolved (calls', w') /\ I w'.
Proof using I_step.
  induction remaining as [|remaining IH]; intros index calls w Hw; cbn [drainMessages].
  - eauto.
  - destruct (_ !! index) as [message|]; [|eauto].
    destruct (bool_decide _); [|apply IH, Hw].
    destruct (processMessage_total (envs calls) w uid (QueuedMessage.id message))
      as (ok & w1 & Hp).
    rewrite Hp. cbn [mbind promise_bind snd].
    apply IH. eapply I_step; [exact Hw | exact Hp].
Qed.

Lemma drainUsers_keeps envs users : forall calls w,
  I w ->
  exists calls' w', drainUsers envs users calls w = Resolved (calls', w') /\ I w'.
Proof using I_step.
  induction users as [|uid rest IH]; intros calls w Hw; cbn [drainUsers].
  - eauto.
  - destruct (drainMessages_keeps envs uid
                (length (default [] (assoc_get uid
                   (OfflineQueueState.messages (World.state w))))) 0 calls w Hw)
      as (calls1 & w1 & Hd & Hw1).
    rewrite Hd. cbn [mbind promise_bind fst snd]. apply IH, Hw1.
Qed.

End Drain.

(** *** Statistics *)

Lemma countStatus_partition messages :
  Z.of_nat (length messages)
  = countStatus Pending messages + countStatus Sending messages
    + countStatus Sent messages + countStatus Delivered messages
    + countStatus Failed messages.
Proof.
  unfold countStatus. induction messages as [|m l IH]; [reflexivity|].
  rewrite !filter_cons. cbn [length].
  destruct (QueuedMessage.status m);
    repeat case_decide; try congruence; cbn [length]; lia.
Qed.

Lemma countStatus_pending messages :
  Z.of_nat (length (filter (fun m => QueuedMessage.status m = Pending
                                     \/ QueuedMessage.status m = Sending) messages))
  = countStatus Pending messages + countStatus Sending messages.
Proof.
  unfold countStatus. induction messages as [|m l IH]; [reflexivity|].
  rewrite !filter_cons.
  destruct (QueuedMessage.status m);
    repeat case_decide; try (exfalso; intuition congruence); cbn [length]; lia.
Qed.

(** X15.  The statistics of the queue add up: every message counted in
    [total] is counted under exactly one of the five statuses, for one
    user as for all users, and what [getPendingMessages] returns for a
    user are the messages counted as pending or sending. *)
Theorem getQueueStats_adds_up (w : World.t) (userId : option JsString) :
  QueueStats.total (getQueueStats w userId)
  = QueueStats.pending (getQueueStats w userId)
    + QueueStats.sending (getQueueStats w userId)
    + QueueStats.sent (getQueueStats w userId)
    + QueueStats.delivered (getQueueStats w userId)
    + QueueStats.failed (getQueueStats w userId)
  /\ 0 <= QueueStats.failed (getQueueStats w userId)
     <= QueueStats.total (getQueueStats w userId)
  /\ forall user, userId = Some user -> user <> [] ->
       Z.of_nat (length (getPendingMessages w user))
       = QueueStats.pending (getQueueStats w userId)
         + QueueStats.sending (getQueueStats w userId).
Proof.
  unfold getQueueStats.
  cbn [QueueStats.total QueueStats.pending QueueStats.sending QueueStats.sent
       QueueStats.delivered QueueStats.failed].
  split; [apply countStatus_partition|]. split.
  - split; [unfold countStatus; lia|].
    unfold countStatus. apply inj_le, length_filter.
  - intros user -> Hne. unfold getPendingMessages.
    destruct user as [|c user]; [contradiction|]. cbn [falsy template].
    apply countStatus_pending.
Qed.

(** *** No message is marked failed *)

Lemma allMessages_writeMessage (P : QueuedMessage.t -> Prop) w u k m :
  allMessages P w -> P m -> allMessages P (writeMessage w u k m).
Proof.
  unfold allMessages, writeMessage. intros Hall Hm.
  destruct (assoc_get u _) as [l|] eqn:Hget; [|exact Hall]. cbn.
  apply Forall_assoc_set; [exact Hall|]. cbn.
  apply Forall_insert; [|exact Hm].
  exact (Forall_assoc_get _ _ _ _ Hall Hget).
Qed.

Lemma allMessages_saveToStorage (P : QueuedMessage.t -> Prop) w :
  allMessages P (saveToStorage w) <-> allMessages P w.
Proof. unfold allMessages. now rewrite saveToStorage_state. Qed.

Lemma allMessages_writeStatus (P : QueuedMessage.t -> Prop) w k f :
  allMessages P (writeStatus w k f) <-> allMessages P w.
Proof. unfold allMessages. now rewrite writeStatus_messages. Qed.

Lemma markDeliveredLoop_keeps (P : QueuedMessage.t -> Prop) messageId now entries :
  (forall m, P m -> P (delivered m now)) ->
  forall entries',
    Forall (fun entry => Forall P (snd entry)) entries ->
    markDeliveredLoop messageId now entries = Some entries' ->
    Forall (fun entry => Forall P (snd entry)) entries'.
Proof.
  intros Hd. induction entries as [|[u l] rest IH]; intros entries' Hall; cbn;
    [discriminate|].
  apply Forall_cons in Hall as [Hl Hrest]. cbn in Hl.
  destruct (list_find _ l) as [[k m]|] eqn:Hfind.
  - intros [= <-]. apply Forall_cons_2; [|exact Hrest]. cbn.
    apply Forall_insert; [exact Hl|]. apply Hd.
    apply list_find_Some in Hfind as (Hk & _).
    rewrite Forall_lookup in Hl. exact (Hl _ _ Hk).
  - destruct (markDeliveredLoop messageId now rest) as [rest'|]; [|discriminate].
    intros [= <-]. apply Forall_cons_2; [exact Hl | now apply IH].
Qed.

Section Kept.

(** A property of messages that each write of the manager keeps. *)
Variable P : QueuedMessage.t -> Prop.
Hypothesis P_attempted : forall env m m', P m -> attempted env m m' -> P m'.
Hypothesis P_reset : forall m now, P m -> P (resetForRetry m now).
Hypothesis P_delivered : forall m now, P m -> P (delivered m now).
Hypothesis P_fresh : forall uuid u c t e s now,
  P (QueuedMessage.mk uuid u c t e s now 0 5 (inject_Z now) Pending None now now).

Lemma processMessage_keeps env w u i :
  allMessages P w ->
  exists ok w', processMessage env w u i = Resolved (ok, w') /\ allMessages P w'.
Proof using P_attempted.
  intros Hall. destruct (processMessage_total env w u i) as (ok & w' & Hp).
  exists ok, w'. split; [exact Hp|].
  eapply allMessages_step; [|exact Hall | exact Hp].
  intros m m'. apply P_attempted.
Qed.

Lemma queueMessage_keeps env w u c t e s uuid :
  allMessages P w ->
  exists m w', queueMessage env w u c t e s uuid = Resolved (m, w') /\ allMessages P w'.
Proof using P_attempted P_fresh.
  intros Hall. unfold queueMessage.
  match goal with
  | |- context [saveToStorage ?x] => assert (H1 : allMessages P (saveToStorage x))
  end.
  { apply allMessages_saveToStorage. unfold allMessages. cbn.
    apply Forall_assoc_set; [exact Hall|]. cbn.
    apply Forall_app_2; [|repeat constructor; apply P_fresh].
    destruct (assoc_get u _) as [l|] eqn:Hget; [|constructor].
    exact (Forall_assoc_get _ _ _ _ Hall Hget). }
  destruct (OfflineQueueState.isOnline _); [|eauto].
  match goal with
  | |- context [processMessage ?a ?b ?c ?d] =>
      destruct (processMessage_keeps a b c d H1) as (ok & w' & Hp & Hw')
  end.
  rewrite Hp. cbn [mbind promise_bind mret promise_ret snd]. eauto.
Qed.

Lemma retryMessage_keeps env w i :
  allMessages P w ->
  exists ok w', retryMessage env w i = Resolved (ok, w') /\ allMessages P w'.
Proof using P_attempted P_reset.
  intros Hall. unfold retryMessage.
  destruct (retryLoop_scan env w i (OfflineQueueState.messages (World.state w)))
    as [(before & u & l & after & k & m & Hentries & _ & Hfind & ->) | [_ ->]];
    [|eauto].
  apply processMessage_keeps. apply allMessages_writeMessage; [exact Hall|].
  apply P_reset. unfold allMessages in Hall. rewrite Hentries in Hall.
  apply Forall_app in Hall as [_ Hall]. apply Forall_cons in Hall as [Hl _]. cbn in Hl.
  apply list_find_Some in Hfind as (Hk & _).
  rewrite Forall_lookup in Hl. exact (Hl _ _ Hk).
Qed.

Lemma markDelivered_keeps w i now :
  allMessages P w -> exists w', markDelivered w i now = Resolved w' /\ allMessages P w'.
Proof using P_delivered.
  intros Hall. unfold markDelivered.
  destruct (markDeliveredLoop _ _ _) as [entries|] eqn:Hloop; [|eauto].
  eexists. split; [reflexivity|].
  apply allMessages_saveToStorage, allMessages_writeStatus. unfold allMessages. cbn.
  eapply markDeliveredLoop_keeps; [|exact Hall | exact Hloop].
  intros m. apply P_delivered.
Qed.

Lemma processPendingMessages_keeps envs now w userId :
  allMessages P w ->
  exists w', processPendingMessages envs now w userId = Resolved w' /\ allMessages P w'.
Proof using P_attempted.
  intros Hall. unfold processPendingMessages.
  destruct (OfflineQueueState.syncInProgress _); [eauto|].
  destruct (negb _); [eauto|].
  match goal with
  | |- context [drainUsers ?e ?us ?c ?x] =>
      destruct (drainUsers_keeps (allMessages P)
                  (fun env w u i ok w' Hw Hp =>
                     allMessages_step P env w u i ok w'
                       (fun m m' => P_attempted env m m') Hw Hp)
                  e us c x Hall) as (calls & w1 & Hd & Hw1)
  end.
  rewrite Hd. cbn [mbind promise_bind snd]. eexists. split; [reflexivity|].
  unfold allMessages in *. cbn. rewrite saveToStorage_state. exact Hw1.
Qed.

End Kept.

(** X16.  No message is ever marked failed.  A queue whose messages are
    sendable (not failed, with an attempt left or sent already) holds
    only sendable messages after [queueMessage], [processMessage],
    [retryMessage], [markDelivered] and [processPendingMessages], each
    of which resolves; the empty queue is such a queue.  The branch
    that gives up after [maxRetries] attempts is therefore never taken:
    the simulated request cannot fail on the last attempt that the
    budget allows. *)
Theorem no_message_is_marked_failed (w : World.t) :
  allMessages sendable w ->
  (forall env u c t e s uuid,
     exists m w', queueMessage env w u c t e s uuid = Resolved (m, w')
                  /\ allMessages sendable w')
  /\ (forall env u i,
        exists ok w', processMessage env w u i = Resolved (ok, w')
                      /\ allMessages sendable w')
  /\ (forall env i,
        exists ok w', retryMessage env w i = Resolved (ok, w')
                      /\ allMessages sendable w')
  /\ (forall i now,
        exists w', markDelivered w i now = Resolved w' /\ allMessages sendable w')
  /\ (forall envs now userId,
        exists w', processPendingMessages envs now w userId = Resolved w'
                   /\ allMessages sendable w')
  /\ QueueStats.failed (getQueueStats w None) = 0.
Proof.
  intros Hall.
  assert (Hreset : forall m now, sendable m -> sendable (resetForRetry m now)).
  { intros m now (_ & Hmax & _). unfold sendable. cbn.
    split; [discriminate|]. split; [exact Hmax|]. now left. }
  assert (Hdelivered : forall m now, sendable m -> sendable (delivered m now)).
  { intros m now (_ & Hmax & _). unfold sendable. cbn.
    split; [discriminate|]. split; [exact Hmax|]. right. now right. }
  assert (Hfresh : forall uuid u c t e s now,
            sendable (QueuedMessage.mk uuid u c t e s now 0 5 (inject_Z now)
                        Pending None now now)).
  { intros. unfold sendable. cbn. split; [discriminate|]. split; [lia|]. left. lia. }
  split; [intros; now apply queueMessage_keeps; [apply sendable_attempted|..]|].
  split; [intros; now apply processMessage_keeps; [apply sendable_attempted|]|].
  split; [intros; now apply retryMessage_keeps; [apply sendable_attempted|..]|].
  split; [intros; now apply markDelivered_keeps|].
  split; [intros; now apply processPendingMessages_keeps; [apply sendable_attempted|]|].
  unfold getQueueStats, countStatus. cbn.
  match goal with |- Z.of_nat (length ?l) = 0 => assert (Hnil : l = []) end;
    [|now rewrite Hnil].
  unfold allMessages in Hall.
  induction Hall as [|[u l] rest Hl _ IH]; [reflexivity|].
  cbn [map concat snd]. rewrite filter_app, IH, app_nil_r.
  cbn in Hl. clear IH.
  induction Hl as [|m l Hm _ IH]; [reflexivity|].
  rewrite filter_cons, decide_False; [exact IH | apply Hm].
Qed.

Lemma no_message_is_marked_failed_witness :
  allMessages sendable (Example.world (Example.entry 4 1000 Pending))
  /\ exists ok w',
       processMessage Example.env (Example.world (Example.entry 4 1000 Pending))
         (js "alice") (js "m1") = Resolved (ok, w')
       /\ allMessages sendable w'.
Proof.
  assert (H : allMessages sendable (Example.world (Example.entry 4 1000 Pending))).
  { repeat constructor; cbn; (discriminate || lia). }
  split; [exact H|].
  exact (proj1 (proj2 (no_message_is_marked_failed _ H)) Example.env (js "alice") (js "m1")).
Defined.

(** *** A run of [processPendingMessages] *)

(** X17.  [processPendingMessages] does nothing while a run is in
    progress or the device is offline.  Otherwise it resolves, whatever
    the network does, with the run flag cleared and the clock recorded
    as the time of the last run; it adds, drops and reorders no
    message, keeps every message within its retry budget, and leaves
    the stored copy of the queue up to date. *)
Theorem processPendingMessages_run
    (envs : nat -> Env.t) (now : Z) (w : World.t) (userId : option JsString) :
  (OfflineQueueState.syncInProgress (World.state w) = true
   \/ OfflineQueueState.isOnline (World.state w) = false ->
   processPendingMessages envs now w userId = Resolved w)
  /\ (OfflineQueueState.syncInProgress (World.state w) = false ->
      OfflineQueueState.isOnline (World.state w) = true ->
      exists w',
        processPendingMessages envs now w userId = Resolved w'
        /\ OfflineQueueState.syncInProgress (World.state w') = false
        /\ OfflineQueueState.isOnline (World.state w') = true
        /\ OfflineQueueState.lastSyncTime (World.state w') = now
        /\ queueShape w' = queueShape w
        /\ (allWithinBudget w -> allWithinBudget w')
        /\ persisted w').
Proof.
  unfold processPendingMessages. split.
  - intros [-> | ->]; [reflexivity|].
    now destruct (OfflineQueueState.syncInProgress _).
  - intros Hsync Honline. rewrite Hsync, Honline. cbn [negb].
    set (w1 := World.set_state w
                 (OfflineQueueState.set_syncInProgress (World.state w) true)).
    set (I := fun x : World.t =>
                queueShape x = queueShape w
                /\ OfflineQueueState.isOnline (World.state x) = true
                /\ (allWithinBudget w -> allWithinBudget x)).
    assert (HI : I w1).
    { subst I w1. cbn. split; [reflexivity|]. split; [exact Honline | tauto]. }
    assert (Hstep : forall env x u i ok x',
              I x -> processMessage env x u i = Resolved (ok, x') -> I x').
    { subst I. cbn. intros env x u i ok x' (Hs & Ho & Hb) Hp.
      split; [now rewrite (queueShape_step _ _ _ _ _ _ Hp)|]. split.
      - pose proof (flags_step _ _ _ _ _ _ Hp) as Hf. unfold flags in Hf. congruence.
      - intros Hw. eapply (allMessages_step withinBudget); [|exact (Hb Hw) | exact Hp].
        intros m m'. apply withinBudget_attempted. }
    match goal with
    | |- context [drainUsers ?e ?us ?c ?x] =>
        destruct (drainUsers_keeps I Hstep e us c x HI) as (calls & w2 & Hd & Hw2)
    end.
    rewrite Hd. cbn [mbind promise_bind snd].
    destruct Hw2 as (Hs & Ho & Hb).
    eexists. split; [reflexivity|]. cbn.
    rewrite saveToStorage_state. cbn.
    split; [reflexivity|]. split; [exact Ho|]. split; [reflexivity|].
    split; [exact Hs|]. split; [exact Hb|].
    unfold persisted, saveToStorage. cbn.
    destruct (World.localStorage w2) eqn:E; cbn; rewrite ?E; trivial.
Qed.

Lemma processPendingMessages_run_witness :
  exists w',
    processPendingMessages (fun _ => Example.env) 7000
      (Example.world (Example.entry 0 1000 Pending)) None = Resolved w'
    /\ OfflineQueueState.syncInProgress (World.state w') = false
    /\ OfflineQueueState.lastSyncTime (World.state w') = 7000
    /\ queueShape w' = [(js "alice", [js "m1"])].
Proof.
  destruct (proj2 (processPendingMessages_run (fun _ => Example.env) 7000
                     (Example.world (Example.entry 0 1000 Pending)) None)
              eq_refl eq_refl)
    as (w' & Hp & Hs & _ & Hl & Hq & _).
  exists w'. split; [exact Hp|]. split; [exact Hs|]. split; [exact Hl | exact Hq].
Defined.

(** *** Persistence *)

Lemma assoc_set_fresh {V} k (v : V) l :
  k ∉ map fst l -> assoc_set k v l = l ++ [(k, v)].
Proof.
  induction l as [|[k' v'] l IH]; cbn; [reflexivity|].
  intros Hk. rewrite not_elem_of_cons in Hk. destruct Hk as [Hne Hk].
  rewrite bool_decide_eq_false_2 by congruence. now rewrite IH.
Qed.

Lemma foldl_assoc_set {V} (items acc : list (JsString * V)) :
  NoDup (map fst (acc ++ items)) ->
  foldl (fun acc item => assoc_set (fst item) (snd item) acc) acc items = acc ++ items.
Proof.
  revert acc. induction items as [|[k v] items IH]; intros acc Hnd; cbn.
  - now rewrite app_nil_r.
  - rewrite assoc_set_fresh.
    + rewrite IH; rewrite <- app_assoc; [reflexivity | exact Hnd].
    + rewrite map_app in Hnd. apply NoDup_app in Hnd as (_ & Hdisj & _).
      intros Hin. apply (Hdisj k Hin). cbn. left.
Qed.

(** X18.  What [saveToStorage] writes, [loadFromStorage] reads back:
    after a save, a fresh page that loads the stored item has the
    messages, the delivery statuses and the time of the last run of the
    queue that was saved, in the same order, and keeps its own online
    and run flags, which are not stored.  Without [localStorage], or
    with nothing stored, loading changes nothing. *)
Theorem loadFromStorage_restores (w : World.t) (fresh : OfflineQueueState.t) :
  NoDup (map fst (OfflineQueueState.messages (World.state w))) ->
  (World.localStorage w <> None ->
   World.state (loadFromStorage (World.mk fresh (World.localStorage (saveToStorage w))))
   = OfflineQueueState.mk
       (OfflineQueueState.messages (World.state w))
       (OfflineQueueState.deliveryStatus (World.state w))
       (OfflineQueueState.isOnline fresh) (OfflineQueueState.syncInProgress fresh)
       (OfflineQueueState.lastSyncTime (World.state w)))
  /\ loadFromStorage (World.mk fresh None) = World.mk fresh None
  /\ loadFromStorage (World.mk fresh (Some None)) = World.mk fresh (Some None).
Proof.
  intros Hnd. split; [|split; reflexivity].
  intros Hls. unfold saveToStorage.
  destruct (World.localStorage w) as [stored|]; [|contradiction].
  cbn. f_equal. now apply (foldl_assoc_set _ []).
Qed.

Lemma loadFromStorage_restores_witness :
  let w := World.mk (OfflineQueueState.mk [(js "alice", [Example.entry 1 1000 Sent])]
                       ∅ true true 5000) (Some None) in
  NoDup (map fst (OfflineQueueState.messages (World.state w)))
  /\ World.state (loadFromStorage
                    (World.mk (OfflineQueueState.mk [] ∅ false false 0)
                       (World.localStorage (saveToStorage w))))
     = OfflineQueueState.mk [(js "alice", [Example.entry 1 1000 Sent])] ∅ false false 5000.
Proof.
  intros w.
  assert (H : NoDup (map fst (OfflineQueueState.messages (World.state w)))).
  { apply NoDup_singleton. }
  split; [exact H|].
  apply (proj1 (loadFromStorage_restores w (OfflineQueueState.mk [] ∅ false false 0) H)).
  discriminate.
Defined.

(** X19.  The stored copy of the queue is kept current: when
    [localStorage] held the queue before, it holds the queue as it is
    after [queueMessage], [processMessage], [retryMessage],
    [markDelivered] and [clearQueue], so that a reload at any point
    between two operations loses no write. *)
Theorem stored_copy_is_current (w : World.t) :
  persisted w ->
  NoDup (map fst (OfflineQueueState.messages (World.state w))) ->
  (forall env u c t e s uuid,
     exists m w', queueMessage env w u c t e s uuid = Resolved (m, w') /\ persisted w')
  /\ (forall env u i,
        exists ok w', processMessage env w u i = Resolved (ok, w') /\ persisted w')
  /\ (forall env i,
        exists ok w', retryMessage env w i = Resolved (ok, w') /\ persisted w')
  /\ (forall i now, exists w', markDelivered w i now = Resolved w' /\ persisted w')
  /\ (forall userId, exists w', clearQueue w userId = Resolved w' /\ persisted w').
Proof.
  intros Hw Hnd.
  assert (Hprocess : forall env x u i, persisted x ->
            exists ok x', processMessage env x u i = Resolved (ok, x') /\ persisted x').
  { intros env x u i Hx. destruct (processMessage_total env x u i) as (ok & x' & Hp).
    exists ok, x'. split; [exact Hp | exact (persisted_step _ _ _ _ _ _ Hx Hp)]. }
  split; [|split; [|split; [|split]]].
  - intros env u c t e s uuid. unfold queueMessage.
    destruct (OfflineQueueState.isOnline _).
    + match goal with
      | |- context [processMessage ?a ?b ?c ?d] =>
          destruct (Hprocess a b c d (persisted_saveToStorage _)) as (ok & w' & Hp & Hw')
      end.
      rewrite Hp. cbn [mbind promise_bind mret promise_ret snd]. eauto.
    + eexists _, _. split; [reflexivity | apply persisted_saveToStorage].
  - intros env u i. now apply Hprocess.
  - intros env i. unfold retryMessage.
    destruct (retryLoop_scan env w i (OfflineQueueState.messages (World.state w)))
      as [(before & u & l & after & k & m & Hentries & _ & Hfind & ->) | [_ ->]];
      [|eauto].
    assert (Hget : assoc_get u (OfflineQueueState.messages (World.state w)) = Some l).
    { apply assoc_get_NoDup; [exact Hnd|]. rewrite Hentries.
      apply in_or_app. right. now left. }
    assert (Hid : QueuedMessage.id (resetForRetry m (Env.now env)) = i).
    { apply list_find_Some in Hfind as (_ & Hid & _). exact Hid. }
    pose proof (lookupMessage_writeMessage _ _ _ _ _ _ Hget Hfind _ Hid) as Hl1.
    destruct (processMessage_total env
                (writeMessage w u k (resetForRetry m (Env.now env))) u i)
      as (ok & w' & Hp).
    exists ok, w'. split; [exact Hp|].
    destruct (processMessage_effect _ _ _ _ _ _ Hp)
      as [[_ [[Hnone _] | (m0 & Hsome & [[Hf _] | (_ & Hnd0 & _)])]]
         | (_ & _ & _ & _ & _ & _ & _ & _ & _ & Hs & _)].
    + congruence.
    + rewrite Hl1 in Hsome. injection Hsome as <-.
      cbn in Hf. destruct Hf; discriminate.
    + rewrite Hl1 in Hsome. injection Hsome as <-.
      exfalso. apply Hnd0. unfold isDue. cbn. apply Qle_refl.
    + exact Hs.
  - intros i now. unfold markDelivered.
    destruct (markDeliveredLoop _ _ _); [|eauto].
    eexists. split; [reflexivity | apply persisted_saveToStorage].
  - intros userId. unfold clearQueue.
    destruct (falsy userId); eexists; (split; [reflexivity | apply persisted_saveToStorage]).
Qed.

Lemma stored_copy_is_current_witness :
  let w := saveToStorage (World.mk (World.state (Example.world (Example.entry 5 9000 Failed)))
                            (Some None)) in
  persisted w
  /\ NoDup (map fst (OfflineQueueState.messages (World.state w)))
  /\ exists ok w', retryMessage Example.env w (js "m1") = Resolved (ok, w') /\ persisted w'.
Proof.
  intros w.
  assert (Hp : persisted w) by apply persisted_saveToStorage.
  assert (Hnd : NoDup (map fst (OfflineQueueState.messages (World.state w))))
    by apply NoDup_singleton.
  split; [exact Hp|]. split; [exact Hnd|].
  exact (proj1 (proj2 (proj2 (stored_copy_is_current w Hp Hnd))) Example.env (js "m1")).
Defined.

(** *** Delivery *)

Lemma markDeliveredLoop_scan messageId now entries :
  (exists before userId userMessages after index m,
      entries = before ++ (userId, userMessages) :: after
      /\ Forall (noMatch messageId) before
      /\ list_find (fun x => QueuedMessage.id x = messageId) userMessages = Some (index, m)
      /\ markDeliveredLoop messageId now entries
         = Some (before ++ (userId, <[index := delivered m now]> userMessages) :: after))
  \/ (Forall (noMatch messageId) entries
      /\ markDeliveredLoop messageId now entries = None).
Proof.
  induction entries as [|[userId userMessages] rest IH]; cbn [markDeliveredLoop].
  - right. split; [constructor | reflexivity].
  - destruct (list_find _ userMessages) as [[index m]|] eqn:Hfind.
    + left. exists [], userId, userMessages, rest, index, m.
      repeat split; [constructor | exact Hfind].
    + destruct IH as [(before & u & l & after & index & m & -> & Hb & Hf & ->) | [Hall ->]].
      * left. exists ((userId, userMessages) :: before), u, l, after, index, m.
        repeat split; [constructor; [exact Hfind | exact Hb] | exact Hf].
      * right. split; [constructor; [exact Hfind | exact Hall] | reflexivity].
Qed.

(** X20.  [markDelivered] marks the first queued message with the id as
    delivered, whatever its status was, a message that was never sent
    included; [processMessage] then reports success for it without an
    attempt, and no other message and no position changes.  For an id
    that is not queued it changes nothing. *)
Theorem markDelivered_marks_first_match (w : World.t) (messageId : JsString) (now : Z) :
  NoDup (map fst (OfflineQueueState.messages (World.state w))) ->
  (queued w messageId ->
   exists userId m w',
     lookupMessage w userId messageId = Some m
     /\ markDelivered w messageId now = Resolved w'
     /\ lookupMessage w' userId messageId = Some (delivered m now)
     /\ QueuedMessage.status (delivered m now) = Delivered
     /\ QueuedMessage.attempts (delivered m now) = QueuedMessage.attempts m
     /\ queueShape w' = queueShape w
     /\ (forall status,
           getDeliveryStatus w messageId = Some status ->
           DeliveryStatus.status <$> getDeliveryStatus w' messageId = Some DsDelivered)
     /\ forall env, processMessage env w' userId messageId = Resolved (true, w'))
  /\ (~ queued w messageId -> markDelivered w messageId now = Resolved w).
Proof.
  intros Hnd. unfold markDelivered.
  destruct (markDeliveredLoop_scan messageId now (OfflineQueueState.messages (World.state w)))
    as [(before & u & l & after & index & m & Hentries & Hbefore & Hfind & ->) | [Hall ->]].
  - split.
    2:{ intros Hnq. exfalso. apply Hnq. apply queued_iff_match.
        rewrite Hentries. apply Exists_app. right. left.
        unfold noMatch. cbn. rewrite Hfind. discriminate. }
    intros _.
    assert (Hget : assoc_get u (OfflineQueueState.messages (World.state w)) = Some l).
    { apply assoc_get_NoDup; [exact Hnd|]. rewrite Hentries.
      apply in_or_app. right. now left. }
    pose proof Hfind as Hk. apply list_find_Some in Hk as (Hk & Hid & _).
    set (entries' := before ++ (u, <[index := delivered m now]> l) :: after).
    assert (Hget' : assoc_get u entries' = Some (<[index := delivered m now]> l)).
    { apply assoc_get_NoDup.
      - subst entries'. rewrite Hentries in Hnd.
        rewrite map_app in *. exact Hnd.
      - subst entries'. apply in_or_app. right. now left. }
    assert (Hlookup : forall x,
              OfflineQueueState.messages (World.state x) = entries' ->
              lookupMessage x u messageId = Some (delivered m now)).
    { intros x Hx. unfold lookupMessage. rewrite Hx, Hget'. cbn.
      now rewrite (list_find_insert_found _ _ _ _ (delivered m now) Hfind Hid). }
    eexists u, m, _. split; [exact (lookupMessage_found _ _ _ _ _ _ Hget Hfind)|].
    split; [reflexivity|].
    assert (Hl' : lookupMessage
                    (saveToStorage
                       (writeStatus
                          (World.set_state w
                             (OfflineQueueState.set_messages (World.state w) entries'))
                          messageId
                          (fun status =>
                             DeliveryStatus.mk (DeliveryStatus.messageId status) DsDelivered
                               (DeliveryStatus.sentAt status) (Some now)
                               (DeliveryStatus.error status)
                               (DeliveryStatus.retries status))))
                    u messageId = Some (delivered m now)).
    { rewrite lookupMessage_saveToStorage, lookupMessage_writeStatus.
      apply Hlookup. reflexivity. }
    split; [exact Hl'|]. split; [reflexivity|]. split; [reflexivity|]. split; [|split].
    + unfold queueShape. rewrite saveToStorage_state, writeStatus_messages. cbn.
      rewrite Hentries. subst entries'. rewrite !map_app. cbn. do 3 f_equal.
      apply map_insert_same with (m := m); [exact Hk | reflexivity].
    + intros status Hst. unfold getDeliveryStatus in *.
      rewrite saveToStorage_state. unfold writeStatus. cbn. rewrite Hst. cbn.
      now rewrite lookup_insert_eq.
    + intros env. eapply processMessage_final; [exact Hl'|]. now right.
  - split; [|reflexivity].
    intros Hq. exfalso. apply queued_iff_match in Hq.
    apply Exists_exists in Hq as (entry & Hin & Hsome).
    rewrite Forall_forall in Hall. exact (Hsome (Hall _ Hin)).
Qed.

Lemma markDelivered_marks_first_match_witness :
  let w := Example.world (Example.entry 0 9000 Pending) in
  NoDup (map fst (OfflineQueueState.messages (World.state w)))
  /\ queued w (js "m1")
  /\ exists userId m w',
       lookupMessage w userId (js "m1") = Some m
       /\ markDelivered w (js "m1") 5000 = Resolved w'
       /\ lookupMessage w' userId (js "m1") = Some (delivered m 5000)
       /\ processMessage Example.env w' userId (js "m1") = Resolved (true, w').
Proof.
  intros w.
  assert (Hnd : NoDup (map fst (OfflineQueueState.messages (World.state w))))
    by apply NoDup_singleton.
  assert (Hq : queued w (js "m1")).
  { exists (js "alice"), [Example.entry 0 9000 Pending], (Example.entry 0 9000 Pending).
    repeat split; now left. }
  split; [exact Hnd|]. split; [exact Hq|].
  destruct (proj1 (markDelivered_marks_first_match w (js "m1") 5000 Hnd) Hq)
    as (u & m & w' & Hl & Hm & Hl' & _ & _ & _ & _ & Hp).
  exists u, m, w'. split; [exact Hl|]. split; [exact Hm|]. split; [exact Hl' | apply Hp].
Defined.

(** *** Clearing and queueing *)

Lemma assoc_get_delete {V} k (l : list (JsString * V)) :
  NoDup (map fst l) -> assoc_get k (assoc_delete k l) = None.
Proof.
  induction l as [|[k' v] l IH]; cbn; [reflexivity|].
  intros Hnd. apply NoDup_cons in Hnd as [Hfresh Hnd].
  destruct (bool_decide (k' = k)) eqn:E.
  - apply bool_decide_eq_true in E. subst k'.
    destruct (assoc_get k l) as [v'|] eqn:Hget; [|reflexivity].
    exfalso. apply Hfresh. clear -Hget.
    induction l as [|[k0 v0] l IH]; [discriminate|]. cbn in *.
    destruct (bool_decide (k0 = k)) eqn:E0.
    + apply bool_decide_eq_true in E0. subst. left.
    + right. now apply IH.
  - cbn. rewrite E. now apply IH.
Qed.

Lemma assoc_get_delete_ne {V} k k' (l : list (JsString * V)) :
  k <> k' -> assoc_get k' (assoc_delete k l) = assoc_get k' l.
Proof.
  intros Hne. induction l as [|[k0 v] l IH]; cbn; [reflexivity|].
  destruct (bool_decide (k0 = k)) eqn:E.
  - apply bool_decide_eq_true in E. subst k0.
    now rewrite bool_decide_eq_false_2.
  - cbn. now rewrite IH.
Qed.

(** X21.  [clearQueue] without a user id empties the queue and the
    delivery statuses.  With a user id it removes the messages of that
    user only, and no delivery status: the statuses of the removed
    messages are still reported afterwards. *)
Theorem clearQueue_effect (w : World.t) (userId : option JsString) :
  exists w',
    clearQueue w userId = Resolved w'
    /\ flags w' = flags w
    /\ (falsy userId = true ->
        OfflineQueueState.messages (World.state w') = []
        /\ forall messageId, getDeliveryStatus w' messageId = None)
    /\ forall user,
         userId = Some user -> user <> [] ->
         NoDup (map fst (OfflineQueueState.messages (World.state w))) ->
         assoc_get user (OfflineQueueState.messages (World.state w')) = None
         /\ getPendingMessages w' user = []
         /\ QueueStats.total (getQueueStats w' userId) = 0
         /\ (forall other, other <> user ->
               assoc_get other (OfflineQueueState.messages (World.state w'))
               = assoc_get other (OfflineQueueState.messages (World.state w)))
         /\ forall messageId,
              getDeliveryStatus w' messageId = getDeliveryStatus w messageId.
Proof.
  unfold clearQueue. destruct (falsy userId) eqn:Hf.
  - eexists. split; [reflexivity|]. split; [now rewrite saveToStorage_flags|]. split.
    + intros _. unfold getDeliveryStatus. rewrite saveToStorage_state. cbn.
      split; [reflexivity|]. intros messageId. apply lookup_empty.
    + intros user -> Hne. destruct user; [contradiction | discriminate].
  - eexists. split; [reflexivity|]. split; [now rewrite saveToStorage_flags|].
    split; [discriminate|].
    intros user -> Hne Hnd.
    unfold getPendingMessages, getQueueStats, getDeliveryStatus.
    rewrite Hf, !saveToStorage_state. cbn.
    rewrite (assoc_get_delete _ _ Hnd). cbn.
    repeat split.
    intros other Hother. now apply assoc_get_delete_ne.
Qed.

(** X22.  [queueMessage] appends the message, with no attempt made and
    a budget of five, to the list of its user and returns it.  Offline
    it stays pending with a pending delivery status; online it gets one
    attempt at once, and comes back sent or still pending. *)
Theorem queueMessage_enqueues
    (env : Env.t) (w : World.t)
    (userId conversationId content encrypted sessionId uuid : JsString) :
  list_find (fun m => QueuedMessage.id m = uuid)
    (default [] (assoc_get userId (OfflineQueueState.messages (World.state w)))) = None ->
  exists m w',
    queueMessage env w userId conversationId content encrypted sessionId uuid
    = Resolved (m, w')
    /\ lookupMessage w' userId uuid = Some m
    /\ QueuedMessage.id m = uuid
    /\ QueuedMessage.maxRetries m = 5
    /\ map QueuedMessage.id
         (default [] (assoc_get userId (OfflineQueueState.messages (World.state w'))))
       = map QueuedMessage.id
           (default [] (assoc_get userId (OfflineQueueState.messages (World.state w))))
         ++ [uuid]
    /\ (OfflineQueueState.isOnline (World.state w) = false ->
        QueuedMessage.attempts m = 0
        /\ QueuedMessage.status m = Pending
        /\ m ∈ getPendingMessages w' userId
        /\ getDeliveryStatus w' uuid
           = Some (DeliveryStatus.mk uuid DsPending None None None 0))
    /\ (OfflineQueueState.isOnline (World.state w) = true ->
        QueuedMessage.attempts m = 1
        /\ (QueuedMessage.status m = Sent \/ QueuedMessage.status m = Pending)).
Proof.
  intros Hfresh. unfold queueMessage.
  set (fresh := QueuedMessage.mk uuid userId conversationId content encrypted sessionId
                  (Env.now env) 0 5 (inject_Z (Env.now env)) Pending None
                  (Env.now env) (Env.now env)).
  set (old := match assoc_get userId (OfflineQueueState.messages (World.state w)) with
              | Some existing => existing
              | None => []
              end).
  assert (Hold : default [] (assoc_get userId (OfflineQueueState.messages (World.state w)))
                 = old).
  { subst old. now destruct (assoc_get userId _). }
  rewrite Hold in *.
  match goal with
  | |- context [saveToStorage ?x] => set (w1 := saveToStorage x)
  end.
  assert (Hget1 : assoc_get userId (OfflineQueueState.messages (World.state w1))
                  = Some (old ++ [fresh])).
  { subst w1. rewrite saveToStorage_state. cbn. apply assoc_get_set. }
  assert (Hfind1 : list_find (fun m => QueuedMessage.id m = uuid) (old ++ [fresh])
                   = Some (length old, fresh)).
  { rewrite list_find_app_r by exact Hfresh. cbn.
    rewrite decide_True by reflexivity. reflexivity. }
  assert (Hl1 : lookupMessage w1 userId uuid = Some fresh).
  { exact (lookupMessage_found _ _ _ _ _ _ Hget1 Hfind1). }
  assert (Honline1 : OfflineQueueState.isOnline (World.state w1)
                     = OfflineQueueState.isOnline (World.state w)).
  { subst w1. now rewrite saveToStorage_state. }
  rewrite Honline1.
  destruct (OfflineQueueState.isOnline (World.state w)) eqn:Honline.
  - destruct (processMessage_total env w1 userId (QueuedMessage.id fresh))
      as (ok & w' & Hp).
    rewrite Hp. cbn [mbind promise_bind mret promise_ret snd].
    destruct (processMessage_effect _ _ _ _ _ _ Hp)
      as [[_ [[Hnone _] | (m0 & Hsome & [[Hf _] | (_ & Hnd0 & _)])]]
         | (l & k & m & m' & Hget & Hfind & Hatt & Hmsgs & _)].
    + cbn in Hnone. congruence.
    + cbn in Hsome. rewrite Hl1 in Hsome. injection Hsome as <-.
      cbn in Hf. destruct Hf; discriminate.
    + cbn in Hsome. rewrite Hl1 in Hsome. injection Hsome as <-.
      exfalso. apply Hnd0. unfold isDue. cbn. apply Qle_refl.
    + rewrite Hget1 in Hget. injection Hget as <-.
      cbn in Hfind. rewrite Hfind1 in Hfind. injection Hfind as <- <-.
      assert (Hlist : assoc_get userId (OfflineQueueState.messages (World.state w'))
                      = Some (old ++ [m'])).
      { rewrite Hmsgs, assoc_get_set. f_equal.
        rewrite insert_app_r_alt by lia. now rewrite Nat.sub_diag. }
      rewrite Hlist, last_snoc.
      destruct Hatt as (Hid & Hmax & _ & _ & Hcase).
      exists m', w'. split; [reflexivity|].
      split.
      { unfold lookupMessage. rewrite Hlist. cbn.
        rewrite list_find_app_r by exact Hfresh. cbn.
        rewrite decide_True by exact Hid. reflexivity. }
      split; [exact Hid|]. split; [exact Hmax|].
      split; [rewrite Hlist; cbn [default from_option id]; rewrite map_app; cbn; now rewrite Hid|].
      split; [discriminate|]. intros _.
      destruct Hcase as [[Hge _] | (_ & Ha & [Hs | [Hs _]])]; [cbn in Hge; lia | |].
      * split; [exact Ha | now left].
      * split; [exact Ha | right; exact Hs].
  - exists fresh, w1. split; [reflexivity|]. split; [exact Hl1|].
    split; [reflexivity|]. split; [reflexivity|].
    split; [rewrite Hget1; cbn [default from_option id]; now rewrite map_app|].
    split; [|discriminate]. intros _.
    split; [reflexivity|]. split; [reflexivity|]. split.
    + unfold getPendingMessages. rewrite Hget1. cbn.
      apply list_elem_of_filter. split; [now left|].
      apply elem_of_app. right. left.
    + unfold getDeliveryStatus. subst w1. rewrite saveToStorage_state. cbn.
      apply lookup_insert_eq.
Qed.

Lemma queueMessage_enqueues_witness :
  exists m w',
    queueMessage Example.env (Example.world (Example.entry 1 1000 Sent))
      (js "alice") (js "c1") (js "hi") (js "aGk=") (js "s1") (js "m2")
    = Resolved (m, w')
    /\ QueuedMessage.id m = js "m2"
    /\ QueuedMessage.attempts m = 1.
Proof.
  destruct (queueMessage_enqueues Example.env (Example.world (Example.entry 1 1000 Sent))
              (js "alice") (js "c1") (js "hi") (js "aGk=") (js "s1") (js "m2") eq_refl)
    as (m & w' & Hq & _ & Hid & _ & _ & _ & Hon).
  exists m, w'. split; [exact Hq|]. split; [exact Hid|]. exact (proj1 (Hon eq_refl)).
Defined.

(** ** lib/device-manager *)

Lemma from_ascii_app a r : ascii_text a -> Buffer.from (a ++ r) = a ++ Buffer.from r.
Proof.
  unfold Buffer.from. induction 1 as [|u a Hu _ IH]; [reflexivity|].
  cbn [app Buffer.code_points].
  unfold is_high_surrogate, is_low_surrogate.
  rewrite (in_range_false 0xD800 0xDBFF u) by lia.
  rewrite (in_range_false 0xDC00 0xDFFF u) by lia.
  cbn [Buffer.utf8_encode flat_map]. fold (Buffer.utf8_encode (Buffer.code_points (a ++ r))).
  rewrite IH. unfold Buffer.utf8_encode_cp.
  destruct (Z.ltb_spec u 128); [reflexivity | lia].
Qed.

Lemma take_16_b64_encode a r :
  length a = 12%nat ->
  take 16 (Buffer.b64_encode (a ++ r)) = Buffer.b64_encode a.
Proof.
  intros Hlen.
  do 12 (destruct a as [|? a]; [discriminate|]).
  destruct a; [|discriminate]. reflexivity.
Qed.

(** X23.  The fingerprint of a device is sixteen characters that are
    read off the first twelve code units of the text
    [signingKey:agreementKey]: two devices whose texts begin alike have
    the same fingerprint, so with a signing key of twelve characters or
    more the agreement key does not enter the fingerprint at all. *)
Theorem fingerprint_reads_twelve_code_units (keys1 keys2 : DeviceKeys.t) :
  (12 <= length (fingerprintData keys1))%nat ->
  ascii_text (take 12 (fingerprintData keys1)) ->
  take 12 (fingerprintData keys2) = take 12 (fingerprintData keys1) ->
  exists fingerprint,
    deviceManager.generateDeviceFingerprint keys1 = Resolved fingerprint
    /\ deviceManager.generateDeviceFingerprint keys2 = Resolved fingerprint
    /\ length fingerprint = 16%nat
    /\ fingerprint
       = toUpperCase (Buffer.b64_encode (take 12 (fingerprintData keys1))).
Proof.
  intros Hlen Hascii Hsame.
  unfold deviceManager.generateDeviceFingerprint.
  fold (fingerprintData keys1). fold (fingerprintData keys2).
  assert (Hlen12 : length (take 12 (fingerprintData keys1)) = 12%nat).
  { rewrite length_take. lia. }
  assert (H : forall data,
            take 12 data = take 12 (fingerprintData keys1) ->
            take 16 (base64 data)
            = Buffer.b64_encode (take 12 (fingerprintData keys1))).
  { intros data Hd. rewrite <- (take_drop 12 data) at 1. rewrite Hd.
    unfold base64, Buffer.toString_base64.
    rewrite from_ascii_app by exact Hascii.
    now apply take_16_b64_encode. }
  eexists. split; [reflexivity|].
  rewrite (H _ Hsame), (H _ eq_refl). split; [reflexivity|]. split; [|reflexivity].
  unfold toUpperCase. rewrite length_map.
  remember (take 12 (fingerprintData keys1)) as a eqn:Ha. clear -Hlen12.
  do 12 (destruct a as [|? a]; [discriminate|]).
  destruct a; [|discriminate]. reflexivity.
Qed.

Lemma fingerprint_reads_twelve_code_units_witness :
  let keys1 :=
    DeviceKeys.mk (js "device-a") (KeyPair.mk (js "MC4xMjM0NTY3") (js "s1"))
      (KeyPair.mk (js "agreement-one") (js "s2")) [] [] in
  let keys2 :=
    DeviceKeys.mk (js "device-b") (KeyPair.mk (js "MC4xMjM0NTY3ODk=") (js "s3"))
      (KeyPair.mk (js "agreement-two") (js "s4")) [] [] in
  exists fingerprint,
    deviceManager.generateDeviceFingerprint keys1 = Resolved fingerprint
    /\ deviceManager.generateDeviceFingerprint keys2 = Resolved fingerprint
    /\ length fingerprint = 16%nat.
Proof.
  intros keys1 keys2.
  assert (Hlen : (12 <= length (fingerprintData keys1))%nat) by (cbn; lia).
  assert (Hascii : ascii_text (take 12 (fingerprintData keys1))).
  { repeat constructor; lia. }
  destruct (fingerprint_reads_twelve_code_units keys1 keys2 Hlen Hascii eq_refl)
    as (fingerprint & H1 & H2 & H3 & _).
  exists fingerprint. split; [exact H1|]. split; [exact H2 | exact H3].
Defined.

Ltac device_simpl :=
  unfold deviceManager.queueDeviceSync, deviceManager.scheduleKeyRotation,
    deviceManager.getVerifiedDevices, deviceManager.getUserDevices,
    deviceManager.getDevice, deviceManager.needsKeyRotation,
    deviceManager.getPendingSyncEvents;
  cbn [mbind promise_bind default from_option id
       DeviceWorld.deviceRegistry DeviceWorld.deviceSyncQueue
       DeviceWorld.keyRotationSchedules DeviceWorld.database
       DeviceWorld.set_keyRotationSchedules DeviceWorld.set_deviceSyncQueue
       DeviceWorld.set_database DeviceWorld.set_deviceRegistry
       DeviceSync.action DeviceSync.deviceId DeviceSync.payload DeviceSync.syncId
       KeyRotationSchedule.nextRotation].

Lemma findDevice_updateDevice deviceId f entries d :
  findDevice deviceId entries = Some d ->
  DeviceInfo.deviceId (f d) = DeviceInfo.deviceId d ->
  exists entries',
    updateDevice deviceId f entries = Some entries'
    /\ findDevice deviceId entries' = Some (f d)
    /\ map fst entries' = map fst entries.
Proof.
  intros Hfind Hid. revert Hfind.
  induction entries as [|[u devices] rest IH]; cbn [findDevice updateDevice];
    [discriminate|].
  destruct (list_find _ devices) as [[index device]|] eqn:Hl.
  - intros [= ->]. eexists. split; [reflexivity|]. cbn [findDevice].
    rewrite (list_find_insert_found _ _ _ _ (f d) Hl).
    + split; reflexivity.
    + apply list_find_Some in Hl as (_ & Hd & _). cbn in *. congruence.
  - intros Hrest. destruct (IH Hrest) as (rest' & -> & Hf & Hk).
    eexists. split; [reflexivity|]. cbn [findDevice]. rewrite Hl.
    split; [exact Hf|]. cbn. now rewrite Hk.
Qed.

Lemma updateDevice_absent deviceId f entries :
  findDevice deviceId entries = None -> updateDevice deviceId f entries = None.
Proof.
  induction entries as [|[u devices] rest IH]; cbn [findDevice updateDevice];
    [reflexivity|].
  destruct (list_find _ devices) as [[index device]|]; [discriminate|].
  intros Hrest. now rewrite IH.
Qed.

Lemma findDevice_updateDevice_ne deviceId other f entries entries' :
  (forall d, DeviceInfo.deviceId (f d) = DeviceInfo.deviceId d) ->
  other <> deviceId ->
  updateDevice deviceId f entries = Some entries' ->
  findDevice other entries' = findDevice other entries.
Proof.
  intros Hid Hne. revert entries'.
  induction entries as [|[u devices] rest IH]; intros entries';
    cbn [updateDevice]; [discriminate|].
  destruct (list_find (fun d => DeviceInfo.deviceId d = deviceId) devices)
    as [[index d]|] eqn:Hfind.
  - intros [= <-]. cbn [findDevice].
    apply list_find_Some in Hfind as (Hi & Hd & _).
    destruct (list_find_insert_alike (fun x => DeviceInfo.deviceId x = other)
                devices index d (f d) Hi) as [Hfst Hother].
    { cbn. rewrite Hid. tauto. }
    destruct (list_find (fun x => DeviceInfo.deviceId x = other) devices)
      as [[j x]|] eqn:Ho.
    + assert (j <> index).
      { intros ->. apply list_find_Some in Ho as (Hj & Hjid & _).
        rewrite Hi in Hj. injection Hj as <-. congruence. }
      now rewrite (Hother j x).
    + destruct (list_find _ (<[index:=_]> devices)) as [[]|]; [discriminate|].
      reflexivity.
  - destruct (updateDevice deviceId f rest) as [rest'|]; [|discriminate].
    intros [= <-]. cbn [findDevice].
    destruct (list_find (fun x => DeviceInfo.deviceId x = other) devices) as [[]|];
      [reflexivity | now apply IH].
Qed.

(** X24.  [registerDevice] adds the device at the end of the list of
    its user, whether or not the id is registered already; the device is
    verified exactly when it is registered as the current device, with
    no confirmation by another device; its keys are due for rotation
    from thirty days after the registration on; and the devices of the
    user learn of it through a device-added event. *)
Theorem registerDevice_effect
    (w : DeviceWorld.t) (userId deviceName : JsString) (deviceType : DeviceType)
    (deviceKeys : DeviceKeys.t) (isCurrentDevice : bool) (uuid : JsString) (now : Z) :
  exists info w' event,
    deviceManager.registerDevice w userId deviceName deviceType deviceKeys
      isCurrentDevice uuid now = Resolved (info, w')
    /\ DeviceInfo.deviceId info = DeviceKeys.deviceId deviceKeys
    /\ DeviceInfo.verified info = isCurrentDevice
    /\ DeviceInfo.trustedAt info = (if isCurrentDevice then Some now else None)
    /\ deviceManager.generateDeviceFingerprint deviceKeys
       = Resolved (DeviceInfo.deviceFingerprint info)
    /\ (forall devices,
          deviceManager.getUserDevices w userId = Resolved devices ->
          deviceManager.getUserDevices w' userId = Resolved (devices ++ [info])
          /\ deviceManager.getVerifiedDevices w' userId
             = Resolved (filter (fun d => DeviceInfo.verified d = true) devices
                         ++ (if isCurrentDevice then [info] else [])))
    /\ (forall later,
          deviceManager.needsKeyRotation w' (DeviceKeys.deviceId deviceKeys) later
          = Resolved (later >=? now + 2592000000))
    /\ DeviceWorld.deviceSyncQueue w' !! userId
       = Some (default [] (DeviceWorld.deviceSyncQueue w !! userId) ++ [event])
    /\ DeviceSync.action event = device_added
    /\ DeviceSync.deviceId event = DeviceKeys.deviceId deviceKeys
    /\ Db.devices (DeviceWorld.database w') !! userId
       = Some (default [] (Db.devices (DeviceWorld.database w) !! userId)
               ++ [Device.mk (DeviceKeys.deviceId deviceKeys) userId deviceName
                     (KeyPair.publicKey (DeviceKeys.signingKeys deviceKeys))
                     (KeyPair.publicKey (DeviceKeys.agreementKeys deviceKeys))
                     isCurrentDevice now now]).
Proof.
  assert (Hfp : exists fingerprint,
            deviceManager.generateDeviceFingerprint deviceKeys = Resolved fingerprint)
    by (eexists; reflexivity).
  destruct Hfp as [fingerprint Hfp].
  unfold deviceManager.registerDevice. rewrite Hfp.
  unfold db.registerDevice, deviceManager.queueDeviceSync,
    deviceManager.scheduleKeyRotation.
  cbn [mbind promise_bind].
  eexists _, _, _. split; [reflexivity|].
  cbn [DeviceInfo.deviceId DeviceInfo.verified DeviceInfo.trustedAt
       DeviceInfo.deviceFingerprint].
  split; [reflexivity|]. split; [reflexivity|]. split; [reflexivity|].
  split; [reflexivity|].
  unfold deviceManager.getVerifiedDevices, deviceManager.getUserDevices,
    deviceManager.needsKeyRotation.
  cbn [mbind promise_bind DeviceWorld.deviceRegistry DeviceWorld.deviceSyncQueue
       DeviceWorld.keyRotationSchedules DeviceWorld.database
       DeviceWorld.set_keyRotationSchedules DeviceWorld.set_deviceSyncQueue
       DeviceWorld.set_database DeviceWorld.set_deviceRegistry
       Db.devices Db.set_devices DeviceInfo.deviceId].
  split; [|split; [|split; [|split; [|split]]]].
  - intros devices [= <-].
    rewrite assoc_get_set. cbn [default from_option id].
    split; [reflexivity|]. rewrite filter_app. do 2 f_equal.
    rewrite filter_cons, filter_nil. cbn [DeviceInfo.verified].
    destruct isCurrentDevice; [now rewrite decide_True | now rewrite decide_False].
  - intros later. rewrite lookup_insert_eq.
    cbn [KeyRotationSchedule.nextRotation]. reflexivity.
  - apply lookup_insert_eq.
  - reflexivity.
  - reflexivity.
  - apply lookup_insert_eq.
Qed.

(** X25.  [verifyDevice] marks the device of the user verified and
    trusted at the time of the call, for any approving device id
    whatever: the approver need not be verified, registered, or another
    device than the one it approves.  The device is then among the
    verified devices of the user.  For a user or a device that is not
    registered it returns null and changes nothing. *)
Theorem verifyDevice_checks_no_approver
    (w : DeviceWorld.t) (userId deviceId approvedByDeviceId uuid : JsString) (now : Z) :
  (forall devices index device,
     assoc_get userId (DeviceWorld.deviceRegistry w) = Some devices ->
     list_find (fun d => DeviceInfo.deviceId d = deviceId) devices = Some (index, device) ->
     exists device' w',
       deviceManager.verifyDevice w userId deviceId approvedByDeviceId uuid now
       = Resolved (Some device', w')
       /\ device' = DeviceInfo.set_trust device true (Some now)
       /\ deviceManager.getUserDevices w' userId
          = Resolved (<[index := device']> devices)
       /\ (forall verified,
             deviceManager.getVerifiedDevices w' userId = Resolved verified ->
             device' ∈ verified)
       /\ forall approver,
            exists w'',
              deviceManager.verifyDevice w userId deviceId approver uuid now
              = Resolved (Some device', w'')
              /\ DeviceWorld.deviceRegistry w'' = DeviceWorld.deviceRegistry w')
  /\ ((assoc_get userId (DeviceWorld.deviceRegistry w) = None
       \/ exists devices,
            assoc_get userId (DeviceWorld.deviceRegistry w) = Some devices
            /\ list_find (fun d => DeviceInfo.deviceId d = deviceId) devices = None) ->
      deviceManager.verifyDevice w userId deviceId approvedByDeviceId uuid now
      = Resolved (None, w)).
Proof.
  unfold deviceManager.verifyDevice. split.
  - intros devices index device Hget Hfind. rewrite Hget, Hfind. device_simpl.
    eexists _, _. split; [reflexivity|]. split; [reflexivity|]. device_simpl.
    rewrite assoc_get_set. device_simpl. split; [reflexivity|]. split.
    + intros verified [= <-]. apply list_elem_of_filter. split; [reflexivity|].
      apply list_elem_of_lookup. exists index. apply list_lookup_insert_eq.
      apply list_find_Some in Hfind as (Hi & _). eapply lookup_lt_Some, Hi.
    + intros approver. eexists. split; reflexivity.
  - intros [-> | (devices & -> & ->)]; reflexivity.
Qed.

Lemma verifyDevice_checks_no_approver_witness :
  let device :=
    DeviceInfo.mk (js "device-b") (js "bob") (js "phone") mobile (js "k1") (js "k2")
      (js "F1") false None 1000 1000 false in
  let w := DeviceWorld.mk [(js "bob", [device])] ∅ ∅ (Db.mk ∅ [] ∅) in
  exists device' w',
    deviceManager.verifyDevice w (js "bob") (js "device-b") (js "device-b") (js "e1") 2000
    = Resolved (Some device', w')
    /\ DeviceInfo.verified device' = true
    /\ deviceManager.getVerifiedDevices w' (js "bob") = Resolved [device'].
Proof.
  intros device w.
  destruct (proj1 (verifyDevice_checks_no_approver w (js "bob") (js "device-b")
                     (js "device-b") (js "e1") 2000)
              [device] 0%nat device eq_refl eq_refl)
    as (device' & w' & Hv & -> & Hu & _).
  eexists _, w'. split; [exact Hv|]. split; [reflexivity|].
  unfold deviceManager.getVerifiedDevices. rewrite Hu. reflexivity.
Defined.

Lemma list_find_delete_NoDup {A B} `{EqDecision B} (f : A -> B) (l : list A) b i x :
  NoDup (f <$> l) ->
  list_find (fun y => f y = b) l = Some (i, x) ->
  list_find (fun y => f y = b) (delete i l) = None.
Proof.
  intros Hnd Hfind. apply list_find_Some in Hfind as (Hi & Hx & _).
  apply list_find_None. apply Forall_forall. intros y Hy Hfy.
  apply list_elem_of_lookup in Hy as [j Hj].
  assert (Hj' : exists j', j' <> i /\ l !! j' = Some y).
  { destruct (decide (j < i)%nat).
    - exists j. split; [lia|]. now rewrite list_lookup_delete_lt in Hj.
    - exists (S j). split; [lia|]. now rewrite list_lookup_delete_ge in Hj by lia. }
  destruct Hj' as (j' & Hne & Hj').
  apply Hne. eapply (NoDup_lookup (f <$> l)); [exact Hnd | |].
  - rewrite list_lookup_fmap, Hj'. cbn. now rewrite Hfy.
  - rewrite list_lookup_fmap, Hi. cbn. now rewrite Hx.
Qed.

(** X26.  [removeDevice] takes the first device with the id out of the
    list of the user and nothing else: the rotation schedule of the
    device and its record in the database stay, so the removed device
    still comes due for key rotation.  For a user or a device that is
    not registered it returns false and changes nothing. *)
Theorem removeDevice_effect
    (w : DeviceWorld.t) (userId deviceId removedByDeviceId uuid : JsString) (now : Z) :
  (forall devices index device,
     assoc_get userId (DeviceWorld.deviceRegistry w) = Some devices ->
     list_find (fun d => DeviceInfo.deviceId d = deviceId) devices = Some (index, device) ->
     exists w',
       deviceManager.removeDevice w userId deviceId removedByDeviceId uuid now
       = Resolved (true, w')
       /\ deviceManager.getUserDevices w' userId = Resolved (delete index devices)
       /\ (NoDup (DeviceInfo.deviceId <$> devices) ->
           Forall (fun d => DeviceInfo.deviceId d <> deviceId) (delete index devices))
       /\ DeviceWorld.keyRotationSchedules w' = DeviceWorld.keyRotationSchedules w
       /\ (forall later,
             deviceManager.needsKeyRotation w' deviceId later
             = deviceManager.needsKeyRotation w deviceId later)
       /\ DeviceWorld.database w' = DeviceWorld.database w)
  /\ ((assoc_get userId (DeviceWorld.deviceRegistry w) = None
       \/ exists devices,
            assoc_get userId (DeviceWorld.deviceRegistry w) = Some devices
            /\ list_find (fun d => DeviceInfo.deviceId d = deviceId) devices = None) ->
      deviceManager.removeDevice w userId deviceId removedByDeviceId uuid now
      = Resolved (false, w)).
Proof.
  unfold deviceManager.removeDevice. split.
  - intros devices index device Hget Hfind. rewrite Hget, Hfind. device_simpl.
    eexists. split; [reflexivity|]. device_simpl.
    rewrite assoc_get_set. device_simpl. split; [reflexivity|]. split; [|repeat split].
    intros Hnd.
    apply (list_find_None (fun d => DeviceInfo.deviceId d = deviceId)).
    exact (list_find_delete_NoDup DeviceInfo.deviceId devices deviceId index device
             Hnd Hfind).
  - intros [-> | (devices & -> & ->)]; reflexivity.
Qed.

(** X27.  [rotateKeys] replaces the two public keys of the first
    registered device with the id, under whichever user it is
    registered: the user id of the call only names the queue that gets
    the keys-rotated event.  The fingerprint of the device is left as
    it was, computed from the old keys; the verified flag is kept; and
    the next rotation is due thirty days after the call.  For an id
    that is not registered it returns false and changes nothing. *)
Theorem rotateKeys_effect
    (w : DeviceWorld.t) (userId deviceId : JsString) (newDeviceKeys : DeviceKeys.t)
    (rotatedByDeviceId uuid : JsString) (now : Z) :
  (forall device,
     deviceManager.getDevice w deviceId = Resolved (Some device) ->
     exists w' event,
       deviceManager.rotateKeys w userId deviceId newDeviceKeys rotatedByDeviceId uuid now
       = Resolved (true, w')
       /\ deviceManager.getDevice w' deviceId
          = Resolved (Some (DeviceInfo.set_publicKeys device
                              (KeyPair.publicKey (DeviceKeys.signingKeys newDeviceKeys))
                              (KeyPair.publicKey (DeviceKeys.agreementKeys newDeviceKeys))))
       /\ DeviceInfo.deviceFingerprint
            (DeviceInfo.set_publicKeys device
               (KeyPair.publicKey (DeviceKeys.signingKeys newDeviceKeys))
               (KeyPair.publicKey (DeviceKeys.agreementKeys newDeviceKeys)))
          = DeviceInfo.deviceFingerprint device
       /\ (forall other, other <> deviceId ->
             deviceManager.getDevice w' other = deviceManager.getDevice w other)
       /\ (forall later,
             deviceManager.needsKeyRotation w' deviceId later
             = Resolved (later >=? now + 2592000000))
       /\ DeviceWorld.deviceSyncQueue w' !! userId
          = Some (default [] (DeviceWorld.deviceSyncQueue w !! userId) ++ [event])
       /\ DeviceSync.action event = keys_rotated
       /\ DeviceSync.deviceId event = rotatedByDeviceId)
  /\ (deviceManager.getDevice w deviceId = Resolved None ->
      deviceManager.rotateKeys w userId deviceId newDeviceKeys rotatedByDeviceId uuid now
      = Resolved (false, w)).
Proof.
  unfold deviceManager.rotateKeys. device_simpl. split.
  - intros device [= Hfind]. rewrite Hfind.
    destruct (findDevice_updateDevice deviceId
                (fun d => DeviceInfo.set_publicKeys d
                            (KeyPair.publicKey (DeviceKeys.signingKeys newDeviceKeys))
                            (KeyPair.publicKey (DeviceKeys.agreementKeys newDeviceKeys)))
                _ _ Hfind eq_refl) as (registry & Hupdate & Hfound & _).
    rewrite Hupdate. device_simpl. eexists _, _. split; [reflexivity|]. device_simpl.
    split; [now rewrite Hfound|]. split; [reflexivity|]. split; [|split; [|split]].
    + intros other Hne. f_equal.
      eapply findDevice_updateDevice_ne; [|exact Hne | exact Hupdate]. reflexivity.
    + intros later. now rewrite lookup_insert_eq.
    + apply lookup_insert_eq.
    + split; reflexivity.
  - intros [= ->]. reflexivity.
Qed.

Lemma rotateKeys_effect_witness :
  let device :=
    DeviceInfo.mk (js "device-b") (js "bob") (js "phone") mobile (js "k1") (js "k2")
      (js "F1") true (Some 1000) 1000 1000 false in
  let w := DeviceWorld.mk [(js "bob", [device])] ∅ ∅ (Db.mk ∅ [] ∅) in
  exists w' device',
    deviceManager.rotateKeys w (js "mallory") (js "device-b") Example.carol
      (js "device-m") (js "e1") 5000 = Resolved (true, w')
    /\ deviceManager.getDevice w' (js "device-b") = Resolved (Some device')
    /\ DeviceInfo.userId device' = js "bob"
    /\ DeviceInfo.publicSigningKey device' = Example.key "0.31"
    /\ DeviceInfo.deviceFingerprint device' = js "F1".
Proof.
  intros device w.
  destruct (proj1 (rotateKeys_effect w (js "mallory") (js "device-b") Example.carol
                     (js "device-m") (js "e1") 5000) device eq_refl)
    as (w' & event & Hr & Hg & _).
  eexists w', _. split; [exact Hr|]. split; [exact Hg|]. repeat split.
Defined.

(** X28.  An acknowledgement takes the first event with the id out of
    the queue of the user, which all devices of the user share: once one
    device has acknowledged an event, no device is offered it again.
    With no queue for the user, or no event with the id, nothing
    changes. *)
Theorem acknowledgeSyncEvent_effect (w : DeviceWorld.t) (userId syncId : JsString) :
  (forall queue index event,
     DeviceWorld.deviceSyncQueue w !! userId = Some queue ->
     list_find (fun e => DeviceSync.syncId e = syncId) queue = Some (index, event) ->
     exists w',
       deviceManager.acknowledgeSyncEvent w userId syncId = Resolved w'
       /\ DeviceWorld.deviceSyncQueue w' !! userId = Some (delete index queue)
       /\ (forall forDeviceId,
             deviceManager.getPendingSyncEvents w' userId forDeviceId
             = Resolved (filter (fun e => DeviceSync.deviceId e <> forDeviceId)
                           (delete index queue)))
       /\ (NoDup (DeviceSync.syncId <$> queue) ->
           forall forDeviceId events,
             deviceManager.getPendingSyncEvents w' userId forDeviceId = Resolved events ->
             Forall (fun e => DeviceSync.syncId e <> syncId) events)
       /\ DeviceWorld.deviceRegistry w' = DeviceWorld.deviceRegistry w)
  /\ ((DeviceWorld.deviceSyncQueue w !! userId = None
       \/ exists queue,
            DeviceWorld.deviceSyncQueue w !! userId = Some queue
            /\ list_find (fun e => DeviceSync.syncId e = syncId) queue = None) ->
      deviceManager.acknowledgeSyncEvent w userId syncId = Resolved w).
Proof.
  unfold deviceManager.acknowledgeSyncEvent. split.
  - intros queue index event Hq Hfind. rewrite Hq, Hfind.
    eexists. split; [reflexivity|].
    device_simpl. rewrite lookup_insert_eq. device_simpl.
    split; [reflexivity|]. split; [reflexivity|]. split; [|reflexivity].
    intros Hnd forDeviceId events [= <-].
    pose proof (list_find_delete_NoDup DeviceSync.syncId queue syncId index event
                  Hnd Hfind) as Hnone.
    apply list_find_None in Hnone.
    apply Forall_forall. intros e He. apply list_elem_of_filter in He as [_ He].
    rewrite Forall_forall in Hnone. exact (Hnone e He).
  - intros [-> | (queue & -> & ->)]; reflexivity.
Qed.

Lemma acknowledgeSyncEvent_effect_witness :
  let event :=
    DeviceSync.mk (js "e1") (js "device-a") (js "alice") device_added [] 1000 (js "sig") in
  let w := DeviceWorld.mk [] {[ js "alice" := [event] ]} ∅ (Db.mk ∅ [] ∅) in
  deviceManager.getPendingSyncEvents w (js "alice") (js "device-c") = Resolved [event]
  /\ exists w',
       deviceManager.acknowledgeSyncEvent w (js "alice") (js "e1") = Resolved w'
       /\ deviceManager.getPendingSyncEvents w' (js "alice") (js "device-c") = Resolved [].
Proof.
  intros event w. split; [reflexivity|].
  destruct (proj1 (acknowledgeSyncEvent_effect w (js "alice") (js "e1"))
              [event] 0%nat event (lookup_singleton_eq _ _) eq_refl)
    as (w' & Ha & _ & Hp & _).
  exists w'. split; [exact Ha|]. rewrite Hp. reflexivity.
Defined.

(** X29.  [trustDevice] verifies no device: the registry is as before,
    so the device it names is as unverified as it was.  What it does is
    tell the other devices of the user that a device was verified, in an
    event that carries the returned signature, and that signature is the
    signed text and the secret signing key of the trusting device in
    base64, which every reader of the event decodes. *)
Theorem trustDevice_verifies_nothing
    (w : DeviceWorld.t) (userId deviceId trustedByDeviceId : JsString)
    (trustedByDeviceKeys : DeviceKeys.t) (trustToken uuid : JsString) (now : Z) :
  well_formed deviceId = true -> well_formed trustedByDeviceId = true ->
  well_formed trustToken = true ->
  well_formed (KeyPair.secretKey (DeviceKeys.signingKeys trustedByDeviceKeys)) = true ->
  exists signature w' event,
    deviceManager.trustDevice w userId deviceId trustedByDeviceId trustedByDeviceKeys
      trustToken uuid now = Resolved (signature, w')
    /\ DeviceWorld.deviceRegistry w' = DeviceWorld.deviceRegistry w
    /\ (forall user,
          deviceManager.getVerifiedDevices w' user
          = deviceManager.getVerifiedDevices w user)
    /\ DeviceWorld.deviceSyncQueue w' !! userId
       = Some (default [] (DeviceWorld.deviceSyncQueue w !! userId) ++ [event])
    /\ DeviceSync.action event = device_verified
    /\ assoc_get (js "signature") (DeviceSync.payload event) = Some (JString signature)
    /\ (forall forDeviceId events,
          forDeviceId <> trustedByDeviceId ->
          deviceManager.getPendingSyncEvents w' userId forDeviceId = Resolved events ->
          event ∈ events)
    /\ decoded signature
       = deviceId ++ js ":" ++ trustedByDeviceId ++ js ":" ++ trustToken
           ++ js ":signed:"
           ++ KeyPair.secretKey (DeviceKeys.signingKeys trustedByDeviceKeys).
Proof.
  intros Hd Ht Hk Hs. unfold deviceManager.trustDevice, cryptoUtils.signData.
  device_simpl. eexists _, _, _. split; [reflexivity|]. device_simpl.
  split; [reflexivity|]. split; [reflexivity|].
  split; [apply lookup_insert_eq|]. split; [reflexivity|]. split; [reflexivity|].
  split.
  - intros forDeviceId events Hne.
    rewrite lookup_insert_eq. device_simpl. intros [= <-].
    apply list_elem_of_filter. split; [device_simpl; congruence|].
    apply elem_of_app. right. left.
  - rewrite decoded_base64; [now rewrite <- !app_assoc|].
    repeat (apply well_formed_app); try assumption; apply js_well_formed.
Qed.

Lemma trustDevice_verifies_nothing_witness :
  let device :=
    DeviceInfo.mk (js "device-b") (js "alice") (js "phone") mobile (js "k1") (js "k2")
      (js "F1") false None 1000 1000 false in
  let w := DeviceWorld.mk [(js "alice", [device])] ∅ ∅ (Db.mk ∅ [] ∅) in
  exists signature w',
    deviceManager.trustDevice w (js "alice") (js "device-b") (js "device-a") Example.alice
      (js "t1") (js "e1") 2000 = Resolved (signature, w')
    /\ deviceManager.getVerifiedDevices w' (js "alice") = Resolved []
    /\ decoded signature = js "device-b:device-a:t1:signed:" ++ Example.key "0.12".
Proof.
  intros device w.
  destruct (trustDevice_verifies_nothing w (js "alice") (js "device-b") (js "device-a")
              Example.alice (js "t1") (js "e1") 2000 eq_refl eq_refl eq_refl eq_refl)
    as (signature & w' & event & Ht & _ & Hv & _ & _ & _ & _ & Hd).
  exists signature, w'. split; [exact Ht|]. split; [|exact Hd].
  rewrite Hv. reflexivity.
Defined.

